(** * OmniFolio report generators: flowables, table helper and page layout

    Shallow embedding of [generate-omnifolio-pdf.py] and
    [generate-storage-report.py].

    Conventions of the embedding.
    - Numbers that only place and size what is drawn (widths, heights,
      coordinates) are exact rationals ([Q]); two of them are the same
      number when they are [Qeq] ([==]).  On these [a / b] raises
      [ZeroDivisionError] on a zero divisor and nothing else is checked:
      the last-digit rounding of a coordinate is left out.
    - Numbers whose value decides what is drawn or whether drawing stops
      are IEEE binary64 as in CPython: the score of a ScoreGauge, which
      goes through [int(score * 1.8)], and the weights of a
      ScoreBreakdownBar, which go through [sum], a division by the total
      and [int(weight * 100)].  Module [Float64] rounds to the nearest
      double, ties to even; module [Num] is Python's [int] and [float]
      with their mixed arithmetic and the exceptions it raises.  Module
      [Hardware] runs the same operations on the machine's doubles, for
      comparison.
    - A Python [str] is the string of its UTF-8 bytes.
    - The canvas is write-only: a drawing method is a computation in the
      monad [Draw], which logs the canvas calls in order and may raise.
    - Functions of ReportLab and of the Python runtime whose code is not
      part of the scripts (font metrics, [Color.hexval], [str] of a number,
      [int(s, 16)]) are fields of a record [Library] passed to the methods
      that call them.  The clock read by [datetime.date.today()] is an
      explicit argument [today]. *)

From Stdlib Require Import ZArith QArith Qround Qminmax Qabs Qpower List String Ascii Bool Lia Lqa.
From Stdlib Require Import DecimalString Floats.
Import ListNotations.

Set Implicit Arguments.

(** ** IEEE binary64 *)

Module Float64.
Local Open Scope Q_scope.

Definition pow2 (e : Z) : Q := 2 ^ e.

(** For [x > 0]: the exponent [e] with [2^e <= x < 2^(e+1)]. *)
Definition binade (x : Q) : Z :=
  let e := (Z.log2 (Qnum x) - Z.log2 (Zpos (Qden x)))%Z in
  if Qle_bool (pow2 e) x then e else (e - 1)%Z.

(** Exponent of the spacing of the doubles around [x]: 53 significant
    bits, and never finer than [2^-1074]. *)
Definition ulp_exp (x : Q) : Z := Z.max (binade (Qabs x) - 52) (-1074).

(** The nearest integer, ties to even. *)
Definition rne (q : Q) : Z :=
  let f := Qfloor q in
  match Qcompare (q - inject_Z f) (1 # 2) with
  | Lt => f
  | Gt => (f + 1)%Z
  | Eq => if Z.even f then f else (f + 1)%Z
  end.

(** The double nearest to [x], ties to even, before the range check. *)
Definition round (x : Q) : Q :=
  if Qeq_bool x 0 then 0
  else Qred (inject_Z (rne (x / pow2 (ulp_exp x))) * pow2 (ulp_exp x)).

(** The spacing of the doubles around [x]. *)
Definition ulp (x : Q) : Q := pow2 (ulp_exp x).

(** Whether a rounded value is a finite double: below [2^1024] in
    magnitude. *)
Definition in_range (x : Q) : bool := negb (Qle_bool (pow2 1024) (Qabs x)).

Definition negative (x : Q) : bool := negb (Qle_bool 0 x).

(** A double: a finite value, an infinity or a nan.  The two zeros are
    one value; no operation of the scripts tells them apart. *)
Inductive t : Type :=
| Fin (x : Q)
| Inf (neg : bool)
| NaN.

(** The double an exact result [x] rounds to. *)
Definition of_Q (x : Q) : t :=
  let r := round x in
  if in_range r then Fin r else Inf (negative r).

Definition is_zero (a : t) : bool :=
  match a with
  | Fin x => Qeq_bool x 0
  | _ => false
  end.

Definition add (a b : t) : t :=
  match a, b with
  | NaN, _ | _, NaN => NaN
  | Inf s, Inf s' => if Bool.eqb s s' then Inf s else NaN
  | Inf s, Fin _ | Fin _, Inf s => Inf s
  | Fin x, Fin y => of_Q (x + y)
  end.

Definition mul (a b : t) : t :=
  match a, b with
  | NaN, _ | _, NaN => NaN
  | Inf s, Inf s' => Inf (xorb s s')
  | Inf s, Fin y | Fin y, Inf s =>
      if Qeq_bool y 0 then NaN else Inf (xorb s (negative y))
  | Fin x, Fin y => of_Q (x * y)
  end.

(** [a / b] for a divisor that is not zero. *)
Definition div (a b : t) : t :=
  match a, b with
  | NaN, _ | _, NaN => NaN
  | Inf _, Inf _ => NaN
  | Inf s, Fin y => Inf (xorb s (negative y))
  | Fin _, Inf _ => Fin 0
  | Fin x, Fin y => of_Q (x / y)
  end.

End Float64.

(** ** Python runtime *)

Module Py.

Inductive exn : Type :=
| ZeroDivisionError
| ValueError
| OverflowError.

Inductive result (A : Type) : Type :=
| Ok (a : A)
| Raise (e : exn).
Arguments Ok {A} a.
Arguments Raise {A} e.

(** [a / b] on numbers. *)
Definition truediv (a b : Q) : result Q :=
  if Qeq_bool b 0 then Raise ZeroDivisionError else Ok (a / b)%Q.

(** [int(x)]: the integer part, rounding toward zero. *)
Definition int (x : Q) : Z := Z.quot (Qnum x) (Zpos (Qden x)).

(** [math.ceil(x)]. *)
Definition ceil (x : Q) : Z := Qceiling x.

(** [len(xs)] as a number. *)
Definition len {A : Type} (xs : list A) : Q := inject_Z (Z.of_nat (List.length xs)).

(** [sum(xs)]: starts from [0] and adds from the left. *)
Definition sum (xs : list Q) : Q := fold_left Qplus xs 0%Q.

(** [str(n)] for an integer [n]. *)
Definition str_int (n : Z) : string := NilZero.string_of_int (Z.to_int n).

(** [enumerate(xs)]. *)
Fixpoint enumerate_from {A : Type} (i : nat) (xs : list A) : list (nat * A) :=
  match xs with
  | [] => []
  | x :: xs' => (i, x) :: enumerate_from (S i) xs'
  end.
Definition enumerate {A : Type} (xs : list A) : list (nat * A) :=
  enumerate_from 0 xs.

(** [s.startswith(p)]. *)
Fixpoint startswith (p s : string) : bool :=
  match p, s with
  | EmptyString, _ => true
  | String a p', String b s' => Ascii.eqb a b && startswith p' s'
  | String _ _, EmptyString => false
  end.

(** [p in s] for strings: [p] occurs in [s] as a contiguous run. *)
Fixpoint contains (p s : string) : bool :=
  startswith p s ||
  match s with
  | EmptyString => false
  | String _ s' => contains p s'
  end.

(** [s[n:]]. *)
Fixpoint drop (n : nat) (s : string) : string :=
  match n, s with
  | O, _ => s
  | S _, EmptyString => EmptyString
  | S n', String _ s' => drop n' s'
  end.

(** [s[a:b]] for [0 <= a <= b]. *)
Definition slice (a b : nat) (s : string) : string :=
  String.substring a (Nat.min (b - a) (String.length s - a)) s.

(** [s.replace(old, '')] for a non-empty [old]: every occurrence, scanning
    from the left, is removed.  [fuel] bounds the scan by the length. *)
Fixpoint remove_all_fuel (fuel : nat) (old s : string) : string :=
  match fuel with
  | O => s
  | S fuel' =>
      match s with
      | EmptyString => EmptyString
      | String c s' =>
          if startswith old s
          then remove_all_fuel fuel' old (drop (String.length old) s)
          else String c (remove_all_fuel fuel' old s')
      end
  end.
Definition remove_all (old s : string) : string :=
  remove_all_fuel (String.length s) old s.

Fixpoint zeros (n : nat) : string :=
  match n with
  | O => EmptyString
  | S n' => String "0" (zeros n')
  end.

(** [s.zfill(width)]: zeros go after a leading sign. *)
Definition zfill (width : nat) (s : string) : string :=
  let pad := zeros (width - String.length s) in
  match s with
  | String c s' =>
      if Ascii.eqb c "+" || Ascii.eqb c "-"
      then String c (pad ++ s')
      else (pad ++ s)
  | EmptyString => pad
  end%string.

(** [datetime.date]. *)
Record date : Type := mkdate { year : Z; month : nat; day : nat }.

Definition month_name (m : nat) : string :=
  nth (m - 1)
      ["January"; "February"; "March"; "April"; "May"; "June"; "July";
       "August"; "September"; "October"; "November"; "December"]%string
      ""%string.

(** [d.strftime('%B %d, %Y')]: month name, day on two digits, year. *)
Definition strftime_B_d_Y (d : date) : string :=
  (month_name (month d) ++ " "
     ++ (if Nat.ltb (day d) 10 then "0" else "")
     ++ str_int (Z.of_nat (day d)) ++ ", " ++ str_int (year d))%string.

End Py.

(** ** Python numbers: [int] and [float] *)

Module Num.
Import Py.
Local Open Scope Q_scope.

Inductive t : Type :=
| Int (n : Z)
| Float (f : Float64.t).

Definition and_then {A B : Type} (r : result A) (k : A -> result B) : result B :=
  match r with
  | Ok a => k a
  | Raise e => Raise e
  end.

(** [float(n)]: the nearest double; an int beyond the double range
    raises OverflowError. *)
Definition float_of_int (n : Z) : result Float64.t :=
  match Float64.of_Q (inject_Z n) with
  | Float64.Fin x => Ok (Float64.Fin x)
  | _ => Raise OverflowError
  end.

(** The operand of a float operation: an int is converted first. *)
Definition to_float (a : t) : result Float64.t :=
  match a with
  | Int n => float_of_int n
  | Float f => Ok f
  end.

(** [a + b] *)
Definition add (a b : t) : result t :=
  match a, b with
  | Int m, Int n => Ok (Int (m + n))
  | _, _ =>
      and_then (to_float a) (fun x =>
      and_then (to_float b) (fun y => Ok (Float (Float64.add x y))))
  end.

(** [a * b] *)
Definition mul (a b : t) : result t :=
  match a, b with
  | Int m, Int n => Ok (Int (m * n))
  | _, _ =>
      and_then (to_float a) (fun x =>
      and_then (to_float b) (fun y => Ok (Float (Float64.mul x y))))
  end.

(** [a / b].  Two ints give the double nearest to the exact quotient,
    or OverflowError when that is beyond the double range; otherwise the
    operands are converted, and then the divisor is tested. *)
Definition truediv (a b : t) : result t :=
  match a, b with
  | Int m, Int n =>
      if (n =? 0)%Z then Raise ZeroDivisionError
      else match Float64.of_Q (inject_Z m / inject_Z n) with
           | Float64.Fin x => Ok (Float (Float64.Fin x))
           | _ => Raise OverflowError
           end
  | _, _ =>
      and_then (to_float a) (fun x =>
      and_then (to_float b) (fun y =>
        if Float64.is_zero y then Raise ZeroDivisionError
        else Ok (Float (Float64.div x y))))
  end.

(** [int(a)] *)
Definition int (a : t) : result Z :=
  match a with
  | Int n => Ok n
  | Float (Float64.Fin x) => Ok (Py.int x)
  | Float (Float64.Inf _) => Raise OverflowError
  | Float Float64.NaN => Raise ValueError
  end.

(** [sum(xs)]: starts from the int [0] and adds from the left, each
    float addition rounded, as CPython does up to 3.11.  (From 3.12 on
    CPython compensates the rounding errors of a float sum; the two agree
    wherever the additions are exact.) *)
Definition sum (xs : list t) : result t :=
  fold_left (fun acc x => and_then acc (fun a => add a x)) xs (Ok (Int 0)).

(** [a == 0] *)
Definition is_zero (a : t) : bool :=
  match a with
  | Int n => (n =? 0)%Z
  | Float f => Float64.is_zero f
  end.

(** [0 < a] *)
Definition positive (a : t) : bool :=
  match a with
  | Int n => (0 <? n)%Z
  | Float (Float64.Fin x) => negb (Qle_bool x 0)
  | Float (Float64.Inf s) => negb s
  | Float Float64.NaN => false
  end.


(** A float literal: the double nearest to the decimal written. *)
Definition literal (x : Q) : t := Float (Float64.of_Q x).

(** The number as a rational.  An infinity or a nan has none, and what
    the canvas does with one is ReportLab's; [0] stands in for it. *)
Definition to_Q (a : t) : Q :=
  match a with
  | Int n => inject_Z n
  | Float (Float64.Fin x) => x
  | Float _ => 0
  end.

End Num.

(** ** ReportLab interface: colours, canvas calls, the drawing monad *)

Module RL.
Import Py.

Inductive Color : Type :=
| HexColor (hex : string)
| white
| black.

(** [reportlab.lib.units]: [inch = 72], [cm = inch / 2.54],
    [mm = cm * 0.1]. *)
Definition inch : Q := 72.
Definition cm : Q := inch / (254 # 100).
Definition mm : Q := cm * (1 # 10).

(** [reportlab.lib.pagesizes.A4 = (210*mm, 297*mm)]. *)
Definition A4 : Q * Q := (210 * mm, 297 * mm)%Q.

Inductive path_op : Type :=
| moveTo (x y : Q)
| lineTo (x y : Q)
| close.

(** One constructor per canvas method the scripts call; [fill] and
    [stroke] are the keyword flags. *)
Inductive op : Type :=
| setFillColor (c : Color)
| setFillColorRGB (r g b alpha : Q)
| setStrokeColor (c : Color)
| setLineWidth (w : Q)
| setFont (name : string) (size : Q)
| rect (x y w h : Q) (fill stroke : bool)
| roundRect (x y w h radius : Q) (fill stroke : bool)
| circle (cx cy r : Q) (fill stroke : bool)
| line (x1 y1 x2 y2 : Q)
| arc (x1 y1 x2 y2 startAng extent : Q)
| drawString (x y : Q) (text : string)
| drawCentredString (x y : Q) (text : string)
| drawRightString (x y : Q) (text : string)
| drawPath (p : list path_op) (fill stroke : bool).

(** Code the scripts call and do not contain. *)
Record Library : Type := mkLibrary {
  stringWidth : string -> string -> Q -> Q;
  hexval : Color -> string;
  int16 : string -> result Z;
  str_num : Q -> string
}.

(** A drawing computation: the canvas calls made so far, and either a
    value or the exception that stopped it. *)
Definition Draw (A : Type) : Type := (list op * result A)%type.

Definition ret {A : Type} (a : A) : Draw A := ([], Ok a).

Definition bind {A B : Type} (m : Draw A) (k : A -> Draw B) : Draw B :=
  match m with
  | (l1, Ok a) => let (l2, r) := k a in (l1 ++ l2, r)
  | (l1, Raise e) => (l1, Raise e)
  end.

Definition emit (o : op) : Draw unit := ([o], Ok tt).

Definition lift {A : Type} (r : result A) : Draw A := ([], r).

Definition log {A : Type} (m : Draw A) : list op := fst m.
Definition outcome {A : Type} (m : Draw A) : result A := snd m.

Declare Scope draw_scope.
Delimit Scope draw_scope with draw.
Notation "x <- m ;; k" := (bind m (fun x => k))
  (at level 61, m at next level, right associativity) : draw_scope.
Notation "m ;; k" := (bind m (fun _ => k))
  (at level 61, right associativity) : draw_scope.

(** [for x in xs: body(x)]. *)
Fixpoint for_each {A : Type} (xs : list A) (body : A -> Draw unit) : Draw unit :=
  match xs with
  | [] => ret tt
  | x :: xs' => bind (body x) (fun _ => for_each xs' body)
  end.

(** A [for] loop that updates one local variable. *)
Fixpoint for_each_acc {A S : Type} (xs : list A) (s : S)
         (body : S -> A -> Draw S) : Draw S :=
  match xs with
  | [] => ret s
  | x :: xs' => bind (body s x) (fun s' => for_each_acc xs' s' body)
  end.

(** Arguments handed to [wrap(self, *args)]. *)
Inductive pyval : Type :=
| VNone
| VNum (x : Q)
| VStr (s : string).

End RL.

(** ** ReportLab Platypus values the scripts build *)

Module Platypus.
Import Py RL.
Local Open Scope Q_scope.

(** [ParagraphStyle(name, parent=..., **kw)]: the parent and the
    keywords given; [None] is a keyword left to the parent. *)
Record ParagraphStyle : Type := mkParagraphStyle {
  style_name : string;
  parent : string;
  fontName : option string;
  fontSize : option Q;
  textColor : option Color;
  leading : option Q;
  alignment : option Z;
  spaceBefore : option Q;
  spaceAfter : option Q
}.

Definition TA_LEFT : Z := 0.
Definition TA_CENTER : Z := 1.
Definition TA_RIGHT : Z := 2.

(** [Paragraph(text, style)] *)
Record Paragraph : Type := mkParagraph {
  text : string;
  style : ParagraphStyle
}.

(** A table cell: a plain string or a paragraph. *)
Inductive Cell : Type :=
| CellStr (s : string)
| CellPara (p : Paragraph).

Inductive style_arg : Type :=
| AColor (c : Color)
| ANum (x : Q)
| AStr (s : string)
| AColors (cs : list Color).

(** A [TableStyle] command [(name, (sc, sr), (ec, er), args...)]. *)
Inductive style_cmd : Type :=
| Cmd (name : string) (start stop : Z * Z) (args : list style_arg)
| ROUNDEDCORNERS (radii : list Q).

Record Table_ : Type := mkTable {
  data : list (list Cell);
  colWidths : list Q;
  repeatRows : nat;
  tstyle : list style_cmd
}.

(** [Table(data, colWidths=..., repeatRows=...)]; ReportLab's default
    for [repeatRows] is [0]. *)
Definition Table (data : list (list Cell)) (colWidths : list Q)
           (repeatRows : option nat) : Table_ :=
  mkTable data colWidths (match repeatRows with Some k => k | None => O end) [].

(** [t.setStyle(TableStyle(cmds))] *)
Definition setStyle (t : Table_) (cmds : list style_cmd) : Table_ :=
  mkTable (data t) (colWidths t) (repeatRows t) (tstyle t ++ cmds).

(** The cell in row [r], column [c] of the table's data. *)
Definition cell_at (t : Table_) (r c : nat) : option Cell :=
match nth_error (data t) r with
| Some row => nth_error row c
| None => None
end.

(** [range(a, b, 2)] *)
Fixpoint range2_fuel (fuel a b : nat) : list nat :=
  match fuel with
  | O => []
  | S fuel' => if Nat.ltb a b then a :: range2_fuel fuel' (a + 2) b else []
  end.
Definition range2 (a b : nat) : list nat := range2_fuel b a b.

End Platypus.

(** ** generate-omnifolio-pdf.py *)

Module Omnifolio.
Import Py RL.
Local Open Scope Q_scope.
Local Open Scope draw_scope.

(** Palette. *)
Definition BG : Color := HexColor "#0A0A0A".
Definition SURFACE : Color := HexColor "#111111".
Definition SURFACE2 : Color := HexColor "#141414".
Definition BORDER : Color := HexColor "#1F1F1F".
Definition ACCENT_PUR : Color := HexColor "#A855F7".
Definition ACCENT_BLUE : Color := HexColor "#3B82F6".
Definition ACCENT_GRN : Color := HexColor "#10B981".
Definition ACCENT_AMB : Color := HexColor "#F59E0B".
Definition ACCENT_RED : Color := HexColor "#EF4444".
Definition ACCENT_CYAN : Color := HexColor "#06B6D4".
Definition ACCENT_INDIGO : Color := HexColor "#6366F1".
Definition TEXT_PRI : Color := HexColor "#F3F4F6".
Definition TEXT_SEC : Color := HexColor "#9CA3AF".
Definition TEXT_MUT : Color := HexColor "#4B5563".
Definition LIGHT_GRAY : Color := HexColor "#E5E7EB".

Definition PAGE_W : Q := fst A4.
Definition PAGE_H : Q := snd A4.

(** [class ColoredRect(Flowable)] *)
Module ColoredRect.
Record t : Type := mk { w : Q; h : Q; color : Color; radius : Q }.

Definition __init__ (w h : Q) (color : Color) (radius : option Q) : result t :=
  Ok (mk w h color (match radius with Some r => r | None => 4 end)).

Definition wrap (self : t) (args : list pyval) : (Q * Q) * t :=
  ((w self, h self), self).

Definition draw (self : t) : Draw unit :=
  emit (setFillColor (color self)) ;;
  emit (roundRect 0 0 (w self) (h self) (radius self) true false).
End ColoredRect.

(** [class HeroHeader(Flowable)] *)
Module HeroHeader.
Record t : Type := mk { width : Q; height : Q }.

Definition __init__ (width : Q) : result t := Ok (mk width 200).

Definition wrap (self : t) (args : list pyval) : (Q * Q) * t :=
  ((width self, height self), self).

Definition draw (lib : Library) (today : date) (self : t) : Draw unit :=
  let w := width self in
  let h := height self in
  (* Background gradient simulation (dark) *)
  emit (setFillColor (HexColor "#050505")) ;;
  emit (rect 0 0 w h true false) ;;
  (* Decorative purple glow blobs *)
  for_each [ (w * 0.1, h * 0.8, 100, 0.12);
             (w * 0.85, h * 0.3, 120, 0.10);
             (w * 0.5, h * 0.5, 90, 0.07) ]
    (fun '(cx, cy, r, alpha) =>
       emit (setFillColorRGB 0.66 0.33 0.97 alpha) ;;
       emit (circle cx cy r true false)) ;;
  (* Top accent line (gradient-like multi-segment) *)
  let colors_line := [ACCENT_PUR; ACCENT_BLUE; ACCENT_GRN; ACCENT_AMB] in
  seg_w <- lift (truediv w (len colors_line)) ;;
  for_each (enumerate colors_line)
    (fun '(i, col) =>
       let i := inject_Z (Z.of_nat i) in
       emit (setStrokeColor col) ;;
       emit (setLineWidth 3) ;;
       emit (line (i * seg_w) (h - 2) ((i + 1) * seg_w) (h - 2))) ;;
  (* OMNIFOLIO wordmark *)
  emit (setFillColor TEXT_PRI) ;;
  emit (setFont "Helvetica-Bold" 28) ;;
  emit (drawString 28 (h - 48) "OMNI") ;;
  emit (setFillColor ACCENT_PUR) ;;
  emit (drawString (28 + stringWidth lib "OMNI" "Helvetica-Bold" 28) (h - 48) "FOLIO") ;;
  (* Tagline *)
  emit (setFont "Helvetica" 9) ;;
  emit (setFillColor TEXT_SEC) ;;
  emit (drawString 28 (h - 64)
          "Proprietary Intelligence Platform  ·  Copyright OmniFolio. All rights reserved.") ;;
  (* Title *)
  emit (setFillColor TEXT_PRI) ;;
  emit (setFont "Helvetica-Bold" 20) ;;
  let title := "Proprietary Intelligence Services"%string in
  emit (drawString 28 (h - 104) title) ;;
  (* Subtitle *)
  emit (setFont "Helvetica" 11) ;;
  emit (setFillColor TEXT_SEC) ;;
  emit (drawString 28 (h - 124)
          "Technical Overview  ·  Architecture, Scoring Algorithms & Data Pipelines") ;;
  (* Date *)
  emit (setFont "Helvetica" 8) ;;
  emit (setFillColor TEXT_MUT) ;;
  let date_str := strftime_B_d_Y today in
  emit (drawRightString (w - 28) (h - 124) date_str) ;;
  (* Horizontal rule *)
  emit (setStrokeColor BORDER) ;;
  emit (setLineWidth 1) ;;
  emit (line 28 24 (w - 28) 24) ;;
  (* Service count badges *)
  let services := [ ("6", "Proprietary Services", ACCENT_PUR);
                    ("0", "Third-Party APIs", ACCENT_GRN);
                    ("100%", "Public Data Sources", ACCENT_BLUE) ]%string in
  _ <- for_each_acc services 28
    (fun bx '(val, lbl, col) =>
       emit (setFillColor col) ;;
       emit (roundRect bx 34 80 20 4 true false) ;;
       emit (setFillColor white) ;;
       emit (setFont "Helvetica-Bold" 9) ;;
       emit (drawCentredString (bx + 40) 43 (val ++ "  " ++ lbl)%string) ;;
       ret (bx + 90)) ;;
  ret tt.
End HeroHeader.

(** [class SectionBanner(Flowable)] *)
Module SectionBanner.
Record t : Type := mk {
  width : Q; height : Q; number : string; title : string;
  subtitle : string; accent : Color
}.

Definition __init__ (width : Q) (number title subtitle : string)
           (accent_color : Color) : result t :=
  Ok (mk width 54 number title subtitle accent_color).

Definition wrap (self : t) (args : list pyval) : (Q * Q) * t :=
  ((width self, height self), self).

Definition draw (lib : Library) (self : t) : Draw unit :=
  let w := width self in
  let h := height self in
  (* Background *)
  emit (setFillColor SURFACE) ;;
  emit (roundRect 0 0 w h 6 true false) ;;
  (* Left accent bar *)
  emit (setFillColor (accent self)) ;;
  emit (roundRect 0 0 5 h 3 true false) ;;
  (* Number badge background (dim version of accent) *)
  let hex_str := zfill 6 (remove_all "0x" (hexval lib (accent self))) in
  r <- lift (int16 lib (slice 0 2 hex_str)) ;;
  g <- lift (int16 lib (slice 2 4 hex_str)) ;;
  b <- lift (int16 lib (slice 4 6 hex_str)) ;;
  emit (setFillColorRGB (inject_Z r / 255) (inject_Z g / 255) (inject_Z b / 255) 0.15) ;;
  emit (circle 28 (h / 2) 13 true false) ;;
  emit (setFillColor (accent self)) ;;
  emit (setFont "Helvetica-Bold" 11) ;;
  emit (drawCentredString 28 (h / 2 - 4) (number self)) ;;
  (* Title *)
  emit (setFillColor TEXT_PRI) ;;
  emit (setFont "Helvetica-Bold" 14) ;;
  emit (drawString 52 (h - 22) (title self)) ;;
  (* Subtitle *)
  emit (setFillColor TEXT_SEC) ;;
  emit (setFont "Helvetica" 9) ;;
  emit (drawString 52 14 (subtitle self)).
End SectionBanner.

(** [class ScoreGauge(Flowable)] *)
Module ScoreGauge.
Record t : Type := mk { score : Q; label : string; color : Color; size : Q }.

Definition __init__ (score : Q) (label : string) (color : Color)
           (size : option Q) : result t :=
  Ok (mk score label color (match size with Some s => s | None => 90 end)).

Definition wrap (self : t) (args : list pyval) : (Q * Q) * t :=
  ((size self, size self * 0.7), self).

(** The double written [1.8]. *)
Definition one_point_eight : Q := Float64.round 1.8.

(** [self.score * 1.8] before the range check.  The score is a finite
    number, an int or a float: a float is a double already and an int is
    converted to the nearest one. *)
Definition product (self : t) : Q :=
  Float64.round (Float64.round (score self) * one_point_eight).

(** [angle = int(self.score * 1.8)], whenever that is computed. *)
Definition angle (self : t) : Z := int (product self).

(** [int(self.score * 1.8)]: OverflowError when the score is an int
    beyond the double range, which the conversion refuses, or when the
    product is beyond it, an infinity that [int] refuses. *)
Definition sweep (self : t) : result Z :=
  if Float64.in_range (Float64.round (score self)) && Float64.in_range (product self)
  then Ok (angle self)
  else Raise OverflowError.

Definition draw (lib : Library) (self : t) : Draw unit :=
  let cx := size self / 2 in
  let cy := size self * 0.22 in
  let r := size self * 0.38 in
  (* Background arc track *)
  emit (setStrokeColor SURFACE2) ;;
  emit (setLineWidth 8) ;;
  emit (arc (cx - r) (cy - r) (cx + r) (cy + r) 0 180) ;;
  (* Filled arc *)
  angle <- lift (sweep self) ;;
  emit (setStrokeColor (color self)) ;;
  emit (setLineWidth 8) ;;
  (if (0 <? angle)%Z
   then emit (arc (cx - r) (cy - r) (cx + r) (cy + r) 0 (inject_Z angle))
   else ret tt) ;;
  (* Score text *)
  emit (setFillColor TEXT_PRI) ;;
  emit (setFont "Helvetica-Bold" 16) ;;
  emit (drawCentredString cx (cy + r * 0.45) (str_num lib (score self))) ;;
  (* Label *)
  emit (setFillColor TEXT_SEC) ;;
  emit (setFont "Helvetica" 7) ;;
  emit (drawCentredString cx (cy - 12) (label self)).
End ScoreGauge.

(** [class DataFlowDiagram(Flowable)] *)
Module DataFlowDiagram.
Record t : Type := mk {
  width : Q; height : Q; steps : list (string * string); accent : Color
}.

Definition __init__ (width : Q) (steps : list (string * string))
           (accent_color : Color) : result t :=
  Ok (mk width 64 steps accent_color).

Definition wrap (self : t) (args : list pyval) : (Q * Q) * t :=
  ((width self, height self), self).

Definition box_w : Q := 90.
Definition box_h : Q := 40.

(** Body of the loop over [enumerate(self.steps)]. *)
Definition draw_step (self : t) (n : nat) (gap cy : Q)
           (st : nat * (string * string)) : Draw unit :=
  let '(i, (icon, label)) := st in
  let bx := gap + inject_Z (Z.of_nat i) * (box_w + gap) in
  let by_ := cy - box_h / 2 in
  (* Box background *)
  emit (setFillColor SURFACE2) ;;
  emit (roundRect bx by_ box_w box_h 5 true false) ;;
  (* Box border *)
  emit (setStrokeColor (accent self)) ;;
  emit (setLineWidth 0.5) ;;
  emit (roundRect bx by_ box_w box_h 5 false true) ;;
  (* Icon *)
  emit (setFillColor (accent self)) ;;
  emit (setFont "Helvetica-Bold" 10) ;;
  emit (drawCentredString (bx + box_w / 2) (by_ + box_h - 13) icon) ;;
  (* Label *)
  emit (setFillColor TEXT_SEC) ;;
  emit (setFont "Helvetica" 7) ;;
  emit (drawCentredString (bx + box_w / 2) (by_ + 7) label) ;;
  (* Arrow *)
  if (Z.of_nat i <? Z.of_nat n - 1)%Z
  then
    let ax := bx + box_w + gap / 2 in
    emit (setStrokeColor (accent self)) ;;
    emit (setLineWidth 1.5) ;;
    emit (line (bx + box_w + 4) cy (ax - 4) cy) ;;
    (* arrowhead *)
    emit (setFillColor (accent self)) ;;
    emit (drawPath [moveTo (ax - 4) (cy - 4); lineTo (ax - 4) (cy + 4);
                    lineTo (ax + 2) cy; close] true false)
  else ret tt.

Definition draw (self : t) : Draw unit :=
  let n := List.length (steps self) in
  gap <- lift (truediv (width self - len (steps self) * box_w)
                       (len (steps self) + 1)) ;;
  let cy := height self / 2 in
  for_each (enumerate (steps self)) (draw_step self n gap cy).
End DataFlowDiagram.

(** [class ScoreBreakdownBar(Flowable)] *)
Module ScoreBreakdownBar.
Definition component : Type := (string * Num.t * Color)%type.

Record t : Type := mk { width : Q; height : Q; components : list component }.

Definition __init__ (width : Q) (components : list component) : result t :=
  Ok (mk width 32 components).

Definition wrap (self : t) (args : list pyval) : (Q * Q) * t :=
  ((width self, height self), self).

Definition bar_h : Q := 12.

(** [total = sum(w for _, w, _ in self.components)] *)
Definition total (self : t) : result Num.t :=
  Num.sum (map (fun '(_, w, _) => w) (components self)).

(** [int(weight*100)] *)
Definition percent (weight : Num.t) : result Z :=
  Num.and_then (Num.mul weight (Num.Int 100)) Num.int.

(** Body of the first loop; the local [x] is threaded through. *)
Definition draw_segment (self : t) (total : Num.t) (bar_y : Q) (x : Q)
           (comp : component) : Draw Q :=
  let '(label, weight, color) := comp in
  q <- lift (Num.truediv weight total) ;;
  let seg_w := Num.to_Q q * width self in
  emit (setFillColor color) ;;
  emit (roundRect x bar_y (seg_w - 1) bar_h 2 true false) ;;
  ret (x + seg_w).

(** Body of the legend loop; the local [lx] is threaded through. *)
Definition draw_legend (self : t) (lx : Q) (comp : component) : Draw Q :=
  let '(label, weight, color) := comp in
  emit (setFillColor color) ;;
  emit (rect lx 2 6 6 true false) ;;
  emit (setFillColor TEXT_SEC) ;;
  emit (setFont "Helvetica" 6) ;;
  pct <- lift (percent weight) ;;
  emit (drawString (lx + 8) 3 (label ++ " " ++ str_int pct ++ "%")%string) ;;
  step <- lift (truediv (width self) (len (components self))) ;;
  ret (lx + step).

Definition draw (self : t) : Draw unit :=
  total <- lift (total self) ;;
  let bar_y := height self - bar_h - 4 in
  _ <- for_each_acc (components self) 0 (draw_segment self total bar_y) ;;
  (* Legend below *)
  _ <- for_each_acc (components self) 0 (draw_legend self) ;;
  ret tt.
End ScoreBreakdownBar.

(** [class FeatureGrid(Flowable)] *)
Module FeatureGrid.
Record t : Type := mk {
  width : Q; features : list (string * string); accent : Color; height : Q
}.

Definition __init__ (width : Q) (features : list (string * string))
           (accent_color : Color) : result t :=
  let rows := ceil (len features / 2) in
  Ok (mk width features accent_color (inject_Z rows * 36 + 4)).

Definition wrap (self : t) (args : list pyval) : (Q * Q) * t :=
  ((width self, height self), self).

Definition row_h : Q := 36.

(** Body of the loop over [enumerate(self.features)]. *)
Definition draw_card (self : t) (col_w : Q) (ft : nat * (string * string))
  : Draw unit :=
  let '(i, (title, desc)) := ft in
  let col := Nat.modulo i 2 in
  let row := Nat.div i 2 in
  let bx := inject_Z (Z.of_nat col) * (col_w + 8) in
  let by_ := height self - (inject_Z (Z.of_nat row) + 1) * row_h + 2 in
  (* Background card *)
  emit (setFillColor SURFACE2) ;;
  emit (roundRect bx by_ col_w (row_h - 2) 4 true false) ;;
  (* Dot *)
  emit (setFillColor (accent self)) ;;
  emit (circle (bx + 12) (by_ + row_h / 2 - 1) 3 true false) ;;
  (* Title *)
  emit (setFillColor TEXT_PRI) ;;
  emit (setFont "Helvetica-Bold" 8) ;;
  emit (drawString (bx + 22) (by_ + 22) title) ;;
  (* Desc *)
  emit (setFillColor TEXT_SEC) ;;
  emit (setFont "Helvetica" 7) ;;
  emit (drawString (bx + 22) (by_ + 10) desc).

Definition draw (self : t) : Draw unit :=
  let col_w := (width self - 8) / 2 in
  for_each (enumerate (features self)) (draw_card self col_w).
End FeatureGrid.

Import Platypus.

(** [build_pdf]: the usable width and the summary statistics table. *)
Definition W : Q := PAGE_W - 36 * mm.

(** [build_pdf]: the breakdown bar of the insider-confidence score. *)
Definition oic_bar : ScoreBreakdownBar.t :=
  ScoreBreakdownBar.mk W 32
    [ ("NPR  25%", Num.literal 0.25, ACCENT_INDIGO);
      ("VWS  30%", Num.literal 0.30, ACCENT_BLUE);
      ("IRW  20%", Num.literal 0.20, ACCENT_PUR);
      ("CS   15%", Num.literal 0.15, ACCENT_GRN);
      ("CB   10%", Num.literal 0.10, ACCENT_AMB) ]%string.

Definition stats_data : list (list Cell) :=
  map (map CellStr)
    [ ["Service"; "Data Source"; "Proprietary Score"; "Refresh Cadence"];
      ["Economic Calendar"; "BLS · Fed · ECB · BoE · BoJ"; "—"; "On-demand seeding"];
      ["IPO Calendar"; "SEC EDGAR (S-1/F-1/424B4)"; "—"; "6-hour background"];
      ["Earnings Calendar"; "SEC EDGAR (8-K/10-Q/10-K)"; "—"; "6-hour background"];
      ["Earnings Surprises"; "SEC EDGAR + DB cache"; "OES Score"; "Per-ticker refresh"];
      ["Insider Sentiment"; "SEC EDGAR Form 4"; "OIC Score"; "Market-hours TTL"];
      ["Senate Lobbying"; "US Senate LDA API"; "OLI Score"; "7-day TTL"];
      ["USA Spending"; "USAspending.gov API v2"; "OGI Score"; "7-day TTL"] ]%string.

Definition col_ws : list Q := [W * 0.22; W * 0.30; W * 0.20; W * 0.28].

Definition stats_table : Table_ :=
  let t := Table stats_data col_ws None in
  setStyle t
    ([ Cmd "BACKGROUND" (0, 0)%Z (-1, 0)%Z [AColor SURFACE2];
       Cmd "TEXTCOLOR" (0, 0)%Z (-1, 0)%Z [AColor ACCENT_PUR];
       Cmd "FONTNAME" (0, 0)%Z (-1, 0)%Z [AStr "Helvetica-Bold"];
       Cmd "FONTSIZE" (0, 0)%Z (-1, 0)%Z [ANum 8];
       Cmd "BACKGROUND" (0, 1)%Z (-1, -1)%Z [AColor SURFACE];
       Cmd "TEXTCOLOR" (0, 1)%Z (-1, -1)%Z [AColor TEXT_SEC];
       Cmd "FONTNAME" (0, 1)%Z (-1, -1)%Z [AStr "Helvetica"];
       Cmd "FONTSIZE" (0, 1)%Z (-1, -1)%Z [ANum 8];
       Cmd "ROWBACKGROUNDS" (0, 1)%Z (-1, -1)%Z
           [AColors [SURFACE; HexColor "#141414"]];
       Cmd "GRID" (0, 0)%Z (-1, -1)%Z [ANum 0.3; AColor BORDER];
       ROUNDEDCORNERS [4];
       Cmd "VALIGN" (0, 0)%Z (-1, -1)%Z [AStr "MIDDLE"];
       Cmd "PADDING" (0, 0)%Z (-1, -1)%Z [ANum 5];
       Cmd "ALIGN" (2, 0)%Z (2, -1)%Z [AStr "CENTER"];
       Cmd "ALIGN" (3, 0)%Z (3, -1)%Z [AStr "CENTER"] ]).

End Omnifolio.

(** ** generate-storage-report.py *)

Module Storage.
Import Py RL Platypus.
Local Open Scope Q_scope.
Local Open Scope draw_scope.

(** Colour palette. *)
Definition BRAND_DARK : Color := HexColor "#0F1117".
Definition BRAND_ACCENT : Color := HexColor "#6366F1".
Definition BRAND_LIGHT : Color := HexColor "#EEF2FF".
Definition BRAND_GREEN : Color := HexColor "#22C55E".
Definition BRAND_YELLOW : Color := HexColor "#F59E0B".
Definition BRAND_RED : Color := HexColor "#EF4444".
Definition BRAND_GRAY : Color := HexColor "#6B7280".
Definition TABLE_HEADER : Color := HexColor "#312E81".
Definition ROW_ALT : Color := HexColor "#F5F3FF".

Definition PAGE_W : Q := fst A4.
Definition PAGE_H : Q := snd A4.
Definition MARGIN : Q := 1.8 * cm.

(** Styles. *)
Definition title_style : ParagraphStyle :=
  mkParagraphStyle "Title" "Normal" (Some "Helvetica-Bold"%string) (Some 26)
    (Some BRAND_ACCENT) (Some 30) (Some TA_CENTER) None (Some 4).

Definition subtitle_style : ParagraphStyle :=
  mkParagraphStyle "Subtitle" "Normal" (Some "Helvetica"%string) (Some 11)
    (Some BRAND_GRAY) None (Some TA_CENTER) None (Some 6).

Definition section_style : ParagraphStyle :=
  mkParagraphStyle "Section" "Normal" (Some "Helvetica-Bold"%string) (Some 13)
    (Some BRAND_ACCENT) (Some 16) None (Some 14) (Some 6).

Definition body_style : ParagraphStyle :=
  mkParagraphStyle "Body" "Normal" (Some "Helvetica"%string) (Some 9)
    (Some (HexColor "#1F2937")) (Some 13) None None (Some 4).

Definition caption_style : ParagraphStyle :=
  mkParagraphStyle "Caption" "Normal" (Some "Helvetica-Bold"%string) (Some 9)
    (Some white) (Some 11) (Some TA_LEFT) None None.

Definition warn_style : ParagraphStyle :=
  mkParagraphStyle "Warn" "Normal" (Some "Helvetica-Bold"%string) (Some 9)
    (Some BRAND_RED) (Some 11) None None None.

(** The literal tested by [make_table]: U+26A0 U+FE0F, here in UTF-8
    (strings are their UTF-8 bytes; a run of whole characters occurs in
    a string exactly when its bytes do). *)
Definition WARNING_SIGN : string :=
  String (ascii_of_nat 226) (String (ascii_of_nat 154) (String (ascii_of_nat 160)
    (String (ascii_of_nat 239) (String (ascii_of_nat 184) (String (ascii_of_nat 143)
      EmptyString))))).

(** The paragraph built for one body cell. *)
Definition styled_cell (cell : string) : Cell :=
  let txt := cell in
  if contains WARNING_SIGN txt
  then CellPara (mkParagraph txt warn_style)
  else CellPara (mkParagraph txt body_style).

(** [make_table]: the cell data, the column widths and the style
    commands as the function hands them to ReportLab's [Table] and
    [setStyle].  What the [Table] constructor then does with them (it
    raises ValueError when the data has no column or the widths do not
    match the row length, and pads rows that are shorter than the
    longest) is ReportLab's and is not part of this value. *)
Definition make_table (headers : list string) (rows : list (list string))
           (col_widths : list Q) (warn_col : option nat) : Table_ :=
  let header_row :=
    map (fun h => CellPara (mkParagraph ("<b>" ++ h ++ "</b>")%string caption_style))
        headers in
  let data := header_row :: map (fun row => map styled_cell row) rows in
  let col_widths_pt := map (fun w => w * cm) col_widths in
  let style :=
    [ (* Header *)
      Cmd "BACKGROUND" (0, 0)%Z (-1, 0)%Z [AColor TABLE_HEADER];
      Cmd "TEXTCOLOR" (0, 0)%Z (-1, 0)%Z [AColor white];
      Cmd "FONTNAME" (0, 0)%Z (-1, 0)%Z [AStr "Helvetica-Bold"];
      Cmd "FONTSIZE" (0, 0)%Z (-1, 0)%Z [ANum 8.5];
      Cmd "BOTTOMPADDING" (0, 0)%Z (-1, 0)%Z [ANum 6];
      Cmd "TOPPADDING" (0, 0)%Z (-1, 0)%Z [ANum 6] ]
    ++ (* Alternating rows *)
    map (fun r => Cmd "BACKGROUND" (0, Z.of_nat r)%Z (-1, Z.of_nat r)%Z [AColor ROW_ALT])
        (range2 2 (List.length data))
    ++ (* Grid *)
    [ Cmd "GRID" (0, 0)%Z (-1, -1)%Z [ANum 0.4; AColor (HexColor "#C7D2FE")];
      Cmd "ROWBACKGROUNDS" (0, 1)%Z (-1, -1)%Z [AColors [white; ROW_ALT]];
      Cmd "VALIGN" (0, 0)%Z (-1, -1)%Z [AStr "MIDDLE"];
      Cmd "TOPPADDING" (0, 1)%Z (-1, -1)%Z [ANum 4];
      Cmd "BOTTOMPADDING" (0, 1)%Z (-1, -1)%Z [ANum 4];
      Cmd "LEFTPADDING" (0, 0)%Z (-1, -1)%Z [ANum 5];
      Cmd "RIGHTPADDING" (0, 0)%Z (-1, -1)%Z [ANum 5] ] in
  let t := Table data col_widths_pt (Some 1%nat) in
  setStyle t style.

(** [class ColorBadge(Flowable)] *)
Module ColorBadge.
Record t : Type := mk {
  text : string; bg : Color; fg : Color; width : Q; height : Q
}.

Definition __init__ (text : string) (bg fg : option Color)
           (width height : option Q) : result t :=
  Ok (mk text
         (match bg with Some c => c | None => BRAND_ACCENT end)
         (match fg with Some c => c | None => white end)
         (match width with Some w => w | None => 110 end)
         (match height with Some h => h | None => 16 end)).

Definition draw (self : t) : Draw unit :=
  emit (setFillColor (bg self)) ;;
  emit (roundRect 0 0 (width self) (height self) 4 true false) ;;
  emit (setFillColor (fg self)) ;;
  emit (setFont "Helvetica-Bold" 8) ;;
  emit (drawCentredString (width self / 2) 4 (text self)).

Definition wrap (self : t) (args : list pyval) : (Q * Q) * t :=
  ((width self, height self), self).
End ColorBadge.

End Storage.

(** ** The custom flowables as one type, with method dispatch *)

Module Flowable.
Import Py RL.

Inductive t : Type :=
| HeroHeader (self : Omnifolio.HeroHeader.t)
| SectionBanner (self : Omnifolio.SectionBanner.t)
| ScoreGauge (self : Omnifolio.ScoreGauge.t)
| DataFlowDiagram (self : Omnifolio.DataFlowDiagram.t)
| ScoreBreakdownBar (self : Omnifolio.ScoreBreakdownBar.t)
| FeatureGrid (self : Omnifolio.FeatureGrid.t)
| ColoredRect (self : Omnifolio.ColoredRect.t)
| ColorBadge (self : Storage.ColorBadge.t).

(** [f.wrap] with any arguments: the returned pair and the object after
    the call. *)
Definition wrap (f : t) (args : list pyval) : (Q * Q) * t :=
  match f with
  | HeroHeader x => let (r, x') := Omnifolio.HeroHeader.wrap x args in (r, HeroHeader x')
  | SectionBanner x => let (r, x') := Omnifolio.SectionBanner.wrap x args in (r, SectionBanner x')
  | ScoreGauge x => let (r, x') := Omnifolio.ScoreGauge.wrap x args in (r, ScoreGauge x')
  | DataFlowDiagram x => let (r, x') := Omnifolio.DataFlowDiagram.wrap x args in (r, DataFlowDiagram x')
  | ScoreBreakdownBar x => let (r, x') := Omnifolio.ScoreBreakdownBar.wrap x args in (r, ScoreBreakdownBar x')
  | FeatureGrid x => let (r, x') := Omnifolio.FeatureGrid.wrap x args in (r, FeatureGrid x')
  | ColoredRect x => let (r, x') := Omnifolio.ColoredRect.wrap x args in (r, ColoredRect x')
  | ColorBadge x => let (r, x') := Storage.ColorBadge.wrap x args in (r, ColorBadge x')
  end.

(** [f.draw()] *)
Definition draw (lib : Library) (today : date) (f : t) : Draw unit :=
  match f with
  | HeroHeader x => Omnifolio.HeroHeader.draw lib today x
  | SectionBanner x => Omnifolio.SectionBanner.draw lib x
  | ScoreGauge x => Omnifolio.ScoreGauge.draw lib x
  | DataFlowDiagram x => Omnifolio.DataFlowDiagram.draw x
  | ScoreBreakdownBar x => Omnifolio.ScoreBreakdownBar.draw x
  | FeatureGrid x => Omnifolio.FeatureGrid.draw x
  | ColoredRect x => Omnifolio.ColoredRect.draw x
  | ColorBadge x => Storage.ColorBadge.draw x
  end.

Definition is_HeroHeader (f : t) : bool :=
  match f with HeroHeader _ => true | _ => false end.

End Flowable.

(** ** Flow layout and pagination

    Both scripts hand their story to [doc.build(story)]; the pagination
    itself is not part of the scripts.  This module follows sections 3 and
    4 of the specification; heights and offsets are measured downward
    from the top of the usable area. *)

Module Layout.
Import RL Platypus.
Local Open Scope Q_scope.

(** Modelled from the spec: the page geometry, "width, height, four
    margins"; the scripts only pass these numbers to ReportLab. *)
Record PageGeometry : Type := mkGeometry {
  width : Q; height : Q;
  margin_top : Q; margin_bottom : Q; margin_left : Q; margin_right : Q
}.

Definition usable_width (g : PageGeometry) : Q :=
  width g - margin_left g - margin_right g.
Definition usable_height (g : PageGeometry) : Q :=
  height g - margin_top g - margin_bottom g.

(** The geometry both [build_pdf] functions pass to [SimpleDocTemplate]. *)
Definition omnifolio_geometry : PageGeometry :=
  mkGeometry (fst A4) (snd A4) (14 * mm) (14 * mm) (18 * mm) (18 * mm).
Definition storage_geometry : PageGeometry :=
  mkGeometry (fst A4) (snd A4) Storage.MARGIN Storage.MARGIN Storage.MARGIN Storage.MARGIN.

#[local] Set Warnings "-register-all".

(** Modelled from the spec: the block variants of section 3; the scripts
    build ReportLab flowables, whose classes are not theirs but for the
    custom flowables, here under [DiagramPanel]. *)
Inductive ContentBlock : Type :=
| Paragraph (p : Platypus.Paragraph)
| Spacer (w h : Q)
| Rule (thickness : Q)
| Table (t : Table_)
| DiagramPanel (f : Flowable.t)
| KeepTogetherGroup (children : list ContentBlock)
| ExplicitPageBreak.

(** Text measurement and the fixed gaps, which the specification leaves
    to the font metrics and to configuration. *)
Record Metrics : Type := mkMetrics {
  text_height : Platypus.Paragraph -> Q -> Q;
  cell_height : Cell -> Q -> Q;
  vertical_padding : Q;
  block_gap : Q;
  group_gap : Q
}.

(** Modelled from the spec: "(pageIndex, block, origin)", missing from
    the scripts. *)
Record Placement : Type := mkPlacement {
  pageIndex : nat;
  block : ContentBlock;
  origin : Q * Q
}.

(** Modelled from the spec: the layout cursor, "current page index,
    current vertical offset from top of usable area"; missing from the
    scripts. *)
Record Cursor : Type := mkCursor { page : nat; offset : Q }.

(** Modelled from the spec: the height of a table row, missing from the
    scripts (ReportLab computes it).  "Row height = max over cells in
    that row of the cell's measured height plus vertical padding." *)
Definition row_height (m : Metrics) (widths : list Q) (row : list Cell) : Q :=
  fold_left Qmax (map (fun cw => cell_height m (fst cw) (snd cw)) (combine row widths)) 0
  + vertical_padding m.

Fixpoint rows_height (m : Metrics) (widths : list Q) (rows : list (list Cell)) : Q :=
  match rows with
  | [] => 0
  | r :: rows' => row_height m widths r + rows_height m widths rows'
  end.

(** Heights stacked with a gap between neighbours. *)
Fixpoint stack_height (gap : Q) (hs : list Q) : Q :=
  match hs with
  | [] => 0
  | h :: hs' =>
      match hs' with
      | [] => h
      | _ :: _ => h + gap + stack_height gap hs'
      end
  end.

(** Modelled from the spec: [measure(usableWidth)], missing from the
    scripts for every block but the custom flowables, whose [wrap] it
    calls.  A group "is measured as the sum of its children's heights
    (plus internal gaps)". *)
Fixpoint measure (m : Metrics) (uw : Q) (b : ContentBlock) : Q * Q :=
  match b with
  | Paragraph p => (uw, text_height m p uw)
  | Spacer w h => (w, h)
  | Rule th => (uw, th)
  | Table t => (Py.sum (colWidths t), rows_height m (colWidths t) (data t))
  | DiagramPanel f => fst (Flowable.wrap f [VNum uw])
  | KeepTogetherGroup cs =>
      (uw, stack_height (group_gap m) (map (fun c => snd (measure m uw c)) cs))
  | ExplicitPageBreak => (0, 0)
  end.

Definition height_of (m : Metrics) (g : PageGeometry) (b : ContentBlock) : Q :=
  snd (measure m (usable_width g) b).

Definition origin_at (g : PageGeometry) (y : Q) : Q * Q :=
  (margin_left g, margin_top g + y).

(** Modelled from the spec: placing one block, whole, at offset [y] of
    page [pg]; missing from the scripts.  A group places its children
    one under the other on that same page. *)
Fixpoint place (m : Metrics) (g : PageGeometry) (pg : nat) (y : Q)
         (b : ContentBlock) : list Placement :=
  match b with
  | KeepTogetherGroup cs =>
      (fix children (y : Q) (cs : list ContentBlock) : list Placement :=
         match cs with
         | [] => []
         | c :: cs' =>
             place m g pg y c
             ++ children (y + snd (measure m (usable_width g) c) + group_gap m) cs'
         end) y cs
  | ExplicitPageBreak => []
  | _ => [mkPlacement pg b (origin_at g y)]
  end.

(** Modelled from the spec: the table's sub-measurement "how many
    leading rows fit", missing from the scripts.  Row heights are
    accumulated until the next row would overflow [room]; that row then
    opens the next page, which offers [fresh] under the header, and is
    kept there even when it is taller than [fresh] (no row is dropped).
    The result is the rows kept on the current page and the rows of each
    further page. *)
Fixpoint chunk_rows (rh : list Cell -> Q) (fresh room : Q)
         (body : list (list Cell)) : list (list Cell) * list (list (list Cell)) :=
  match body with
  | [] => ([], [])
  | r :: rest =>
      if Qle_bool (rh r) room
      then let (c, cs) := chunk_rows rh fresh (room - rh r) rest in (r :: c, cs)
      else let (c, cs) := chunk_rows rh fresh (fresh - rh r) rest in ([], (r :: c) :: cs)
  end.

Definition header_rows (t : Table_) : list (list Cell) :=
  firstn (repeatRows t) (data t).
Definition body_rows (t : Table_) : list (list Cell) :=
  skipn (repeatRows t) (data t).

(** Modelled from the spec: the table re-issued for one page, "a fresh
    copy containing the header rows re-prepended to the remaining body
    rows"; missing from the scripts. *)
Definition piece (t : Table_) (rows : list (list Cell)) : ContentBlock :=
  Table (mkTable (header_rows t ++ rows) (colWidths t) (repeatRows t) (tstyle t)).

Fixpoint place_pieces (g : PageGeometry) (t : Table_) (pg : nat)
         (chunks : list (list (list Cell))) : list Placement :=
  match chunks with
  | [] => []
  | c :: cs => mkPlacement pg (piece t c) (origin_at g 0) :: place_pieces g t (S pg) cs
  end.

(** Modelled from the spec: the forced split of a table taller than a
    page (section 4.2), missing from the scripts.  Header space is
    reserved first; when not even one body row fits under the header
    on the current page the whole table starts on the next page. *)
Definition split_table (m : Metrics) (g : PageGeometry) (cur : Cursor)
           (t : Table_) : list Placement * Cursor :=
  let rh := row_height m (colWidths t) in
  let hh := rows_height m (colWidths t) (header_rows t) in
  let U := usable_height g in
  let (c0, cs) := chunk_rows rh (U - hh) (U - offset cur - hh) (body_rows t) in
  let first :=
    match c0 with
    | [] => []
    | _ :: _ => [mkPlacement (page cur) (piece t c0) (origin_at g (offset cur))]
    end in
  let last_page := (page cur + List.length cs)%nat in
  let last_offset :=
    match cs with
    | [] => offset cur
    | _ :: _ => 0
    end in
  let last_rows := last cs c0 in
  (first ++ place_pieces g t (S (page cur)) cs,
   mkCursor last_page
     (last_offset + hh + rows_height m (colWidths t) last_rows + block_gap m)).

Definition gtb (a b : Q) : bool := negb (Qle_bool a b).

Definition fresh_page (m : Metrics) (g : PageGeometry) (cur : Cursor)
           (b : ContentBlock) : list Placement * Cursor :=
  (place m g (S (page cur)) 0 b,
   mkCursor (S (page cur)) (height_of m g b + block_gap m)).

(** Modelled from the spec: steps 1 to 5 of the pagination algorithm
    (section 4.1) for one top-level block, missing from the scripts. *)
Definition step (m : Metrics) (g : PageGeometry) (cur : Cursor)
           (b : ContentBlock) : list Placement * Cursor :=
  let h := height_of m g b in
  match b with
  | ExplicitPageBreak => ([], mkCursor (S (page cur)) 0)
  | _ =>
      if gtb h (usable_height g - offset cur)
      then
        if gtb h (usable_height g)
        then
          match b with
          | Table t =>
              match body_rows t with
              | [] => fresh_page m g cur b
              | _ :: _ => split_table m g cur t
              end
          | _ => fresh_page m g cur b
          end
        else fresh_page m g cur b
      else
        (place m g (page cur) (offset cur) b,
         mkCursor (page cur) (offset cur + h + block_gap m))
  end.

Fixpoint layout_from (m : Metrics) (g : PageGeometry) (cur : Cursor)
         (blocks : list ContentBlock) : list Placement :=
  match blocks with
  | [] => []
  | b :: bs =>
      let (ps, cur') := step m g cur b in
      ps ++ layout_from m g cur' bs
  end.

(** Modelled from the spec: [layout(blocks, geometry)], missing from the
    scripts; the cursor starts at page 0, offset 0. *)
Definition layout (m : Metrics) (g : PageGeometry)
           (blocks : list ContentBlock) : list Placement :=
  layout_from m g (mkCursor 0 0) blocks.

(** The cursor after laying out [blocks] from [cur]. *)
Fixpoint cursor_after (m : Metrics) (g : PageGeometry) (cur : Cursor)
         (blocks : list ContentBlock) : Cursor :=
match blocks with
| [] => cur
| b :: bs => cursor_after m g (snd (step m g cur b)) bs
end.

(** The blocks of a tree that get a placement, in reading order. *)
Fixpoint leaves (b : ContentBlock) : list ContentBlock :=
match b with
| KeepTogetherGroup cs => flat_map leaves cs
| ExplicitPageBreak => []
| _ => [b]
end.

(** No [HeroHeader] anywhere in the block. *)
Fixpoint hero_free (b : ContentBlock) : bool :=
match b with
| DiagramPanel f => negb (Flowable.is_HeroHeader f)
| KeepTogetherGroup cs => forallb hero_free cs
| _ => true
end.

(** The rows a placement shows, when it places a table. *)
Definition rows_of (p : Placement) : list (list Cell) :=
match block p with
| Table t => data t
| _ => []
end.

(** What the run hands to the canvas for the custom flowables placed:
    page, origin and the calls of [draw]. *)
Definition draw_panels (lib : Library) (today : Py.date) (ps : list Placement)
  : list (nat * (Q * Q) * Draw unit) :=
  flat_map
    (fun p =>
       match block p with
       | DiagramPanel f => [(pageIndex p, origin p, Flowable.draw lib today f)]
       | _ => []
       end) ps.

End Layout.

(** ** The stories: what [build_pdf] appends before [doc.build(story)] *)

Module Story.
Import Py RL Platypus Layout.
Local Open Scope Q_scope.

(** generate-storage-report.py, cover: the title lines, among them the
    line that prints [datetime.now()]. *)
Definition storage_cover (today : date) : list ContentBlock :=
  [ Spacer 1 (1.4 * cm);
    Paragraph (mkParagraph "OmniFolio" Storage.title_style);
    Paragraph (mkParagraph "Database &amp; Storage Analysis Report" Storage.subtitle_style);
    Paragraph (mkParagraph ("Generated: " ++ strftime_B_d_Y today)%string
                           Storage.subtitle_style);
    Spacer 1 (0.3 * cm) ].

(** generate-storage-report.py, section 1: the heading kept together with
    its first paragraph. *)
Definition storage_section_1 : ContentBlock :=
  KeepTogetherGroup
    [ Paragraph (mkParagraph "1. SEC EDGAR Data" Storage.section_style);
      Paragraph (mkParagraph
        ("Data sourced from SEC EDGAR (XBRL financials, Form 4 insider transactions, 13F institutional "
         ++ "holdings, filing text). Shared across all users — grows only when more symbols are tracked, "
         ++ "not with user count.")%string
        Storage.body_style) ].

(** generate-omnifolio-pdf.py, page 1: the hero header and the spacer
    under it. *)
Definition omnifolio_opening : list ContentBlock :=
  [ DiagramPanel (Flowable.HeroHeader (Omnifolio.HeroHeader.mk Omnifolio.W 200));
    Spacer 1 18 ].

End Story.

(** ** The same operations on the machine's doubles *)

Module Hardware.
Import Py.

(** A machine double as a value of [Float64.t]. *)
Definition to_model (f : float) : Float64.t :=
  match Prim2SF f with
  | S754_zero _ => Float64.Fin 0
  | S754_finite s m e =>
      Float64.Fin (Qred ((if s then - inject_Z (Zpos m) else inject_Z (Zpos m))
                         * Float64.pow2 e))
  | S754_infinity s => Float64.Inf s
  | S754_nan => Float64.NaN
  end.

(** Whether two values of [Float64.t] are the same double. *)
Definition same (a b : Float64.t) : bool :=
  match a, b with
  | Float64.Fin x, Float64.Fin y => Qeq_bool x y
  | Float64.Inf s, Float64.Inf s' => Bool.eqb s s'
  | Float64.NaN, Float64.NaN => true
  | _, _ => false
  end.

(** Whether [model] gives on [x] and [y] what the machine operation
    [machine] gives. *)
Definition agree (machine : float -> float -> float)
           (model : Float64.t -> Float64.t -> Float64.t) (xy : float * float) : bool :=
  same (to_model (machine (fst xy) (snd xy))) (model (to_model (fst xy)) (to_model (snd xy))).

(** [float(n)] for an integer [n]: the nearest double, ties to even. *)
Definition of_int (n : Z) : result float :=
  let f := SF2Prim (binary_normalize prec emax n 0 false) in
  if PrimFloat.is_infinity f then Raise OverflowError else Ok f.

(** [int(f)] for a double [f]: truncation toward zero. *)
Definition to_int (f : float) : result Z :=
  match Prim2SF f with
  | S754_zero _ => Ok 0%Z
  | S754_finite s mant e =>
      let mag := if (0 <=? e)%Z
                 then Z.shiftl (Zpos mant) e
                 else Z.shiftr (Zpos mant) (- e) in
      Ok (if s then (- mag)%Z else mag)
  | S754_infinity _ => Raise OverflowError
  | S754_nan => Raise ValueError
  end.

(** The double written [1.8] in the script. *)
Definition one_point_eight : float := 0x1.ccccccccccccdp+0%float.

(** [int(score * 1.8)] for a float [score]. *)
Definition angle_of_float (score : float) : result Z :=
  to_int (PrimFloat.mul score one_point_eight).

(** [int(score * 1.8)] for an integer [score]. *)
Definition angle (score : Z) : result Z :=
  match of_int score with
  | Ok f => angle_of_float f
  | Raise e => Raise e
  end.

(** [(weight / total) * width - 1], the drawn width of a bar segment, on
    doubles. *)
Definition segment_width (weight total width : float) : float :=
  PrimFloat.sub (PrimFloat.mul (PrimFloat.div weight total) width) 1%float.

(** Pairs of doubles the operations are compared on: ordinary values,
    ties, subnormals, values that overflow, infinities and a nan. *)
Definition samples : list (float * float) :=
  [ (0x1.999999999999ap-4, 0x1.999999999999ap-3);
    (0x1.3333333333334p-2, (-0x1.3333333333333p-2));
    (0x1.1c37937e08000p+53, 0x1.0000000000000p+0);
    (0x1.7555555555555p+5, 0x1.ccccccccccccdp+0);
    (0x1.28f5c28f5c28fp-2, 0x1.9000000000000p+6);
    (0x1.0000000000000p-2, 0x1.0000000000000p+2);
    (0x1.0000000000000p+0, 0x1.8000000000000p+1);
    (0x1.0000000000000p+1, 0x1.8000000000000p+1);
    ((-0x1.c000000000000p+2), 0x1.3333333333333p-2);
    (0x1.0000000000000p+53, 0x1.0000000000000p+0);
    (0x1.0000000000001p+53, 0x1.0000000000000p+0);
    (0x1.fffffffffffffp+1023, 0x1.0000000000000p+970);
    (0x1.fffffffffffffp+1023, 0x1.fffffffffffffp+1023);
    (0x1.1ccf385ebc8a0p+1023, 0x1.4000000000000p+3);
    (0x1.1ccf385ebc8a0p+1023, 0x0.00000000007e8p-1022);
    (0x0.0000000000001p-1022, 0x0.0000000000001p-1022);
    (0x0.0000000000001p-1022, 0x1.0000000000000p-1);
    (0x0.0000000000003p-1022, 0x1.0000000000000p-1);
    (0x0.0000000000003p-1022, 0x1.0000000000000p-2);
    (0x1.87e92154ef7acp-665, 0x1.87e92154ef7acp-665);
    (0x1.67e9c127b6e74p-532, 0x1.d7becc2f23ac2p-549);
    (0x1.8000000000000p+1, 0x0.00000000007e8p-1022);
    (0x1.5555555555555p-1, 0x1.5555555555555p-1);
    (0x1.fffffffffffffp-1, 0x1.0000000000001p+0);
    (0x1.d6f3454800000p+26, 0x1.999999999999ap-4);
    ((-0x1.8000000000000p+0), 0x1.8000000000000p+0); (0x0.0p+0, 0x1.4000000000000p+2);
    (0x1.921fb54442d18p+1, 0x1.5bf0a8b145769p+1);
    (0x1.0f0cf064dd592p+73, 0x1.e392010175ee6p-74);
    (0x1.999999999999ap-4, 0x1.8000000000000p+1);
    (0x1.9000000000000p+6, 0x1.ccccccccccccdp+0);
    (0x1.0800000000000p+5, 0x1.ccccccccccccdp+0);
    (0x1.1c71c71c71c72p-1, 0x1.ccccccccccccdp+0);
    (0x1.1c71c71c71c71p-1, 0x1.ccccccccccccdp+0);
    (0x1.0000000000000p-1022, 0x1.0000000000000p-1);
    (0x0.fffffffffffffp-1022, 0x1.0000000000000p+1);
    (0x1.fffffffffffffp-1022, 0x1.3333333333333p-2);
    (0x1.0000000000000p+53, 0x1.999999999999ap-4);
    (0x1.7e43c8800759cp+996, 0x1.7e43c8800759cp+996);
    ((-0x1.7e43c8800759cp+996), 0x1.2a05f20000000p+33); (0x1.4p+2, infinity);
    (infinity, neg_infinity); (infinity, infinity); (neg_infinity, (-0x1p+1));
    (nan, 0x1p+0); (0x0p+0, infinity) ]%float.

End Hardware.

(** ** Reading a canvas log *)

Module Log.
Import RL.

(** Sweep of every [arc] call, in order. *)
Definition arc_extents (l : list op) : list Q :=
  flat_map (fun o => match o with arc _ _ _ _ _ e => [e] | _ => [] end) l.

(** [(x, y, w, h)] of every filled [roundRect], in order. *)
Definition filled_round_rects (l : list op) : list (Q * Q * Q * Q) :=
  flat_map (fun o => match o with
                     | roundRect x y w h _ true _ => [(x, y, w, h)]
                     | _ => []
                     end) l.

(** [(x, y, w, h)] of every [rect], in order. *)
Definition rects (l : list op) : list (Q * Q * Q * Q) :=
  flat_map (fun o => match o with rect x y w h _ _ => [(x, y, w, h)] | _ => [] end) l.

(** Every path drawn, in order. *)
Definition paths (l : list op) : list (list path_op) :=
  flat_map (fun o => match o with drawPath p _ _ => [p] | _ => [] end) l.

(** Every [line], in order. *)
Definition lines (l : list op) : list (Q * Q * Q * Q) :=
  flat_map (fun o => match o with line a b c d => [(a, b, c, d)] | _ => [] end) l.

(** Text of every [drawRightString], in order. *)
Definition right_strings (l : list op) : list string :=
  flat_map (fun o => match o with drawRightString _ _ s => [s] | _ => [] end) l.

(** A rectangle with every number in lowest terms. *)
Definition reduced (r : Q * Q * Q * Q) : Q * Q * Q * Q :=
let '(a, b, c, d) := r in (Qred a, Qred b, Qred c, Qred d).

(** [(x, y, text)] of every [drawString], in order. *)
Definition strings (l : list op) : list (Q * Q * string) :=
flat_map (fun o => match o with drawString x y s => [(x, y, s)] | _ => [] end) l.







End Log.

(** ** generate-storage-report.py: the cell text of the grand-summary table *)

Module Summary.

(** [s.lstrip("*")] *)
Fixpoint lstrip_star (s : string) : string :=
  match s with
  | EmptyString => EmptyString
  | String c s' => if Ascii.eqb c "*" then lstrip_star s' else s
  end.

(** [s.rstrip("*")] *)
Fixpoint rstrip_star (s : string) : string :=
  match s with
  | EmptyString => EmptyString
  | String c s' =>
      match rstrip_star s' with
      | EmptyString => if Ascii.eqb c "*" then EmptyString else String c EmptyString
      | String _ _ as r => String c r
      end
  end.

(** [s.strip("*")], the text [make_summary_table] gives a cell. *)
Definition strip_star (s : string) : string := rstrip_star (lstrip_star s).

(** A run of [n] asterisks. *)
Fixpoint stars (n : nat) : string :=
  match n with
  | O => EmptyString
  | S n' => String "*" (stars n')
  end.

End Summary.

(** ** Graphics state a canvas call relies on *)

Module GState.
Import RL.

(** What has been set on the canvas since the flowable started drawing. *)
Record t : Type := mk {
  fill_color : bool;
  stroke_color : bool;
  line_width : bool;
  font : bool
}.

Definition fresh : t := mk false false false false.

(** The state after one canvas call. *)
Definition after (s : t) (o : op) : t :=
  match o with
  | setFillColor _ | setFillColorRGB _ _ _ _ =>
      mk true (stroke_color s) (line_width s) (font s)
  | setStrokeColor _ => mk (fill_color s) true (line_width s) (font s)
  | setLineWidth _ => mk (fill_color s) (stroke_color s) true (font s)
  | setFont _ _ => mk (fill_color s) (stroke_color s) (line_width s) true
  | _ => s
  end.

Definition paint_ready (s : t) (fill stroke : bool) : bool :=
  (negb fill || fill_color s) && (negb stroke || (stroke_color s && line_width s)).

(** Whether everything a call paints with has been set. *)
Definition ready (s : t) (o : op) : bool :=
  match o with
  | rect _ _ _ _ fill stroke
  | roundRect _ _ _ _ _ fill stroke
  | circle _ _ _ fill stroke
  | drawPath _ fill stroke => paint_ready s fill stroke
  | line _ _ _ _ | arc _ _ _ _ _ _ => stroke_color s && line_width s
  | drawString _ _ _ | drawCentredString _ _ _ | drawRightString _ _ _ =>
      fill_color s && font s
  | _ => true
  end.

(** Every call of the log is ready when it is made, starting from [s]. *)
Fixpoint self_contained_from (s : t) (l : list op) : bool :=
  match l with
  | [] => true
  | o :: l' => ready s o && self_contained_from (after s o) l'
  end.

Definition self_contained (l : list op) : bool := self_contained_from fresh l.

(** [s1] has set at least what [s2] has. *)
Definition covers (s1 s2 : t) : bool :=
  (negb (fill_color s2) || fill_color s1)
  && (negb (stroke_color s2) || stroke_color s1)
  && (negb (line_width s2) || line_width s1)
  && (negb (font s2) || font s1).

End GState.

(** ** More readers of a canvas log *)

Module Shapes.
Import RL.

(** [(x1, y1, x2, y2)] of the box of every [arc] call, in order. *)
Definition arc_boxes (l : list op) : list (Q * Q * Q * Q) :=
  flat_map (fun o => match o with arc a b c d _ _ => [(a, b, c, d)] | _ => [] end) l.

(** The arguments of every [setFillColorRGB] call, in order. *)
Definition rgb_fills (l : list op) : list (Q * Q * Q * Q) :=
  flat_map (fun o => match o with setFillColorRGB r g b a => [(r, g, b, a)] | _ => [] end) l.

(** [(cx, cy, r)] of every [circle] call, in order. *)
Definition circles (l : list op) : list (Q * Q * Q) :=
  flat_map (fun o => match o with circle cx cy r _ _ => [(cx, cy, r)] | _ => [] end) l.

(** [(startAng, extent)] of every [arc] call, in order. *)
Definition arc_angles (l : list op) : list (Q * Q) :=
  flat_map (fun o => match o with arc _ _ _ _ s e => [(s, e)] | _ => [] end) l.

End Shapes.

(** ** A library for colours written [#RRGGBB] *)

Module Hex.
Import Py RL.

(** The value of a hexadecimal digit. *)
Definition digit (c : ascii) : option Z :=
  let n := Z.of_nat (nat_of_ascii c) in
  if (48 <=? n)%Z && (n <=? 57)%Z then Some (n - 48)%Z
  else if (97 <=? n)%Z && (n <=? 102)%Z then Some (n - 87)%Z
  else if (65 <=? n)%Z && (n <=? 70)%Z then Some (n - 55)%Z
  else None.

Fixpoint value_from (acc : Z) (s : string) : option Z :=
  match s with
  | EmptyString => Some acc
  | String c s' =>
      match digit c with
      | Some d => value_from (16 * acc + d) s'
      | None => None
      end
  end.

(** [int(s, 16)] for a string of hexadecimal digits; every other string
    is refused with ValueError (Python also reads a sign, a prefix and
    blanks, which the strings parsed here never have). *)
Definition int16 (s : string) : result Z :=
  match s with
  | EmptyString => Raise ValueError
  | String _ _ =>
      match value_from 0 s with
      | Some n => Ok n
      | None => Raise ValueError
      end
  end.

Definition lower (c : ascii) : ascii :=
  let n := nat_of_ascii c in
  if Nat.leb 65 n && Nat.leb n 90 then ascii_of_nat (n + 32) else c.

Fixpoint lowercase (s : string) : string :=
  match s with
  | EmptyString => EmptyString
  | String c s' => String (lower c) (lowercase s')
  end.

(** [Color.hexval()]: for a colour written [#RRGGBB], [0x] and the six
    digits in lower case. *)
Definition hexval (c : Color) : string :=
  match c with
  | HexColor h => ("0x" ++ lowercase (drop 1 h))%string
  | white => "0xffffff"%string
  | black => "0x000000"%string
  end.

End Hex.

(** A library that reads colours as ReportLab does; it measures no text
    and prints no number. *)
Definition hex_library : RL.Library :=
  RL.mkLibrary (fun _ _ _ => 0%Q) Hex.hexval Hex.int16 (fun _ => ""%string).

(** A stand-in for the library functions, used to run examples. *)
Definition sample_library : RL.Library :=
  RL.mkLibrary (fun _ _ _ => 0%Q) (fun _ => "0xa855f7"%string)
               (fun _ => Py.Ok 0%Z) (fun _ => ""%string).

(** Metrics and a page for running examples: every row is 20 high, the
    usable area is 480 x 80. *)
Definition sample_metrics : Layout.Metrics :=
  Layout.mkMetrics (fun _ _ => 12%Q) (fun _ _ => 10%Q) 10%Q 6%Q 0%Q.
Definition sample_page : Layout.PageGeometry :=
  Layout.mkGeometry 500 100 10 10 10 10.

(** ** Properties *)

Import Py RL.

(** *** Arithmetic of [int] *)

Lemma int_nonneg_bounds (x : Q) :
  (0 <= x)%Q ->
  (inject_Z (Py.int x) <= x)%Q /\ (x < inject_Z (Py.int x) + 1)%Q.
Proof.
  destruct x as [n d]. unfold Qle, Qlt, Py.int. cbn [Qnum Qden].
  intros Hn. rewrite Z.mul_1_r in Hn. cbn in Hn.
  rewrite Z.quot_div_nonneg by lia.
  pose proof (Z.div_mod n (Zpos d) ltac:(lia)) as Hdm.
  pose proof (Z.mod_pos_bound n (Zpos d) ltac:(lia)) as Hmod.
  split.
  - cbn. nia.
  - cbn. rewrite Z.mul_1_r. nia.
Qed.

Lemma int_of_integer (x : Q) (k : Z) :
  (0 <= x)%Q -> (x == inject_Z k)%Q -> Py.int x = k.
Proof.
  intros H0 Hk. destruct (int_nonneg_bounds H0) as [Hlo Hhi].
  assert (Hle : (inject_Z (Py.int x) <= inject_Z k)%Q).
  { apply Qle_trans with x; [exact Hlo | rewrite Hk; apply Qle_refl]. }
  assert (Hlt : (inject_Z k < inject_Z (Py.int x + 1))%Q).
  { rewrite inject_Z_plus. apply Qle_lt_trans with x; [rewrite Hk; apply Qle_refl | exact Hhi]. }
  rewrite <- Zle_Qle in Hle. rewrite <- Zlt_Qlt in Hlt. lia.
Qed.

Lemma int_of_nonneg (x : Q) : (0 <= x)%Q -> Py.int x = Qfloor x.
Proof.
  destruct x as [n d]. unfold Qle, Py.int, Qfloor. cbn [Qnum Qden].
  intros H. rewrite Z.mul_1_r in H. cbn in H. now apply Z.quot_div_nonneg.
Qed.

Lemma int_of_nonpos (x : Q) : (x <= 0)%Q -> Py.int x = Qceiling x.
Proof.
  destruct x as [n d]. unfold Qle, Py.int, Qceiling, Qfloor, Qopp. cbn [Qnum Qden].
  intros H. rewrite Z.mul_1_r in H. cbn in H.
  rewrite <- (Z.opp_involutive n) at 1.
  rewrite Z.quot_opp_l by lia. f_equal.
  apply Z.quot_div_nonneg; lia.
Qed.

Lemma int_monotone (x y : Q) : (x <= y)%Q -> (Py.int x <= Py.int y)%Z.
Proof.
  intros Hxy.
  destruct (Qlt_le_dec x 0) as [Hx | Hx], (Qlt_le_dec y 0) as [Hy | Hy].
  - rewrite !int_of_nonpos by lra. now apply Qceiling_resp_le.
  - rewrite (@int_of_nonpos x) by lra. rewrite (@int_of_nonneg y) by lra.
    apply Z.le_trans with 0%Z.
    + change 0%Z with (Qceiling 0). apply Qceiling_resp_le. lra.
    + change 0%Z with (Qfloor 0). now apply Qfloor_resp_le.
  - lra.
  - rewrite !int_of_nonneg by assumption. now apply Qfloor_resp_le.
Qed.

(** *** Arithmetic of binary64 rounding *)

Section Float64Facts.
Import Float64.
Local Open Scope Q_scope.
#[local] Unset Implicit Arguments.

Lemma pow2_pos (e : Z) : 0 < pow2 e.
Proof. apply Qpower_0_lt. reflexivity. Qed.

Lemma pow2_add (a b : Z) : pow2 (a + b) == pow2 a * pow2 b.
Proof. apply Qpower_plus. discriminate. Qed.

Lemma pow2_le (a b : Z) : (a <= b)%Z -> pow2 a <= pow2 b.
Proof. intros H. apply Qpower_le_compat_l; [exact H | discriminate]. Qed.

Lemma pow2_lt (a b : Z) : (a < b)%Z -> pow2 a < pow2 b.
Proof. intros H. apply Qpower_lt_compat_l; [exact H | reflexivity]. Qed.

Lemma pow2_le_inv (a b : Z) : pow2 a <= pow2 b -> (a <= b)%Z.
Proof. intros H. apply (Qpower_le_compat_l_inv 2); [exact H | reflexivity]. Qed.

Lemma pow2_lt_inv (a b : Z) : pow2 a < pow2 b -> (a < b)%Z.
Proof. intros H. apply (Qpower_lt_compat_l_inv 2); [exact H | reflexivity]. Qed.

Lemma pow2_int (k : Z) : (0 <= k)%Z -> pow2 k == inject_Z (2 ^ k).
Proof. intros H. unfold pow2. rewrite Zpower_Qpower by exact H. reflexivity. Qed.

Lemma pow2_sub (a b : Z) : pow2 (a - b) == pow2 a / pow2 b.
Proof.
  unfold Z.sub. rewrite pow2_add. unfold pow2 at 2. rewrite Qpower_opp. reflexivity.
Qed.

(** The binade of a positive number. *)
Lemma binade_spec (x : Q) :
  0 < x -> pow2 (binade x) <= x /\ x < pow2 (binade x + 1).
Proof.
  intros Hx. destruct x as [n d]. unfold Qlt in Hx. cbn in Hx.
  assert (Hn : (0 < n)%Z) by lia.
  unfold binade. cbn [Qnum Qden].
  set (a := Z.log2 n). set (b := Z.log2 (Zpos d)).
  destruct (Z.log2_spec n Hn) as [Ha1 Ha2]. fold a in Ha1, Ha2.
  destruct (Z.log2_spec (Zpos d) ltac:(lia)) as [Hb1 Hb2]. fold b in Hb1, Hb2.
  assert (Ha0 : (0 <= a)%Z) by apply Z.log2_nonneg.
  assert (Hb0 : (0 <= b)%Z) by apply Z.log2_nonneg.
  assert (Hnd : n # d == inject_Z n / inject_Z (Zpos d)).
  { rewrite Qmake_Qdiv. reflexivity. }
  assert (Hd0 : 0 < inject_Z (Zpos d)) by (unfold Qlt; cbn; lia).
  assert (Hpa : pow2 a <= inject_Z n).
  { rewrite pow2_int by lia. rewrite <- Zle_Qle. exact Ha1. }
  assert (Hpa' : inject_Z n < pow2 (a + 1)).
  { rewrite pow2_int by lia. rewrite <- Zlt_Qlt. replace (a + 1)%Z with (Z.succ a) by lia. exact Ha2. }
  assert (Hpb : pow2 b <= inject_Z (Zpos d)).
  { rewrite pow2_int by lia. rewrite <- Zle_Qle. exact Hb1. }
  assert (Hpb' : inject_Z (Zpos d) < pow2 (b + 1)).
  { rewrite pow2_int by lia. rewrite <- Zlt_Qlt. replace (b + 1)%Z with (Z.succ b) by lia. exact Hb2. }
  (* x < 2^(a-b+1) and 2^(a-b-1) < x *)
  assert (Hup : n # d < pow2 (a - b + 1)).
  { rewrite Hnd. apply Qlt_shift_div_r; [exact Hd0 |].
    apply Qlt_le_trans with (pow2 (a + 1)); [exact Hpa' |].
    replace (a + 1)%Z with ((a - b + 1) + b)%Z by lia. rewrite pow2_add.
    apply Qmult_le_l; [apply pow2_pos | exact Hpb]. }
  assert (Hlo : pow2 (a - b - 1) < n # d).
  { rewrite Hnd. apply Qlt_shift_div_l; [exact Hd0 |].
    apply Qlt_le_trans with (pow2 a); [| exact Hpa].
    replace a with ((a - b - 1) + (b + 1))%Z at 2 by lia. rewrite pow2_add.
    apply Qmult_lt_l; [apply pow2_pos | exact Hpb']. }
  destruct (Qle_bool (pow2 (a - b)) (n # d)) eqn:E.
  - apply Qle_bool_iff in E. split; assumption.
  - assert (Hlt : n # d < pow2 (a - b)).
    { apply Qnot_le_lt. intros H. apply Qle_bool_iff in H. congruence. }
    split; [apply Qlt_le_weak; exact Hlo |].
    replace (a - b - 1 + 1)%Z with (a - b)%Z by lia. exact Hlt.
Qed.

Lemma binade_unique (x : Q) (e : Z) :
  pow2 e <= x -> x < pow2 (e + 1) -> binade x = e.
Proof.
  intros Hlo Hhi.
  assert (Hx : 0 < x) by (apply Qlt_le_trans with (pow2 e); [apply pow2_pos | exact Hlo]).
  destruct (binade_spec x Hx) as [Blo Bhi].
  assert (H1 : (binade x < e + 1)%Z).
  { apply pow2_lt_inv. apply Qle_lt_trans with x; assumption. }
  assert (H2 : (e < binade x + 1)%Z).
  { apply pow2_lt_inv. apply Qle_lt_trans with x; assumption. }
  lia.
Qed.

Lemma binade_mono (x y : Q) : 0 < x -> x <= y -> (binade x <= binade y)%Z.
Proof.
  intros Hx Hxy.
  assert (Hy : 0 < y) by (apply Qlt_le_trans with x; assumption).
  destruct (binade_spec x Hx) as [Xlo Xhi].
  destruct (binade_spec y Hy) as [Ylo Yhi].
  assert (H : (binade x < binade y + 1)%Z).
  { apply pow2_lt_inv. apply Qle_lt_trans with x; [exact Xlo |].
    apply Qle_lt_trans with y; assumption. }
  lia.
Qed.

Lemma binade_eq (x y : Q) : 0 < x -> x == y -> binade x = binade y.
Proof.
  intros Hx Hxy.
  destruct (binade_spec x Hx) as [Xlo Xhi].
  symmetry. apply binade_unique.
  - rewrite <- Hxy. exact Xlo.
  - rewrite <- Hxy. exact Xhi.
Qed.

(** Rounding to the nearest integer, ties to even. *)

Lemma inject_Z_pred (a : Z) : inject_Z (a - 1) == inject_Z a - 1.
Proof. unfold Z.sub. rewrite inject_Z_plus. reflexivity. Qed.

Lemma inject_Z_succ (a : Z) : inject_Z (a + 1) == inject_Z a + 1.
Proof. rewrite inject_Z_plus. reflexivity. Qed.

Lemma Qfloor_unique (q : Q) (k : Z) :
  inject_Z k <= q -> q < inject_Z (k + 1) -> Qfloor q = k.
Proof.
  intros Hlo Hhi.
  pose proof (Qfloor_le q) as H1. pose proof (Qlt_floor q) as H2.
  assert (A : (Qfloor q < k + 1)%Z).
  { rewrite Zlt_Qlt. apply Qle_lt_trans with q; assumption. }
  assert (B : (k < Qfloor q + 1)%Z).
  { rewrite Zlt_Qlt. apply Qle_lt_trans with q; assumption. }
  lia.
Qed.

Lemma rne_cases (q : Q) :
  let f := Qfloor q in
  let r := q - inject_Z f in
  0 <= r /\ r < 1
  /\ ((r < 1 # 2 /\ rne q = f)
      \/ (1 # 2 < r /\ rne q = (f + 1)%Z)
      \/ (r == 1 # 2 /\ Z.even f = true /\ rne q = f)
      \/ (r == 1 # 2 /\ Z.even f = false /\ rne q = (f + 1)%Z)).
Proof.
  intros f r.
  pose proof (Qfloor_le q) as H1. pose proof (Qlt_floor q) as H2.
  fold f in H1, H2. rewrite inject_Z_plus in H2. change (inject_Z 1) with 1 in H2.
  assert (Hr0 : 0 <= r) by (unfold r; lra).
  assert (Hr1 : r < 1) by (unfold r; lra).
  split; [exact Hr0 |]. split; [exact Hr1 |].
  unfold rne. fold f. fold r.
  destruct (Qcompare_spec r (1 # 2)) as [E | L | G].
  - destruct (Z.even f) eqn:Ev.
    + right. right. left. auto.
    + right. right. right. auto.
  - left. auto.
  - right. left. auto.
Qed.

Lemma rne_mono (p q : Q) : p <= q -> (rne p <= rne q)%Z.
Proof.
  intros Hpq.
  pose proof (Qfloor_resp_le p q Hpq) as Hf.
  destruct (rne_cases p) as [P0 [P1 Pc]].
  destruct (rne_cases q) as [Q0 [Q1 Qc]].
  destruct (Z.eq_dec (Qfloor p) (Qfloor q)) as [E | NE].
  - rewrite E in *.
    assert (Hr : p - inject_Z (Qfloor q) <= q - inject_Z (Qfloor q)) by lra.
    destruct Pc as [[Pa Pb] | [[Pa Pb] | [[Pa [Pe Pb]] | [Pa [Pe Pb]]]]];
    destruct Qc as [[Qa Qb] | [[Qa Qb] | [[Qa [Qe Qb]] | [Qa [Qe Qb]]]]];
      rewrite Pb, Qb; try lia; try (exfalso; lra); try congruence.
  - assert (Hlt : (Qfloor p + 1 <= Qfloor q)%Z) by lia.
    destruct Pc as [[Pa Pb] | [[Pa Pb] | [[Pa [Pe Pb]] | [Pa [Pe Pb]]]]];
    destruct Qc as [[Qa Qb] | [[Qa Qb] | [[Qa [Qe Qb]] | [Qa [Qe Qb]]]]];
      rewrite Pb, Qb; lia.
Qed.

Lemma rne_int (k : Z) : rne (inject_Z k) = k.
Proof.
  destruct (rne_cases (inject_Z k)) as [_ [_ Hc]].
  rewrite Qfloor_Z in Hc.
  assert (Hz : inject_Z k - inject_Z k == 0) by ring.
  destruct Hc as [[Pa Pb] | [[Pa Pb] | [[Pa [Pe Pb]] | [Pa [Pe Pb]]]]];
    try exact Pb; exfalso; rewrite Hz in Pa; lra.
Qed.

Lemma rne_eq (p q : Q) : p == q -> rne p = rne q.
Proof.
  intros H. apply Z.le_antisymm; apply rne_mono; rewrite H; apply Qle_refl.
Qed.

Lemma rne_err (q : Q) : Qabs (inject_Z (rne q) - q) <= 1 # 2.
Proof.
  destruct (rne_cases q) as [Q0 [Q1 Qc]].
  apply Qabs_Qle_condition.
  destruct Qc as [[Qa Qb] | [[Qa Qb] | [[Qa [Qe Qb]] | [Qa [Qe Qb]]]]];
    rewrite Qb; try rewrite inject_Z_plus; change (inject_Z 1) with 1; lra.
Qed.

Lemma rne_opp (q : Q) : rne (- q) = (- rne q)%Z.
Proof.
  destruct (rne_cases q) as [Q0 [Q1 Qc]].
  set (f := Qfloor q) in *. set (r := q - inject_Z f) in *.
  assert (Hq : q == inject_Z f + r) by (unfold r; ring).
  destruct (Qeq_dec r 0) as [Hr0 | Hr0].
  - assert (Hqf : q == inject_Z f) by lra.
    rewrite (rne_eq q (inject_Z f) Hqf), rne_int.
    assert (Hn : - q == inject_Z (- f)) by (rewrite inject_Z_opp; lra).
    rewrite (rne_eq _ _ Hn), rne_int. reflexivity.
  - assert (Hrpos : 0 < r) by (apply Qle_lt_or_eq in Q0; destruct Q0 as [L | E]; [exact L | exfalso; apply Hr0; symmetry; exact E]).
    assert (Hfl : Qfloor (- q) = (- f - 1)%Z).
    { apply Qfloor_unique.
      - rewrite inject_Z_pred, inject_Z_opp. lra.
      - replace (- f - 1 + 1)%Z with (- f)%Z by lia. rewrite inject_Z_opp. lra. }
    destruct (rne_cases (- q)) as [N0 [N1 Nc]]. rewrite Hfl in Nc, N0, N1.
    assert (Hr' : - q - inject_Z (- f - 1) == 1 - r).
    { rewrite inject_Z_pred, inject_Z_opp. lra. }
    assert (Hev : Z.even (- f - 1) = negb (Z.even f)).
    { replace (- f - 1)%Z with (- (f + 1))%Z by lia.
      rewrite Z.even_opp, Z.even_add. cbn. destruct (Z.even f); reflexivity. }
    rewrite Hev in Nc.
    destruct Qc as [[Qa Qb] | [[Qa Qb] | [[Qa [Qe Qb]] | [Qa [Qe Qb]]]]];
    destruct Nc as [[Na Nb] | [[Na Nb] | [[Na [Ne Nb]] | [Na [Ne Nb]]]]];
      rewrite Qb, Nb; try lia; try (exfalso; rewrite Hr' in Na; lra);
      try (rewrite Qe in Ne; discriminate Ne).
Qed.

(** Rounding to the nearest double. *)

Lemma ulp_pos (x : Q) : 0 < ulp x.
Proof. apply pow2_pos. Qed.

Lemma round_zero (x : Q) : x == 0 -> round x = 0.
Proof. intros H. unfold round. apply Qeq_bool_iff in H. now rewrite H. Qed.

Lemma round_nonzero (x : Q) :
  ~ x == 0 -> round x == inject_Z (rne (x / ulp x)) * ulp x.
Proof.
  intros H. unfold round.
  destruct (Qeq_bool x 0) eqn:E; [apply Qeq_bool_iff in E; contradiction |].
  apply Qred_correct.
Qed.

Lemma ulp_exp_pos (x : Q) : 0 < x -> ulp_exp x = Z.max (binade x - 52) (-1074).
Proof.
  intros Hx. unfold ulp_exp. f_equal. f_equal.
  apply binade_eq.
  - apply Qlt_le_trans with x; [exact Hx | apply Qle_Qabs].
  - apply Qabs_pos. apply Qlt_le_weak. exact Hx.
Qed.

Lemma ulp_exp_opp (x : Q) : ~ x == 0 -> ulp_exp (- x) = ulp_exp x.
Proof.
  intros Hx. unfold ulp_exp. f_equal. f_equal.
  apply binade_eq; [| apply Qabs_opp].
  assert (H : 0 <= Qabs (- x)) by apply Qabs_nonneg.
  apply Qle_lt_or_eq in H. destruct H as [H | H]; [exact H |].
  exfalso. apply Hx. rewrite Qabs_opp in H.
  destruct (Qabs_Qle_condition x 0) as [Hc _].
  assert (Hle : Qabs x <= 0) by (rewrite <- H; apply Qle_refl).
  specialize (Hc Hle). lra.
Qed.

Lemma ulp_exp_eq (x y : Q) : ~ x == 0 -> x == y -> ulp_exp x = ulp_exp y.
Proof.
  intros Hx Hxy. unfold ulp_exp. f_equal. f_equal.
  apply binade_eq.
  - assert (H : 0 <= Qabs x) by apply Qabs_nonneg.
    apply Qle_lt_or_eq in H. destruct H as [H | H]; [exact H |].
    exfalso. apply Hx.
    destruct (Qabs_Qle_condition x 0) as [Hc _].
    assert (Hle : Qabs x <= 0) by (rewrite <- H; apply Qle_refl).
    specialize (Hc Hle). lra.
  - now rewrite Hxy.
Qed.

Lemma round_eq (x y : Q) : x == y -> round x == round y.
Proof.
  intros Hxy. destruct (Qeq_dec x 0) as [Hx | Hx].
  - rewrite (round_zero x Hx), (round_zero y); [reflexivity | now rewrite <- Hxy].
  - assert (Hy : ~ y == 0) by (now rewrite <- Hxy).
    rewrite (round_nonzero x Hx), (round_nonzero y Hy).
    unfold ulp. rewrite (ulp_exp_eq x y Hx Hxy).
    rewrite (rne_eq (x / pow2 (ulp_exp y)) (y / pow2 (ulp_exp y))); [reflexivity |].
    now rewrite Hxy.
Qed.

Lemma round_opp (x : Q) : round (- x) == - round x.
Proof.
  destruct (Qeq_dec x 0) as [Hx | Hx].
  - rewrite (round_zero x Hx), (round_zero (- x)); [reflexivity | lra].
  - assert (Hn : ~ - x == 0) by lra.
    rewrite (round_nonzero x Hx), (round_nonzero (- x) Hn).
    unfold ulp. rewrite (ulp_exp_opp x Hx).
    rewrite (rne_eq (- x / pow2 (ulp_exp x)) (- (x / pow2 (ulp_exp x)))).
    + rewrite rne_opp, inject_Z_opp. ring.
    + unfold Qdiv. ring.
Qed.

Lemma div_le_div (x y u : Q) : 0 < u -> x <= y -> x / u <= y / u.
Proof.
  intros Hu Hxy. unfold Qdiv. apply Qmult_le_compat_r; [exact Hxy |].
  apply Qinv_le_0_compat. apply Qlt_le_weak. exact Hu.
Qed.

Lemma round_nonneg (x : Q) : 0 <= x -> 0 <= round x.
Proof.
  intros Hx. destruct (Qeq_dec x 0) as [Hz | Hz].
  - rewrite (round_zero x Hz). apply Qle_refl.
  - rewrite (round_nonzero x Hz).
    apply Qmult_le_0_compat; [| apply Qlt_le_weak, ulp_pos].
    change 0 with (inject_Z 0). rewrite <- Zle_Qle.
    rewrite <- (rne_int 0). apply rne_mono.
    apply Qle_shift_div_l; [apply ulp_pos |]. change (inject_Z 0) with 0. lra.
Qed.

(** A multiple of the spacing is left alone. *)
Lemma round_grid_le (x : Q) (k : Z) :
  ~ x == 0 -> x <= inject_Z k * ulp x -> round x <= inject_Z k * ulp x.
Proof.
  intros Hx H. rewrite (round_nonzero x Hx).
  apply Qmult_le_compat_r; [| apply Qlt_le_weak, ulp_pos].
  rewrite <- Zle_Qle. rewrite <- (rne_int k). apply rne_mono.
  apply Qle_shift_div_r; [apply ulp_pos | exact H].
Qed.

Lemma round_grid_ge (x : Q) (k : Z) :
  ~ x == 0 -> inject_Z k * ulp x <= x -> inject_Z k * ulp x <= round x.
Proof.
  intros Hx H. rewrite (round_nonzero x Hx).
  apply Qmult_le_compat_r; [| apply Qlt_le_weak, ulp_pos].
  rewrite <- Zle_Qle. rewrite <- (rne_int k) at 1. apply rne_mono.
  apply Qle_shift_div_l; [apply ulp_pos | exact H].
Qed.

Lemma round_mono_pos (x y : Q) : 0 < x -> x <= y -> round x <= round y.
Proof.
  intros Hx Hxy.
  assert (Hy : 0 < y) by (apply Qlt_le_trans with x; assumption).
  assert (Hx0 : ~ x == 0) by lra. assert (Hy0 : ~ y == 0) by lra.
  pose proof (binade_mono x y Hx Hxy) as Hb.
  pose proof (ulp_exp_pos x Hx) as Ex. pose proof (ulp_exp_pos y Hy) as Ey.
  destruct (binade_spec x Hx) as [Xlo Xhi].
  destruct (binade_spec y Hy) as [Ylo Yhi].
  destruct (Z.eq_dec (ulp_exp x) (ulp_exp y)) as [E | NE].
  - rewrite (round_nonzero x Hx0), (round_nonzero y Hy0). unfold ulp. rewrite E.
    apply Qmult_le_compat_r; [| apply Qlt_le_weak, pow2_pos].
    rewrite <- Zle_Qle. apply rne_mono. apply div_le_div; [apply pow2_pos | exact Hxy].
  - assert (Hlt : (ulp_exp x < ulp_exp y)%Z) by lia.
    assert (Eyv : ulp_exp y = (binade y - 52)%Z) by lia.
    assert (Hbxy : (binade x + 1 <= binade y)%Z) by lia.
    apply Qle_trans with (pow2 (binade y)).
    + (* round x <= 2^(binade y) *)
      assert (HB : pow2 (binade y) == inject_Z (2 ^ (binade y - ulp_exp x)) * ulp x).
      { rewrite <- pow2_int by lia. unfold ulp. rewrite <- pow2_add.
        replace (binade y - ulp_exp x + ulp_exp x)%Z with (binade y) by lia. reflexivity. }
      rewrite HB. apply round_grid_le; [exact Hx0 |]. rewrite <- HB.
      apply Qle_trans with (pow2 (binade x + 1)); [apply Qlt_le_weak; exact Xhi |].
      apply pow2_le. exact Hbxy.
    + assert (HB : pow2 (binade y) == inject_Z (2 ^ 52) * ulp y).
      { rewrite <- pow2_int by lia. unfold ulp. rewrite <- pow2_add.
        replace (52 + ulp_exp y)%Z with (binade y) by lia. reflexivity. }
      rewrite HB. apply round_grid_ge; [exact Hy0 |]. rewrite <- HB. exact Ylo.
Qed.

Lemma round_mono (x y : Q) : x <= y -> round x <= round y.
Proof.
  intros Hxy.
  destruct (Qlt_le_dec 0 x) as [Hx | Hx].
  - apply round_mono_pos; assumption.
  - destruct (Qlt_le_dec y 0) as [Hy | Hy].
    + (* both negative *)
      assert (H : round (- y) <= round (- x)) by (apply round_mono_pos; lra).
      rewrite !round_opp in H. lra.
    + apply Qle_trans with 0.
      * assert (H : 0 <= round (- x)) by (apply round_nonneg; lra).
        rewrite round_opp in H. lra.
      * apply round_nonneg. exact Hy.
Qed.

(** The error of one rounding is at most half the spacing. *)
Lemma round_err (x : Q) : Qabs (round x - x) <= ulp x / 2.
Proof.
  destruct (Qeq_dec x 0) as [Hx | Hx].
  - rewrite (round_zero x Hx).
    assert (H : 0 - x == 0) by lra. rewrite H. cbn.
    apply Qle_shift_div_l; [reflexivity |]. pose proof (ulp_pos x). lra.
  - pose proof (rne_err (x / ulp x)) as He.
    pose proof (ulp_pos x) as Hu.
    apply Qabs_Qle_condition in He. apply Qabs_Qle_condition.
    rewrite (round_nonzero x Hx).
    set (k := inject_Z (rne (x / ulp x))) in *.
    assert (Hd : x / ulp x * ulp x == x) by (field; lra).
    assert (Hh : ulp x / 2 == (1 # 2) * ulp x) by (field).
    rewrite Hh. destruct He as [He1 He2].
    split.
    + assert (A : (-(1#2)) * ulp x <= (k - x / ulp x) * ulp x).
      { apply Qmult_le_compat_r; [exact He1 | lra]. }
      lra.
    + assert (A : (k - x / ulp x) * ulp x <= (1#2) * ulp x).
      { apply Qmult_le_compat_r; [exact He2 | lra]. }
      lra.
Qed.

Lemma Qabs_pos_nonzero (x : Q) : ~ x == 0 -> 0 < Qabs x.
Proof.
  intros Hx. assert (H : 0 <= Qabs x) by apply Qabs_nonneg.
  apply Qle_lt_or_eq in H. destruct H as [H | H]; [exact H |].
  exfalso. apply Hx.
  destruct (Qabs_Qle_condition x 0) as [Hc _].
  assert (Hle : Qabs x <= 0) by (rewrite <- H; apply Qle_refl).
  specialize (Hc Hle). lra.
Qed.

Lemma ulp_bound (x : Q) (e : Z) :
  ~ x == 0 -> (-1022 <= e)%Z -> Qabs x < pow2 (e + 1) -> ulp x <= pow2 (e - 52).
Proof.
  intros Hx He Hlt. unfold ulp. apply pow2_le. unfold ulp_exp.
  pose proof (Qabs_pos_nonzero x Hx) as Hpos.
  destruct (binade_spec (Qabs x) Hpos) as [Blo _].
  assert (Hb : (binade (Qabs x) < e + 1)%Z).
  { apply pow2_lt_inv. apply Qle_lt_trans with (Qabs x); assumption. }
  lia.
Qed.

(** One rounding of a number below [2^(e+1)] in magnitude is off by at
    most [2^(e-53)]. *)
Lemma round_err_bound (x : Q) (e : Z) :
  (-1022 <= e)%Z -> Qabs x < pow2 (e + 1) -> Qabs (round x - x) <= pow2 (e - 53).
Proof.
  intros He Hlt. destruct (Qeq_dec x 0) as [Hx | Hx].
  - rewrite (round_zero x Hx).
    assert (H : 0 - x == 0) by lra. rewrite H. cbn.
    apply Qlt_le_weak, pow2_pos.
  - apply Qle_trans with (ulp x / 2); [apply round_err |].
    assert (Hh : pow2 (e - 53) == pow2 (e - 52) / 2).
    { replace (e - 53)%Z with (e - 52 - 1)%Z by lia. rewrite pow2_sub. reflexivity. }
    rewrite Hh. apply div_le_div; [reflexivity |].
    apply ulp_bound; assumption.
Qed.

End Float64Facts.

(** *** The rounding against the machine's doubles *)

(** On the sample pairs the machine's addition, multiplication and
    division give what [Float64] gives. *)
Lemma Hardware_operations_agree :
  forallb (Hardware.agree PrimFloat.add Float64.add) Hardware.samples = true
  /\ forallb (Hardware.agree PrimFloat.mul Float64.mul) Hardware.samples = true
  /\ forallb (Hardware.agree PrimFloat.div Float64.div) Hardware.samples = true.
Proof. repeat split; vm_compute; reflexivity. Qed.

(** [float(n)] agrees as well, at ties and at the edge of the range. *)
Lemma Hardware_of_int_agrees :
  forallb (fun n => match Hardware.of_int n, Num.float_of_int n with
                    | Ok f, Ok x => Hardware.same (Hardware.to_model f) x
                    | Raise OverflowError, Raise OverflowError => true
                    | _, _ => false
                    end)
          [0; 1; -1; 100; 2 ^ 53; 2 ^ 53 + 1; 2 ^ 53 + 3; - (2 ^ 54 + 2); 10 ^ 22; 10 ^ 23;
           2 ^ 1024 - 2 ^ 970 - 1; 2 ^ 1024 - 2 ^ 970; 2 ^ 1024; 10 ^ 400; - 10 ^ 400]%Z
  = true.
Proof. vm_compute. reflexivity. Qed.

(** *** ScoreGauge *)

Section ScoreGaugeFacts.
Import Omnifolio.
Local Open Scope Q_scope.

Lemma one_point_eight_bounds :
  1.8 < ScoreGauge.one_point_eight
  /\ ScoreGauge.one_point_eight < 1.8 + (1 # 10000000000000000).
Proof. split; vm_compute; reflexivity. Qed.

Lemma ScoreGauge_product_monotone (g1 g2 : ScoreGauge.t) :
  ScoreGauge.score g1 <= ScoreGauge.score g2 ->
  ScoreGauge.product g1 <= ScoreGauge.product g2.
Proof.
  intros H. unfold ScoreGauge.product. apply round_mono.
  apply Qmult_le_compat_r; [apply round_mono; exact H |].
  destruct one_point_eight_bounds as [Hc _]. lra.
Qed.

Lemma ScoreGauge_angle_monotone (g1 g2 : ScoreGauge.t) :
  ScoreGauge.score g1 <= ScoreGauge.score g2 ->
  (ScoreGauge.angle g1 <= ScoreGauge.angle g2)%Z.
Proof.
  intros H. unfold ScoreGauge.angle. apply int_monotone.
  apply ScoreGauge_product_monotone. exact H.
Qed.

Lemma ScoreGauge_angle_eq (g1 g2 : ScoreGauge.t) :
  ScoreGauge.score g1 == ScoreGauge.score g2 ->
  ScoreGauge.angle g1 = ScoreGauge.angle g2.
Proof.
  intros H. apply Z.le_antisymm; apply ScoreGauge_angle_monotone; rewrite H; apply Qle_refl.
Qed.

Lemma in_range_of_bound (x b : Q) :
  Qabs x <= b -> b < Float64.pow2 1024 -> Float64.in_range x = true.
Proof.
  intros Hx Hb. unfold Float64.in_range. apply negb_true_iff.
  destruct (Qle_bool (Float64.pow2 1024) (Qabs x)) eqn:E; [| reflexivity].
  apply Qle_bool_iff in E. exfalso. lra.
Qed.

Lemma ScoreGauge_in_range (self : ScoreGauge.t) :
  0 <= ScoreGauge.score self -> ScoreGauge.score self <= 100 ->
  0 <= Float64.round (ScoreGauge.score self) <= 100
  /\ 0 <= ScoreGauge.product self <= 180
  /\ ScoreGauge.sweep self = Ok (ScoreGauge.angle self).
Proof.
  intros Hlo Hhi.
  assert (Hr : 0 <= Float64.round (ScoreGauge.score self) <= 100).
  { split.
    - apply round_nonneg. exact Hlo.
    - apply Qle_trans with (Float64.round 100); [apply round_mono; exact Hhi |].
      vm_compute. discriminate. }
  assert (Hp : 0 <= ScoreGauge.product self <= 180).
  { split.
    - unfold ScoreGauge.product. apply round_nonneg.
      apply Qmult_le_0_compat; [apply Hr |].
      destruct one_point_eight_bounds as [Hc _]. lra.
    - apply Qle_trans with (ScoreGauge.product (ScoreGauge.mk 100 "" white 0)).
      + apply ScoreGauge_product_monotone. exact Hhi.
      + vm_compute. discriminate. }
  split; [exact Hr |]. split; [exact Hp |].
  assert (H1024 : 180 < Float64.pow2 1024) by (vm_compute; reflexivity).
  unfold ScoreGauge.sweep.
  rewrite (@in_range_of_bound (Float64.round (ScoreGauge.score self)) 180),
          (@in_range_of_bound (ScoreGauge.product self) 180); try exact H1024.
  - reflexivity.
  - apply Qabs_Qle_condition. destruct Hp. split; lra.
  - apply Qabs_Qle_condition. destruct Hr. split; lra.
Qed.

Lemma ScoreGauge_arcs (lib : Library) (self : ScoreGauge.t) :
  Log.arc_extents (log (ScoreGauge.draw lib self)) =
  match ScoreGauge.sweep self with
  | Ok a => if (0 <? a)%Z then [180; inject_Z a] else [180]
  | Raise _ => [180]
  end.
Proof.
  unfold ScoreGauge.draw.
  destruct (ScoreGauge.sweep self) as [a | e]; [| reflexivity].
  destruct (0 <? a)%Z eqn:E; cbn; rewrite E; reflexivity.
Qed.

Lemma ScoreGauge_outcome (lib : Library) (self : ScoreGauge.t) :
  outcome (ScoreGauge.draw lib self) =
  match ScoreGauge.sweep self with
  | Ok _ => Ok tt
  | Raise e => Raise e
  end.
Proof.
  unfold ScoreGauge.draw.
  destruct (ScoreGauge.sweep self) as [a | e]; [| reflexivity].
  destruct (0 <? a)%Z eqn:E; cbn; rewrite E; reflexivity.
Qed.

Lemma ScoreGauge_sweep_cases (self : ScoreGauge.t) :
  ScoreGauge.sweep self = Ok (ScoreGauge.angle self)
  \/ ScoreGauge.sweep self = Raise OverflowError.
Proof.
  unfold ScoreGauge.sweep.
  destruct (Float64.in_range _ && Float64.in_range _); [now left | now right].
Qed.

Lemma ScoreGauge_angle_range (self : ScoreGauge.t) :
  0 <= ScoreGauge.score self -> ScoreGauge.score self <= 100 ->
  (0 <= ScoreGauge.angle self <= 180)%Z.
Proof.
  intros Hlo Hhi. split.
  - change 0%Z with (ScoreGauge.angle (ScoreGauge.mk 0 "" white 0)).
    apply ScoreGauge_angle_monotone. exact Hlo.
  - change 180%Z with (ScoreGauge.angle (ScoreGauge.mk 100 "" white 0)).
    apply ScoreGauge_angle_monotone. exact Hhi.
Qed.

(** The product is within 5e-14 of score x 1.8 for a score in [0,100]. *)
Lemma ScoreGauge_product_accuracy (self : ScoreGauge.t) :
  0 <= ScoreGauge.score self -> ScoreGauge.score self <= 100 ->
  Qabs (ScoreGauge.product self - ScoreGauge.score self * 1.8) <= 1 # 20000000000000.
Proof.
  intros Hlo Hhi.
  destruct (ScoreGauge_in_range self Hlo Hhi) as [[Hr0 Hr1] _].
  assert (Hc : ScoreGauge.one_point_eight == 8106479329266893 # 4503599627370496)
    by (vm_compute; reflexivity).
  assert (E1 : Qabs (Float64.round (ScoreGauge.score self) - ScoreGauge.score self)
               <= Float64.pow2 (6 - 53)).
  { apply round_err_bound; [lia |].
    apply Qle_lt_trans with 100; [| vm_compute; reflexivity].
    apply Qabs_Qle_condition. split; lra. }
  unfold ScoreGauge.product in *.
  set (s := ScoreGauge.score self) in *.
  set (rs := Float64.round s) in *.
  assert (Hy : rs * ScoreGauge.one_point_eight == rs * (8106479329266893 # 4503599627370496))
    by (rewrite Hc; reflexivity).
  assert (E2 : Qabs (Float64.round (rs * ScoreGauge.one_point_eight)
                     - rs * ScoreGauge.one_point_eight)
               <= Float64.pow2 (7 - 53)).
  { apply round_err_bound; [lia |].
    apply Qle_lt_trans with 200; [| vm_compute; reflexivity].
    apply Qabs_Qle_condition. rewrite Hy. split; lra. }
  set (p := Float64.round (rs * ScoreGauge.one_point_eight)) in *.
  assert (P1 : Float64.pow2 (6 - 53) == 1 # 140737488355328) by (vm_compute; reflexivity).
  assert (P2 : Float64.pow2 (7 - 53) == 1 # 70368744177664) by (vm_compute; reflexivity).
  rewrite P1 in E1. rewrite P2 in E2. rewrite Hy in E2.
  apply Qabs_Qle_condition in E1. apply Qabs_Qle_condition in E2.
  apply Qabs_Qle_condition. destruct E1, E2. split; lra.
Qed.

(** For integer scores from 0 to 100 the sweep is the integer part of
    score x 1.8. *)
Lemma ScoreGauge_integer_scores (self : ScoreGauge.t) (n : Z) :
  (0 <= n <= 100)%Z -> ScoreGauge.score self == inject_Z n ->
  ScoreGauge.angle self = (9 * n / 5)%Z.
Proof.
  intros Hn Hs.
  rewrite (@ScoreGauge_angle_eq self (ScoreGauge.mk (inject_Z n) "" white 0) Hs).
  assert (Hall : forallb
            (fun k => (ScoreGauge.angle (ScoreGauge.mk (inject_Z k) "" white 0)
                       =? 9 * k / 5)%Z)
            (map Z.of_nat (seq 0 101)) = true) by (vm_compute; reflexivity).
  rewrite forallb_forall in Hall.
  apply Z.eqb_eq. apply Hall.
  replace n with (Z.of_nat (Z.to_nat n)) by lia.
  apply in_map, in_seq. lia.
Qed.

(** The machine's doubles give the same sweep for the integer scores 0
    to 100 and for the scores of the sample. *)
Lemma Hardware_angle_agrees (s : Z) :
  (0 <= s <= 100)%Z ->
  Hardware.angle s = ScoreGauge.sweep (ScoreGauge.mk (inject_Z s) "" white 0).
Proof.
  intros Hs.
  assert (Hall : forallb
            (fun n => match Hardware.angle n,
                            ScoreGauge.sweep (ScoreGauge.mk (inject_Z n) "" white 0) with
                      | Ok a, Ok b => (a =? b)%Z
                      | _, _ => false
                      end)
            (map Z.of_nat (seq 0 101)) = true) by (vm_compute; reflexivity).
  rewrite forallb_forall in Hall.
  specialize (Hall s).
  assert (Hin : In s (map Z.of_nat (seq 0 101))).
  { replace s with (Z.of_nat (Z.to_nat s)) by lia.
    apply in_map, in_seq. lia. }
  specialize (Hall Hin).
  destruct (Hardware.angle s) as [a | e]; [| discriminate].
  destruct (ScoreGauge.sweep _) as [b | e]; [| discriminate].
  apply Z.eqb_eq in Hall. now subst.
Qed.

Example ScoreGauge_angle_0 :
  ScoreGauge.angle (ScoreGauge.mk 0 "OIC" ACCENT_PUR 90) = 0%Z.
Proof. vm_compute. reflexivity. Qed.

Example ScoreGauge_angle_50 :
  ScoreGauge.angle (ScoreGauge.mk 50 "OIC" ACCENT_PUR 90) = 90%Z.
Proof. vm_compute. reflexivity. Qed.

Example ScoreGauge_angle_100 :
  ScoreGauge.angle (ScoreGauge.mk 100 "OIC" ACCENT_PUR 90) = 180%Z.
Proof. vm_compute. reflexivity. Qed.

Example ScoreGauge_track_only_at_0 (lib : Library) :
  Log.arc_extents (log (ScoreGauge.draw lib (ScoreGauge.mk 0 "OIC" ACCENT_PUR 90)))
  = [180].
Proof. rewrite ScoreGauge_arcs. vm_compute. reflexivity. Qed.

(** The double 46.666666666666664 times 1.8 is below 84 and rounds to
    84.0: the sweep is 84, one more than the integer part of the exact
    product; the machine's doubles agree. *)
Example ScoreGauge_sweep_of_a_rounded_product :
  let score := 6567749456581973 # 140737488355328 in
  let self := ScoreGauge.mk score "OIC" ACCENT_PUR 90 in
  Float64.round score = score
  /\ Py.int (score * 1.8) = 83%Z
  /\ ScoreGauge.sweep self = Ok 84%Z
  /\ Hardware.angle_of_float 0x1.7555555555555p+5 = Ok 84%Z
  /\ Hardware.same (Hardware.to_model 0x1.7555555555555p+5) (Float64.Fin score) = true.
Proof. repeat split; vm_compute; reflexivity. Qed.

(** A score beyond the double range: the track is drawn, then
    [int(score * 1.8)] raises and nothing else is drawn. *)
Example ScoreGauge_score_beyond_the_doubles (lib : Library) :
  let self := ScoreGauge.mk (inject_Z (10 ^ 400)) "OIC" ACCENT_PUR 90 in
  outcome (ScoreGauge.draw lib self) = Raise OverflowError
  /\ List.length (log (ScoreGauge.draw lib self)) = 3%nat
  /\ Hardware.angle (10 ^ 400) = Raise OverflowError.
Proof.
  intros self.
  assert (Hs : ScoreGauge.sweep self = Raise OverflowError) by (vm_compute; reflexivity).
  split; [| split].
  - rewrite ScoreGauge_outcome, Hs. reflexivity.
  - unfold ScoreGauge.draw. rewrite Hs. reflexivity.
  - vm_compute. reflexivity.
Qed.

(** C1, as stated, fails at score 1: the filled arc sweeps 1 degree,
    which is not 1 x 1.8. *)
Lemma C1_counterexample :
  exists a : Q,
    Log.arc_extents
      (log (ScoreGauge.draw sample_library (ScoreGauge.mk 1 "OIC" ACCENT_PUR 90)))
    = [180; a]
    /\ ~ a == 1 * 1.8.
Proof.
  exists (inject_Z 1). split.
  - rewrite ScoreGauge_arcs. vm_compute. reflexivity.
  - intros H. vm_compute in H. discriminate H.
Qed.

(** C1 (amended): for a score in [0,100] the sweep of the filled arc is
    int(score * 1.8) as CPython computes it, without error: the integer
    part of the binary64 product, which is within 5e-14 of score x 1.8.
    It is an integer between 0 and 180, and for an integer score n it is
    the integer part of 1.8 n, so it equals score x 1.8 whenever that is
    an integer.  The track (sweep 180) is always drawn and the filled arc
    is drawn exactly when the sweep is not zero. *)
Theorem C1_sweep_is_integer_part (lib : Library) (self : ScoreGauge.t) :
  0 <= ScoreGauge.score self -> ScoreGauge.score self <= 100 ->
  let a := ScoreGauge.angle self in
  let p := ScoreGauge.product self in
  ScoreGauge.sweep self = Ok a
  /\ (0 <= a <= 180)%Z
  /\ inject_Z a <= p
  /\ p < inject_Z a + 1
  /\ Qabs (p - ScoreGauge.score self * 1.8) <= 1 # 20000000000000
  /\ (forall n : Z, ScoreGauge.score self == inject_Z n ->
        a = (9 * n / 5)%Z
        /\ (forall k : Z, ScoreGauge.score self * 1.8 == inject_Z k -> a = k))
  /\ Log.arc_extents (log (ScoreGauge.draw lib self))
     = (if (a =? 0)%Z then [180] else [180; inject_Z a]).
Proof.
  intros Hlo Hhi a p.
  destruct (ScoreGauge_in_range self Hlo Hhi) as [_ [[Hp0 Hp1] Hsw]].
  pose proof (ScoreGauge_angle_range self Hlo Hhi) as Hr.
  destruct (int_nonneg_bounds Hp0) as [Ha Hb].
  split; [exact Hsw |]. split; [exact Hr |].
  split; [exact Ha |]. split; [exact Hb |].
  split; [apply ScoreGauge_product_accuracy; assumption |].
  split.
  - intros n Hn.
    assert (Hn100 : (0 <= n <= 100)%Z).
    { rewrite Hn in Hlo, Hhi. change 0 with (inject_Z 0) in Hlo.
      change 100 with (inject_Z 100) in Hhi.
      rewrite <- Zle_Qle in Hlo, Hhi. lia. }
    pose proof (@ScoreGauge_integer_scores self n Hn100 Hn) as Hfloor.
    split; [exact Hfloor |].
    intros k Hk. subst a. rewrite Hfloor.
    assert (H5 : (9 * n = 5 * k)%Z).
    { rewrite Hn in Hk.
      assert (Hq : inject_Z (9 * n) == inject_Z (5 * k)).
      { rewrite !inject_Z_mult. change (inject_Z 9) with 9. change (inject_Z 5) with 5. lra. }
      unfold Qeq, inject_Z in Hq. cbn [Qnum Qden] in Hq. lia. }
    rewrite H5. rewrite Z.mul_comm. apply Z.div_mul. lia.
  - rewrite ScoreGauge_arcs, Hsw. fold a.
    destruct (Z.ltb_spec 0 a) as [Hpos | Hnpos], (Z.eqb_spec a 0) as [Hz | Hnz];
      try reflexivity; subst a; lia.
Qed.

Lemma C1_witness :
  let self := ScoreGauge.mk 50 "OIC" ACCENT_PUR 90 in
  Log.arc_extents (log (ScoreGauge.draw sample_library self)) = [180; inject_Z 90].
Proof.
  intros self.
  assert (Hlo : 0 <= ScoreGauge.score self) by (vm_compute; discriminate).
  assert (Hhi : ScoreGauge.score self <= 100) by (vm_compute; discriminate).
  exact (proj2 (proj2 (proj2 (proj2 (proj2 (proj2
           (C1_sweep_is_integer_part sample_library self Hlo Hhi))))))).
Defined.

End ScoreGaugeFacts.

(** *** The drawing monad *)

Lemma bind_Ok {A B : Type} (l : list op) (a : A) (k : A -> Draw B) :
  bind (l, Ok a) k = (l ++ log (k a), outcome (k a)).
Proof. unfold bind, log, outcome. destruct (k a); reflexivity. Qed.

Lemma bind_Raise {A B : Type} (l : list op) (e : exn) (k : A -> Draw B) :
  bind (l, Raise e) k = (l, Raise e).
Proof. reflexivity. Qed.


Lemma Draw_eta {A : Type} (m : Draw A) : m = (log m, outcome m).
Proof. destruct m; reflexivity. Qed.

Lemma log_bind_Ok {A B : Type} (m : Draw A) (a : A) (k : A -> Draw B) :
  outcome m = Ok a -> log (bind m k) = log m ++ log (k a).
Proof.
  intros H. rewrite (Draw_eta m), H, bind_Ok. reflexivity.
Qed.

Lemma outcome_bind_Ok {A B : Type} (m : Draw A) (a : A) (k : A -> Draw B) :
  outcome m = Ok a -> outcome (bind m k) = outcome (k a).
Proof.
  intros H. rewrite (Draw_eta m), H, bind_Ok. reflexivity.
Qed.

Lemma truediv_Ok (a b : Q) : ~ (b == 0)%Q -> truediv a b = Ok (a / b)%Q.
Proof.
  intros Hb. unfold truediv.
  destruct (Qeq_bool b 0) eqn:E; [| reflexivity].
  apply Qeq_bool_iff in E. contradiction.
Qed.

Lemma truediv_Raise (a b : Q) : (b == 0)%Q -> truediv a b = Raise ZeroDivisionError.
Proof.
  intros Hb. unfold truediv. apply Qeq_bool_iff in Hb. now rewrite Hb.
Qed.

Lemma len_nonneg {A : Type} (xs : list A) : (0 <= len xs)%Q.
Proof.
  unfold len. change 0%Q with (inject_Z 0). rewrite <- Zle_Qle. lia.
Qed.

Lemma len_cons {A : Type} (x : A) (xs : list A) : (len (x :: xs) == len xs + 1)%Q.
Proof.
  unfold len. cbn [List.length]. rewrite Nat2Z.inj_succ, <- Z.add_1_r, inject_Z_plus.
  reflexivity.
Qed.



(** *** Python numbers: which exception, and when *)

Section NumFacts.
Local Open Scope Q_scope.

Lemma round_integer_zero (n : Z) : Float64.round (inject_Z n) == 0 -> n = 0%Z.
Proof.
  intros H. destruct (Z.eq_dec n 0) as [E | NE]; [exact E |]. exfalso.
  destruct (Z_lt_le_dec n 0) as [Hneg | Hpos].
  - assert (H1 : Float64.round (inject_Z n) <= Float64.round (inject_Z (-1))).
    { apply round_mono. rewrite <- Zle_Qle. lia. }
    assert (H2 : Float64.round (inject_Z (-1)) == -1) by (vm_compute; reflexivity).
    lra.
  - assert (H1 : Float64.round (inject_Z 1) <= Float64.round (inject_Z n)).
    { apply round_mono. rewrite <- Zle_Qle. lia. }
    assert (H2 : Float64.round (inject_Z 1) == 1) by (vm_compute; reflexivity).
    lra.
Qed.

Lemma float_of_int_zero (n : Z) (y : Float64.t) :
  Num.float_of_int n = Ok y -> Float64.is_zero y = true -> n = 0%Z.
Proof.
  unfold Num.float_of_int, Float64.of_Q.
  destruct (Float64.in_range _); [| discriminate].
  intros H Hz. injection H as <-. cbn in Hz. apply Qeq_bool_iff in Hz.
  now apply round_integer_zero.
Qed.

Lemma float_of_int_raises (n : Z) (e : exn) :
  Num.float_of_int n = Raise e -> e = OverflowError.
Proof.
  unfold Num.float_of_int. destruct (Float64.of_Q _); intros H; try discriminate H;
    now injection H as <-.
Qed.

Lemma to_float_raises (a : Num.t) (e : exn) :
  Num.to_float a = Raise e -> e = OverflowError.
Proof.
  destruct a as [n | f]; cbn; [apply float_of_int_raises | discriminate].
Qed.

Lemma add_raises (a b : Num.t) (e : exn) : Num.add a b = Raise e -> e = OverflowError.
Proof.
  unfold Num.add.
  destruct a as [m | x], b as [n | y]; try discriminate;
    unfold Num.and_then;
    repeat match goal with
           | |- context [Num.to_float ?u] =>
               let E := fresh "E" in
               destruct (Num.to_float u) eqn:E;
               [| intros H; injection H as <-; eapply to_float_raises; exact E]
           end; discriminate.
Qed.

Lemma mul_raises (a b : Num.t) (e : exn) : Num.mul a b = Raise e -> e = OverflowError.
Proof.
  unfold Num.mul.
  destruct a as [m | x], b as [n | y]; try discriminate;
    unfold Num.and_then;
    repeat match goal with
           | |- context [Num.to_float ?u] =>
               let E := fresh "E" in
               destruct (Num.to_float u) eqn:E;
               [| intros H; injection H as <-; eapply to_float_raises; exact E]
           end; discriminate.
Qed.

Lemma sum_raises (xs : list Num.t) (e : exn) : Num.sum xs = Raise e -> e = OverflowError.
Proof.
  unfold Num.sum.
  assert (G : forall acc,
             (forall e', acc = Raise e' -> e' = OverflowError) ->
             fold_left (fun acc x => Num.and_then acc (fun a => Num.add a x)) xs acc = Raise e ->
             e = OverflowError).
  { induction xs as [| x xs IH]; intros acc Hacc H.
    - cbn in H. now apply Hacc.
    - cbn [fold_left] in H. eapply IH; [| exact H].
      intros e' He'. destruct acc as [a | e0]; cbn in He'.
      + now apply add_raises in He'.
      + injection He' as <-. now apply Hacc. }
  apply G. discriminate.
Qed.

Lemma int_raises (a : Num.t) (e : exn) :
  Num.int a = Raise e -> e = OverflowError \/ e = ValueError.
Proof.
  destruct a as [n | [x | s |]]; cbn; intros H; try discriminate H;
    injection H as <-; auto.
Qed.

Lemma truediv_raises (a b : Num.t) (e : exn) :
  Num.truediv a b = Raise e ->
  e = OverflowError \/ (e = ZeroDivisionError /\ Num.is_zero b = true).
Proof.
  unfold Num.truediv. destruct a as [m | x], b as [n | y].
  - cbn [Num.is_zero]. destruct (n =? 0)%Z.
    + intros H. injection H as <-. right. auto.
    + destruct (Float64.of_Q _); intros H; try discriminate H; injection H as <-; auto.
  - cbn [Num.to_float Num.is_zero]. unfold Num.and_then.
    destruct (Num.float_of_int m) eqn:E.
    + destruct (Float64.is_zero y); intros H; [| discriminate H].
      injection H as <-. right. auto.
    + intros H. injection H as <-. left. eapply float_of_int_raises. exact E.
  - cbn [Num.to_float Num.is_zero]. unfold Num.and_then.
    destruct (Num.float_of_int n) eqn:E.
    + destruct (Float64.is_zero a) eqn:Z; intros H; [| discriminate H].
      injection H as <-. right. split; [reflexivity |].
      rewrite (float_of_int_zero n E Z). reflexivity.
    + intros H. injection H as <-. left. eapply float_of_int_raises. exact E.
  - cbn [Num.to_float Num.is_zero]. unfold Num.and_then.
    destruct (Float64.is_zero y); intros H; [| discriminate H].
    injection H as <-. right. auto.
Qed.

(** Dividing by a zero raises: ZeroDivisionError, or OverflowError when
    the dividend is an int beyond the double range and the divisor a
    float, since the conversion comes first. *)
Lemma truediv_by_zero (a b : Num.t) :
  Num.is_zero b = true ->
  Num.truediv a b = Raise ZeroDivisionError
  \/ (Num.truediv a b = Raise OverflowError
      /\ exists m f, a = Num.Int m /\ b = Num.Float f
                     /\ Num.float_of_int m = Raise OverflowError).
Proof.
  intros Hz. unfold Num.truediv. destruct a as [m | x], b as [n | y]; cbn [Num.is_zero] in Hz.
  - rewrite Hz. now left.
  - cbn [Num.to_float]. unfold Num.and_then.
    destruct (Num.float_of_int m) as [x | e] eqn:E.
    + rewrite Hz. now left.
    + assert (He : e = OverflowError) by (eapply float_of_int_raises; exact E).
      subst e. right. split; [reflexivity |]. exists m, y. auto.
  - apply Z.eqb_eq in Hz. subst n. left. reflexivity.
  - cbn [Num.to_float]. unfold Num.and_then. rewrite Hz. now left.
Qed.

Lemma percent_raises (w : Num.t) (e : exn) :
  Omnifolio.ScoreBreakdownBar.percent w = Raise e -> e = OverflowError \/ e = ValueError.
Proof.
  unfold Omnifolio.ScoreBreakdownBar.percent, Num.and_then.
  destruct (Num.mul w (Num.Int 100)) eqn:E.
  - apply int_raises.
  - intros H. injection H as <-. left. eapply mul_raises. exact E.
Qed.

End NumFacts.

(** *** ScoreBreakdownBar *)





Section ScoreBreakdownBarFacts.
Import Omnifolio.
Local Open Scope Q_scope.

Variable self : ScoreBreakdownBar.t.
Variable total : Num.t.
Let W : Q := ScoreBreakdownBar.width self.
Let bar_y : Q := ScoreBreakdownBar.height self - ScoreBreakdownBar.bar_h - 4.
Let seg_loop (x : Q) (cs : list ScoreBreakdownBar.component) : Draw Q :=
  for_each_acc cs x (ScoreBreakdownBar.draw_segment self total bar_y).
Let weight (c : ScoreBreakdownBar.component) : Num.t := snd (fst c).



Lemma seg_loop_raise (x : Q) (c : ScoreBreakdownBar.component)
      (cs : list ScoreBreakdownBar.component) (e : exn) :
  Num.truediv (weight c) total = Raise e ->
  seg_loop x (c :: cs) = ([], Raise e).
Proof.
  intros Hq. destruct c as [[label w] color]. unfold weight in Hq. cbn [fst snd] in Hq.
  unfold seg_loop. cbn [for_each_acc].
  unfold ScoreBreakdownBar.draw_segment. rewrite Hq. reflexivity.
Qed.










Lemma components_len_nonzero :
  ScoreBreakdownBar.components self <> [] ->
  ~ len (ScoreBreakdownBar.components self) == 0.
Proof.
  destruct (ScoreBreakdownBar.components self) as [| c cs]; [contradiction |].
  intros _ H. rewrite len_cons in H. pose proof (len_nonneg cs). lra.
Qed.


End ScoreBreakdownBarFacts.

(** *** ScoreBreakdownBar: how drawing can stop *)

Lemma for_each_acc_raise {A S : Type} (xs : list A) (s : S) (body : S -> A -> Draw S)
      (e : exn) :
  outcome (for_each_acc xs s body) = Raise e ->
  exists x s', In x xs /\ outcome (body s' x) = Raise e.
Proof.
  revert s. induction xs as [| x xs IH]; intros s H.
  - discriminate H.
  - cbn [for_each_acc] in H.
    destruct (body s x) as [l [s1 | e1]] eqn:E.
    + rewrite bind_Ok in H. cbn [outcome snd] in H.
      destruct (IH s1 H) as [y [s' [Hin Hy]]].
      exists y, s'. split; [now right | exact Hy].
    + cbn in H. injection H as <-. exists x, s. split; [now left |].
      now rewrite E.
Qed.

Section BarStops.
Import Omnifolio.
Local Open Scope Q_scope.

Variable self : ScoreBreakdownBar.t.

Lemma draw_segment_raise (t : Num.t) (bar_y x : Q) (c : ScoreBreakdownBar.component)
      (e : exn) :
  outcome (ScoreBreakdownBar.draw_segment self t bar_y x c) = Raise e ->
  Num.truediv (snd (fst c)) t = Raise e.
Proof.
  destruct c as [[label w] color]. cbn [fst snd].
  unfold ScoreBreakdownBar.draw_segment.
  destruct (Num.truediv w t) as [q | e0]; cbn.
  - discriminate.
  - intros H. now injection H as <-.
Qed.

Lemma draw_legend_raise (lx : Q) (c : ScoreBreakdownBar.component) (e : exn) :
  ScoreBreakdownBar.components self <> [] ->
  outcome (ScoreBreakdownBar.draw_legend self lx c) = Raise e ->
  ScoreBreakdownBar.percent (snd (fst c)) = Raise e.
Proof.
  intros Hne. destruct c as [[label w] color]. cbn [fst snd].
  unfold ScoreBreakdownBar.draw_legend.
  rewrite (truediv_Ok (ScoreBreakdownBar.width self) (@components_len_nonzero self Hne)).
  destruct (ScoreBreakdownBar.percent w) as [n | e0]; cbn.
  - discriminate.
  - intros H. now injection H as <-.
Qed.

(** Drawing stops in one of three places: in [sum], in a division by the
    total, or in [int(weight * 100)]. *)
Lemma ScoreBreakdownBar_raise_cases (e : exn) :
  outcome (ScoreBreakdownBar.draw self) = Raise e ->
  ScoreBreakdownBar.total self = Raise e
  \/ (exists t c, ScoreBreakdownBar.total self = Ok t
                  /\ In c (ScoreBreakdownBar.components self)
                  /\ Num.truediv (snd (fst c)) t = Raise e)
  \/ (exists c, In c (ScoreBreakdownBar.components self)
                /\ ScoreBreakdownBar.percent (snd (fst c)) = Raise e).
Proof.
  unfold ScoreBreakdownBar.draw.
  destruct (ScoreBreakdownBar.total self) as [t | e0] eqn:Et.
  - unfold lift. rewrite bind_Ok. cbn [outcome snd]. intros H.
    right.
    destruct (for_each_acc (ScoreBreakdownBar.components self) 0
                (ScoreBreakdownBar.draw_segment self t _)) as [l1 [x1 | e1]] eqn:E1.
    + rewrite bind_Ok in H. cbn [outcome snd] in H.
      destruct (for_each_acc (ScoreBreakdownBar.components self) 0
                  (ScoreBreakdownBar.draw_legend self)) as [l2 [x2 | e2]] eqn:E2.
      * rewrite bind_Ok in H. discriminate H.
      * cbn in H. injection H as <-. right.
        assert (H2 : outcome (for_each_acc (ScoreBreakdownBar.components self) 0
                                (ScoreBreakdownBar.draw_legend self)) = Raise e2)
          by now rewrite E2.
        destruct (for_each_acc_raise _ _ _ H2) as [c [lx [Hin Hc]]].
        exists c. split; [exact Hin |].
        apply (draw_legend_raise lx); [| exact Hc].
        intros Hnil. rewrite Hnil in Hin. contradiction.
    + cbn in H. injection H as <-. left.
      assert (H1 : outcome (for_each_acc (ScoreBreakdownBar.components self) 0
                              (ScoreBreakdownBar.draw_segment self t
                                 (ScoreBreakdownBar.height self - ScoreBreakdownBar.bar_h - 4)))
                   = Raise e1) by now rewrite E1.
      destruct (for_each_acc_raise _ _ _ H1) as [c [x [Hin Hc]]].
      exists t, c. split; [reflexivity |]. split; [exact Hin |].
      now apply draw_segment_raise in Hc.
  - cbn. intros H. injection H as <-. now left.
Qed.

(** ZeroDivisionError comes from the division by the total only. *)
Lemma ScoreBreakdownBar_zero_division :
  outcome (ScoreBreakdownBar.draw self) = Raise ZeroDivisionError ->
  exists t, ScoreBreakdownBar.total self = Ok t
            /\ Num.is_zero t = true
            /\ ScoreBreakdownBar.components self <> [].
Proof.
  intros H. destruct (ScoreBreakdownBar_raise_cases H) as [Hs | [[t [c [Ht [Hin Hd]]]] | [c [Hin Hp]]]].
  - apply sum_raises in Hs. discriminate Hs.
  - exists t. split; [exact Ht |].
    destruct (truediv_raises _ _ Hd) as [Ho | [_ Hz]]; [discriminate Ho |].
    split; [exact Hz |]. intros Hnil. rewrite Hnil in Hin. contradiction.
  - destruct (percent_raises _ Hp) as [Ho | Ho]; discriminate Ho.
Qed.

(** With a zero total the first division stops the drawing, before any
    canvas call. *)
Lemma ScoreBreakdownBar_zero_total (t : Num.t) (c : ScoreBreakdownBar.component)
      (rest : list ScoreBreakdownBar.component) :
  ScoreBreakdownBar.total self = Ok t ->
  Num.is_zero t = true ->
  ScoreBreakdownBar.components self = c :: rest ->
  (ScoreBreakdownBar.draw self = ([], Raise ZeroDivisionError)
   \/ (ScoreBreakdownBar.draw self = ([], Raise OverflowError)
       /\ exists m f, snd (fst c) = Num.Int m /\ t = Num.Float f
                      /\ Num.float_of_int m = Raise OverflowError)).
Proof.
  intros Ht Hz Hc.
  unfold ScoreBreakdownBar.draw. rewrite Ht, Hc. unfold lift. rewrite bind_Ok.
  cbn [app log outcome fst snd].
  destruct (@truediv_by_zero (snd (fst c)) t Hz) as [Hd | [Hd Hex]].
  - left. rewrite (@seg_loop_raise self t 0 c rest _ Hd). reflexivity.
  - right. split; [| exact Hex].
    rewrite (@seg_loop_raise self t 0 c rest _ Hd). reflexivity.
Qed.


End BarStops.

(** *** Constructors do not validate *)

Section ConstructionFacts.
Import Omnifolio.
Local Open Scope Q_scope.




(** An out-of-range score is drawn: 150 sweeps 270 degrees, a negative
    score leaves the track alone. *)
Example ScoreGauge_out_of_range_scores (lib : Library) :
  Log.arc_extents (log (ScoreGauge.draw lib (ScoreGauge.mk 150 "OIC" ACCENT_PUR 90)))
  = [180; inject_Z 270]
  /\ Log.arc_extents (log (ScoreGauge.draw lib (ScoreGauge.mk (-5) "OIC" ACCENT_PUR 90)))
     = [180].
Proof. split; rewrite ScoreGauge_arcs; vm_compute; reflexivity. Qed.

End ConstructionFacts.

(** *** ScoreBreakdownBar: segments and legend *)




(** On the machine's doubles the 300 / 1:1:2 bar has segments exactly
    74, 74 and 149 wide. *)
Example Hardware_segment_widths :
  map (fun w => Hardware.to_int (Hardware.segment_width w 4 300)) [1; 1; 2]%float
  = [Ok 74; Ok 74; Ok 149]%Z
  /\ PrimFloat.eqb (Hardware.segment_width 1 4 300) 74 = true
  /\ PrimFloat.eqb (Hardware.segment_width 2 4 300) 149 = true.
Proof. repeat split; vm_compute; reflexivity. Qed.

(** The percentage of the legend is taken on the doubles: 0.29 * 100 is
    28.999999999999996 and prints as 28, while the weights of the script
    print as written. *)
Example ScoreBreakdownBar_percent_on_the_doubles :
  Omnifolio.ScoreBreakdownBar.percent (Num.literal 0.29) = Ok 28%Z
  /\ Py.int (0.29 * 100) = 29%Z
  /\ map (fun c : Omnifolio.ScoreBreakdownBar.component =>
            Omnifolio.ScoreBreakdownBar.percent (snd (fst c)))
         (Omnifolio.ScoreBreakdownBar.components Omnifolio.oic_bar)
     = [Ok 25; Ok 30; Ok 20; Ok 15; Ok 10]%Z.
Proof. repeat split; vm_compute; reflexivity. Qed.

(** *** Loops over [enumerate] *)

Lemma for_each_log {A : Type} (xs : list A) (body : A -> Draw unit) :
  (forall x, In x xs -> outcome (body x) = Ok tt) ->
  log (for_each xs body) = flat_map (fun x => log (body x)) xs
  /\ outcome (for_each xs body) = Ok tt.
Proof.
  induction xs as [| x xs IH]; intros Hok.
  - split; reflexivity.
  - destruct IH as [IHl IHo]; [intros y Hy; apply Hok; now right |].
    assert (Hx : outcome (body x) = Ok tt) by (apply Hok; now left).
    cbn [for_each flat_map]. split.
    + rewrite (log_bind_Ok _ _ Hx), IHl. reflexivity.
    + rewrite (outcome_bind_Ok _ _ Hx). exact IHo.
Qed.

Lemma flat_map_flat_map {A B C : Type} (f : A -> list B) (g : B -> list C) (xs : list A) :
  flat_map g (flat_map f xs) = flat_map (fun x => flat_map g (f x)) xs.
Proof.
  induction xs as [| x xs IH]; [reflexivity |].
  cbn. now rewrite flat_map_app, IH.
Qed.

Lemma flat_map_enumerate {A B : Type} (F : nat -> list B) (xs : list A) (i0 : nat) :
  flat_map (fun st => F (fst st)) (enumerate_from i0 xs)
  = flat_map F (seq i0 (List.length xs)).
Proof.
  revert i0. induction xs as [| x xs IH]; intros i0; [reflexivity |].
  cbn. now rewrite IH.
Qed.

Lemma flat_map_singletons {A B : Type} (g : A -> list B) (f : A -> B) (xs : list A) :
  (forall x, In x xs -> g x = [f x]) -> flat_map g xs = map f xs.
Proof.
  induction xs as [| x xs IH]; intros H; [reflexivity |].
  cbn. rewrite (H x) by now left. cbn. f_equal. apply IH.
  intros y Hy. apply H. now right.
Qed.

Lemma flat_map_all_but_last {B : Type} (f : nat -> B) (n : nat) :
  flat_map (fun i => if (Z.of_nat i <? Z.of_nat n - 1)%Z then [f i] else []) (seq 0 n)
  = map f (seq 0 (pred n)).
Proof.
  destruct n as [| k]; [reflexivity |].
  assert (Hlast : (Z.of_nat k <? Z.of_nat (S k) - 1)%Z = false)
    by (apply Z.ltb_ge; lia).
  rewrite seq_S, flat_map_app. cbn [pred Nat.add flat_map].
  rewrite Hlast, app_nil_r. apply flat_map_singletons.
  intros i Hi. apply in_seq in Hi.
  assert (Hin : (Z.of_nat i <? Z.of_nat (S k) - 1)%Z = true)
    by (apply Z.ltb_lt; lia).
  now rewrite Hin.
Qed.

(** *** DataFlowDiagram *)

Section DataFlowDiagramFacts.
Import Omnifolio.
Local Open Scope Q_scope.

Variable self : DataFlowDiagram.t.
Variables gap cy : Q.
Let n : nat := List.length (DataFlowDiagram.steps self).
Let box_w : Q := DataFlowDiagram.box_w.
Let box_h : Q := DataFlowDiagram.box_h.
Let bx (i : nat) : Q := gap + inject_Z (Z.of_nat i) * (box_w + gap).

Lemma draw_step_outcome (st : nat * (string * string)) :
  outcome (DataFlowDiagram.draw_step self n gap cy st) = Ok tt.
Proof.
  destruct st as [i [icon label]]. unfold DataFlowDiagram.draw_step.
  destruct (Z.of_nat i <? Z.of_nat n - 1)%Z; reflexivity.
Qed.

Lemma draw_step_boxes (st : nat * (string * string)) :
  Log.filled_round_rects (log (DataFlowDiagram.draw_step self n gap cy st))
  = [(bx (fst st), cy - box_h / 2, box_w, box_h)].
Proof.
  destruct st as [i [icon label]]. unfold DataFlowDiagram.draw_step.
  destruct (Z.of_nat i <? Z.of_nat n - 1)%Z; reflexivity.
Qed.

Lemma draw_step_paths (st : nat * (string * string)) :
  Log.paths (log (DataFlowDiagram.draw_step self n gap cy st))
  = if (Z.of_nat (fst st) <? Z.of_nat n - 1)%Z
    then [[moveTo (bx (fst st) + box_w + gap / 2 - 4) (cy - 4);
           lineTo (bx (fst st) + box_w + gap / 2 - 4) (cy + 4);
           lineTo (bx (fst st) + box_w + gap / 2 + 2) cy;
           close]]
    else [].
Proof.
  destruct st as [i [icon label]]. unfold DataFlowDiagram.draw_step. cbn [fst].
  destruct (Z.of_nat i <? Z.of_nat n - 1)%Z; reflexivity.
Qed.

Lemma draw_step_lines (st : nat * (string * string)) :
  Log.lines (log (DataFlowDiagram.draw_step self n gap cy st))
  = if (Z.of_nat (fst st) <? Z.of_nat n - 1)%Z
    then [(bx (fst st) + box_w + 4, cy, bx (fst st) + box_w + gap / 2 - 4, cy)]
    else [].
Proof.
  destruct st as [i [icon label]]. unfold DataFlowDiagram.draw_step. cbn [fst].
  destruct (Z.of_nat i <? Z.of_nat n - 1)%Z; reflexivity.
Qed.

Let loop : Draw unit :=
  for_each (enumerate (DataFlowDiagram.steps self))
           (DataFlowDiagram.draw_step self n gap cy).

Lemma step_loop_outcome : outcome loop = Ok tt.
Proof.
  apply for_each_log. intros st _. apply draw_step_outcome.
Qed.

Lemma step_loop_boxes :
  Log.filled_round_rects (log loop)
  = map (fun i => (bx i, cy - box_h / 2, box_w, box_h)) (seq 0 n).
Proof.
  unfold loop.
  rewrite (proj1 (for_each_log _ _ (fun st _ => draw_step_outcome st))).
  unfold Log.filled_round_rects at 1. rewrite flat_map_flat_map.
  fold Log.filled_round_rects.
  rewrite (flat_map_ext _ _ draw_step_boxes).
  unfold enumerate.
  rewrite (flat_map_enumerate (fun i => [(bx i, cy - box_h / 2, box_w, box_h)])).
  apply flat_map_singletons. reflexivity.
Qed.

Lemma step_loop_paths :
  Log.paths (log loop)
  = map (fun i => [moveTo (bx i + box_w + gap / 2 - 4) (cy - 4);
                   lineTo (bx i + box_w + gap / 2 - 4) (cy + 4);
                   lineTo (bx i + box_w + gap / 2 + 2) cy;
                   close])
        (seq 0 (pred n)).
Proof.
  unfold loop.
  rewrite (proj1 (for_each_log _ _ (fun st _ => draw_step_outcome st))).
  unfold Log.paths at 1. rewrite flat_map_flat_map. fold Log.paths.
  rewrite (flat_map_ext _ _ draw_step_paths).
  unfold enumerate.
  rewrite (flat_map_enumerate
             (fun i => if (Z.of_nat i <? Z.of_nat n - 1)%Z
                       then [[moveTo (bx i + box_w + gap / 2 - 4) (cy - 4);
                              lineTo (bx i + box_w + gap / 2 - 4) (cy + 4);
                              lineTo (bx i + box_w + gap / 2 + 2) cy;
                              close]]
                       else [])).
  apply flat_map_all_but_last.
Qed.

Lemma step_loop_lines :
  Log.lines (log loop)
  = map (fun i => (bx i + box_w + 4, cy, bx i + box_w + gap / 2 - 4, cy))
        (seq 0 (pred n)).
Proof.
  unfold loop.
  rewrite (proj1 (for_each_log _ _ (fun st _ => draw_step_outcome st))).
  unfold Log.lines at 1. rewrite flat_map_flat_map. fold Log.lines.
  rewrite (flat_map_ext _ _ draw_step_lines).
  unfold enumerate.
  rewrite (flat_map_enumerate
             (fun i => if (Z.of_nat i <? Z.of_nat n - 1)%Z
                       then [(bx i + box_w + 4, cy, bx i + box_w + gap / 2 - 4, cy)]
                       else [])).
  apply flat_map_all_but_last.
Qed.

End DataFlowDiagramFacts.

Lemma len_plus_one_nonzero {A : Type} (xs : list A) : ~ (len xs + 1 == 0)%Q.
Proof. pose proof (len_nonneg xs). lra. Qed.

Lemma DataFlowDiagram_draw_loop (self : Omnifolio.DataFlowDiagram.t) :
  let steps := Omnifolio.DataFlowDiagram.steps self in
  let gap := ((Omnifolio.DataFlowDiagram.width self
               - len steps * Omnifolio.DataFlowDiagram.box_w) / (len steps + 1))%Q in
  Omnifolio.DataFlowDiagram.draw self
  = for_each (enumerate steps)
             (Omnifolio.DataFlowDiagram.draw_step self (List.length steps) gap
                (Omnifolio.DataFlowDiagram.height self / 2)%Q).
Proof.
  intros steps gap. unfold Omnifolio.DataFlowDiagram.draw.
  rewrite truediv_Ok by apply len_plus_one_nonzero.
  unfold lift. rewrite bind_Ok. cbn [app]. symmetry. apply Draw_eta.
Qed.

(** C5: for a diagram of n steps and width W, drawing succeeds; the n
    boxes are 90 x 40; with gap = (W - n x 90) / (n + 1), box i starts at
    gap + i x (90 + gap), so the space before the first box, between two
    neighbours and after the last box is gap each; an arrow (shaft and
    head) is drawn after each box but the last, n - 1 arrows in all, with
    its head centred on the middle of that gap. *)
Theorem C5_boxes_evenly_spaced (self : Omnifolio.DataFlowDiagram.t) :
  let n := List.length (Omnifolio.DataFlowDiagram.steps self) in
  let W := Omnifolio.DataFlowDiagram.width self in
  let box_w := Omnifolio.DataFlowDiagram.box_w in
  let box_h := Omnifolio.DataFlowDiagram.box_h in
  let gap := ((W - len (Omnifolio.DataFlowDiagram.steps self) * box_w)
              / (len (Omnifolio.DataFlowDiagram.steps self) + 1))%Q in
  let cy := (Omnifolio.DataFlowDiagram.height self / 2)%Q in
  let x := fun i : nat => (gap + inject_Z (Z.of_nat i) * (box_w + gap))%Q in
  let L := log (Omnifolio.DataFlowDiagram.draw self) in
  outcome (Omnifolio.DataFlowDiagram.draw self) = Ok tt
  /\ Log.filled_round_rects L
     = map (fun i => (x i, cy - box_h / 2, box_w, box_h)%Q) (seq 0 n)
  /\ (x 0%nat == gap)%Q
  /\ (forall i : nat, x (S i) - (x i + box_w) == gap)%Q
  /\ match n with
     | O => True
     | S k => (W - (x k + box_w) == gap)%Q
     end
  /\ Log.lines L
     = map (fun i => (x i + box_w + 4, cy, x i + box_w + gap / 2 - 4, cy)%Q)
           (seq 0 (pred n))
  /\ Log.paths L
     = map (fun i => [moveTo (x i + box_w + gap / 2 - 4) (cy - 4);
                      lineTo (x i + box_w + gap / 2 - 4) (cy + 4);
                      lineTo (x i + box_w + gap / 2 + 2) cy;
                      close]%Q)
           (seq 0 (pred n))
  /\ List.length (Log.paths L) = pred n.
Proof.
  intros n W box_w box_h gap cy x L.
  assert (Hpaths : Log.paths L
     = map (fun i => [moveTo (x i + box_w + gap / 2 - 4) (cy - 4);
                      lineTo (x i + box_w + gap / 2 - 4) (cy + 4);
                      lineTo (x i + box_w + gap / 2 + 2) cy;
                      close]%Q)
           (seq 0 (pred n))).
  { subst L. rewrite DataFlowDiagram_draw_loop. apply step_loop_paths. }
  split; [rewrite DataFlowDiagram_draw_loop; apply step_loop_outcome |].
  split; [subst L; rewrite DataFlowDiagram_draw_loop; apply step_loop_boxes |].
  split; [subst x; cbn beta; change (inject_Z (Z.of_nat 0)) with 0%Q; lra |].
  split.
  { intros i. subst x. cbn beta.
    rewrite Nat2Z.inj_succ, <- Z.add_1_r, inject_Z_plus.
    change (inject_Z 1) with 1%Q. lra. }
  split.
  { subst n. destruct (Omnifolio.DataFlowDiagram.steps self) as [| s ss] eqn:E;
      [exact I |].
    cbn [List.length]. subst x gap. cbn beta.
    pose proof (len_nonneg ss) as Hk.
    assert (Hlen : (len (s :: ss) == len ss + 1)%Q) by apply len_cons.
    change (inject_Z (Z.of_nat (List.length ss))) with (len ss).
    rewrite Hlen. subst box_w. unfold Omnifolio.DataFlowDiagram.box_w.
    field. lra. }
  split; [subst L; rewrite DataFlowDiagram_draw_loop; apply step_loop_lines |].
  split; [exact Hpaths |].
  rewrite Hpaths, length_map, length_seq. reflexivity.
Qed.

Example DataFlowDiagram_three_steps :
  let self := Omnifolio.DataFlowDiagram.mk 390 64
                [("GOV", "Public Gov. API"); ("PARSE", "OmniFolio Parser");
                 ("SCORE", "Proprietary Algorithm")]%string Omnifolio.ACCENT_PUR in
  map Log.reduced (Log.filled_round_rects (log (Omnifolio.DataFlowDiagram.draw self)))
  = [(30, 12, 90, 40); (150, 12, 90, 40); (270, 12, 90, 40)]%Q
  /\ List.length (Log.paths (log (Omnifolio.DataFlowDiagram.draw self))) = 2%nat.
Proof. split; vm_compute; reflexivity. Qed.

(** *** FeatureGrid *)

Lemma ceil_half (n : nat) :
  Py.ceil (inject_Z (Z.of_nat n) / 2)%Q = Z.of_nat ((n + 1) / 2).
Proof.
  unfold Py.ceil, Qceiling, Qfloor, Qdiv, Qmult, Qinv, Qopp, inject_Z.
  cbn [Qnum Qden]. rewrite Nat2Z.inj_div, Nat2Z.inj_add.
  change (Z.of_nat 1) with 1%Z. change (Z.of_nat 2) with 2%Z.
  change (Z.pos (1 * 2)) with 2%Z. rewrite Z.mul_1_r.
  set (z := Z.of_nat n).
  pose proof (Z.div_mod (- z) 2 ltac:(lia)) as H1.
  pose proof (Z.mod_pos_bound (- z) 2 ltac:(lia)) as H2.
  pose proof (Z.div_mod (z + 1) 2 ltac:(lia)) as H3.
  pose proof (Z.mod_pos_bound (z + 1) 2 ltac:(lia)) as H4.
  lia.
Qed.

Section FeatureGridFacts.
Import Omnifolio.
Local Open Scope Q_scope.

Variable self : FeatureGrid.t.
Variable col_w : Q.

Lemma draw_card_outcome (ft : nat * (string * string)) :
  outcome (FeatureGrid.draw_card self col_w ft) = Ok tt.
Proof. destruct ft as [i [title desc]]. reflexivity. Qed.

Lemma draw_card_boxes (ft : nat * (string * string)) :
  Log.filled_round_rects (log (FeatureGrid.draw_card self col_w ft))
  = [(inject_Z (Z.of_nat (fst ft mod 2)) * (col_w + 8),
      FeatureGrid.height self
      - (inject_Z (Z.of_nat (fst ft / 2)) + 1) * FeatureGrid.row_h + 2,
      col_w,
      FeatureGrid.row_h - 2)].
Proof. destruct ft as [i [title desc]]. reflexivity. Qed.

Lemma card_loop_boxes :
  Log.filled_round_rects
    (log (for_each (enumerate (FeatureGrid.features self))
                   (FeatureGrid.draw_card self col_w)))
  = map (fun i => (inject_Z (Z.of_nat (i mod 2)) * (col_w + 8),
                   FeatureGrid.height self
                   - (inject_Z (Z.of_nat (i / 2)) + 1) * FeatureGrid.row_h + 2,
                   col_w,
                   FeatureGrid.row_h - 2))
        (seq 0 (List.length (FeatureGrid.features self))).
Proof.
  rewrite (proj1 (for_each_log _ _ (fun ft _ => draw_card_outcome ft))).
  unfold Log.filled_round_rects at 1. rewrite flat_map_flat_map.
  fold Log.filled_round_rects.
  rewrite (flat_map_ext _ _ draw_card_boxes).
  unfold enumerate.
  rewrite (flat_map_enumerate
             (fun i => [(inject_Z (Z.of_nat (i mod 2)) * (col_w + 8),
                         FeatureGrid.height self
                         - (inject_Z (Z.of_nat (i / 2)) + 1) * FeatureGrid.row_h + 2,
                         col_w,
                         FeatureGrid.row_h - 2)])).
  apply flat_map_singletons. reflexivity.
Qed.

Lemma draw_card_strings (ft : nat * (string * string)) :
  Log.strings (log (FeatureGrid.draw_card self col_w ft))
  = [(inject_Z (Z.of_nat (fst ft mod 2)) * (col_w + 8) + 22,
      FeatureGrid.height self
      - (inject_Z (Z.of_nat (fst ft / 2)) + 1) * FeatureGrid.row_h + 2 + 22,
      fst (snd ft));
     (inject_Z (Z.of_nat (fst ft mod 2)) * (col_w + 8) + 22,
      FeatureGrid.height self
      - (inject_Z (Z.of_nat (fst ft / 2)) + 1) * FeatureGrid.row_h + 2 + 10,
      snd (snd ft))].
Proof. destruct ft as [i [title desc]]. reflexivity. Qed.

Lemma card_loop_strings :
  Log.strings
    (log (for_each (enumerate (FeatureGrid.features self))
                   (FeatureGrid.draw_card self col_w)))
  = flat_map (fun ft : nat * (string * string) =>
                [(inject_Z (Z.of_nat (fst ft mod 2)) * (col_w + 8) + 22,
                  FeatureGrid.height self
                  - (inject_Z (Z.of_nat (fst ft / 2)) + 1) * FeatureGrid.row_h + 2 + 22,
                  fst (snd ft));
                 (inject_Z (Z.of_nat (fst ft mod 2)) * (col_w + 8) + 22,
                  FeatureGrid.height self
                  - (inject_Z (Z.of_nat (fst ft / 2)) + 1) * FeatureGrid.row_h + 2 + 10,
                  snd (snd ft))])
             (enumerate (FeatureGrid.features self)).
Proof.
  rewrite (proj1 (for_each_log _ _ (fun ft _ => draw_card_outcome ft))).
  unfold Log.strings at 1. rewrite flat_map_flat_map.
  fold Log.strings.
  apply flat_map_ext. apply draw_card_strings.
Qed.

End FeatureGridFacts.

Lemma nth_error_enumerate_from {A : Type} (xs : list A) (k i : nat) (x : A) :
  nth_error xs i = Some x -> nth_error (enumerate_from k xs) i = Some ((k + i)%nat, x).
Proof.
  revert k i. induction xs as [| y xs IH]; intros k i H.
  - destruct i; discriminate H.
  - destruct i as [| i].
    + injection H as ->. cbn. now rewrite Nat.add_0_r.
    + cbn in H. cbn [enumerate_from nth_error]. rewrite (IH (S k) i H).
      f_equal. f_equal. lia.
Qed.

Lemma nth_error_flat_map_pair {A B : Type} (f g : A -> B) (xs : list A) (i : nat) (x : A) :
  nth_error xs i = Some x ->
  nth_error (flat_map (fun a => [f a; g a]) xs) (2 * i) = Some (f x)
  /\ nth_error (flat_map (fun a => [f a; g a]) xs) (2 * i + 1) = Some (g x).
Proof.
  revert i. induction xs as [| y xs IH]; intros i H.
  - destruct i; discriminate H.
  - destruct i as [| i].
    + injection H as ->. split; reflexivity.
    + cbn in H. destruct (IH i H) as [I1 I2].
      replace (2 * S i)%nat with (S (S (2 * i))) by lia.
      replace (S (S (2 * i)) + 1)%nat with (S (S (2 * i + 1))) by lia.
      split; assumption.
Qed.

(** C6, as stated, fails for two features: the measured height is 40,
    not ceil(2/2) x 36 = 36. *)
Lemma C6_counterexample :
  exists self,
    Omnifolio.FeatureGrid.__init__ 400
      [("Persistent Cache", "Seeded into DB once"); ("Infinite Scale", "N concurrent users")]%string
      Omnifolio.ACCENT_AMB = Ok self
    /\ ~ (snd (fst (Omnifolio.FeatureGrid.wrap self []))
          == inject_Z (Py.ceil (2 / 2)) * Omnifolio.FeatureGrid.row_h)%Q.
Proof.
  eexists. split; [reflexivity |].
  intros H. vm_compute in H. discriminate H.
Qed.

(** C6 (amended): a FeatureGrid of n items is laid out in 2 columns in
    row-major order: item i has its card in column i mod 2 and row i div
    2, rows 36 apart counted from the top, each card (W - 8) / 2 wide and
    34 high, and its title and its description are drawn from 22 to the
    right of the card's left edge, the title 22 and the description 10
    above the card's bottom.  The measured height is ceil(n/2) x 36 + 4. *)
Theorem C6_grid_layout (width : Q) (features : list (string * string))
        (accent_color : Color) :
  let n := List.length features in
  let rows := Z.of_nat ((n + 1) / 2) in
  let col_w := ((width - 8) / 2)%Q in
  let bx := fun i : nat => (inject_Z (Z.of_nat (i mod 2)) * (col_w + 8))%Q in
  let by_ := fun i : nat =>
               ((inject_Z rows * 36 + 4) - (inject_Z (Z.of_nat (i / 2)) + 1) * 36 + 2)%Q in
  exists self,
    Omnifolio.FeatureGrid.__init__ width features accent_color = Ok self
    /\ Py.ceil (len features / 2)%Q = rows
    /\ Omnifolio.FeatureGrid.height self = (inject_Z rows * 36 + 4)%Q
    /\ (forall args,
           Omnifolio.FeatureGrid.wrap self args
           = ((width, inject_Z rows * 36 + 4)%Q, self))
    /\ Log.filled_round_rects (log (Omnifolio.FeatureGrid.draw self))
       = map (fun i => (bx i, by_ i, col_w, 36 - 2)%Q) (seq 0 n)
    /\ (forall (i : nat) (title desc : string),
           nth_error features i = Some (title, desc) ->
           nth_error (Log.filled_round_rects (log (Omnifolio.FeatureGrid.draw self))) i
           = Some (bx i, by_ i, col_w, 36 - 2)%Q
           /\ nth_error (Log.strings (log (Omnifolio.FeatureGrid.draw self))) (2 * i)
              = Some (bx i + 22, by_ i + 22, title)%Q
           /\ nth_error (Log.strings (log (Omnifolio.FeatureGrid.draw self))) (2 * i + 1)
              = Some (bx i + 22, by_ i + 10, desc)%Q).
Proof.
  intros n rows col_w bx by_.
  assert (Hrows : Py.ceil (len features / 2)%Q = rows) by apply ceil_half.
  exists (Omnifolio.FeatureGrid.mk width features accent_color (inject_Z rows * 36 + 4)%Q).
  split; [unfold Omnifolio.FeatureGrid.__init__; now rewrite Hrows |].
  split; [exact Hrows |].
  split; [reflexivity |].
  split; [reflexivity |].
  assert (Hboxes : Log.filled_round_rects
                     (log (Omnifolio.FeatureGrid.draw
                             (Omnifolio.FeatureGrid.mk width features accent_color
                                (inject_Z rows * 36 + 4)%Q)))
                   = map (fun i => (bx i, by_ i, col_w, 36 - 2)%Q) (seq 0 n)).
  { unfold Omnifolio.FeatureGrid.draw. rewrite card_loop_boxes. reflexivity. }
  split; [exact Hboxes |].
  intros i title desc Hi.
  assert (Hlt : (i < n)%nat) by (apply nth_error_Some; rewrite Hi; discriminate).
  split.
  - rewrite Hboxes. rewrite nth_error_map, nth_error_seq.
    destruct (Nat.ltb_spec i n) as [_ | Hge]; [reflexivity | lia].
  - unfold Omnifolio.FeatureGrid.draw. rewrite card_loop_strings.
    cbn [Omnifolio.FeatureGrid.features Omnifolio.FeatureGrid.height].
    pose proof (nth_error_enumerate_from features 0 i Hi) as He.
    cbn [Nat.add] in He.
    exact (nth_error_flat_map_pair _ _ _ _ He).
Qed.

(** *** wrap *)

Lemma wrap_unchanged (f : Flowable.t) (args : list pyval) :
  snd (Flowable.wrap f args) = f.
Proof. destruct f; reflexivity. Qed.

Lemma wrap_ignores_arguments (f : Flowable.t) (args1 args2 : list pyval) :
  Flowable.wrap f args1 = Flowable.wrap f args2.
Proof. destruct f; reflexivity. Qed.

(** C9: for each of the eight custom flowables, [wrap] returns a pair
    fixed by the constructor arguments, whatever arguments it is given
    and however often it is called, and leaves the flowable as it was. *)
Theorem C9_wrap_fixed_at_construction :
  (forall (f : Flowable.t) (args1 args2 : list pyval),
      Flowable.wrap f args1 = Flowable.wrap f args2
      /\ snd (Flowable.wrap f args1) = f
      /\ Flowable.wrap (snd (Flowable.wrap f args1)) args2 = Flowable.wrap f args1)
  /\ (forall width args,
         exists self,
           Omnifolio.HeroHeader.__init__ width = Ok self
           /\ Flowable.wrap (Flowable.HeroHeader self) args
              = ((width, 200)%Q, Flowable.HeroHeader self))
  /\ (forall width number title subtitle accent args,
         exists self,
           Omnifolio.SectionBanner.__init__ width number title subtitle accent = Ok self
           /\ Flowable.wrap (Flowable.SectionBanner self) args
              = ((width, 54)%Q, Flowable.SectionBanner self))
  /\ (forall score label color size args,
         exists self,
           Omnifolio.ScoreGauge.__init__ score label color size = Ok self
           /\ Flowable.wrap (Flowable.ScoreGauge self) args
              = (let s := match size with Some s => s | None => 90%Q end in
                 (s, s * 0.7)%Q, Flowable.ScoreGauge self))
  /\ (forall width steps accent args,
         exists self,
           Omnifolio.DataFlowDiagram.__init__ width steps accent = Ok self
           /\ Flowable.wrap (Flowable.DataFlowDiagram self) args
              = ((width, 64)%Q, Flowable.DataFlowDiagram self))
  /\ (forall width components args,
         exists self,
           Omnifolio.ScoreBreakdownBar.__init__ width components = Ok self
           /\ Flowable.wrap (Flowable.ScoreBreakdownBar self) args
              = ((width, 32)%Q, Flowable.ScoreBreakdownBar self))
  /\ (forall width features accent args,
         exists self,
           Omnifolio.FeatureGrid.__init__ width features accent = Ok self
           /\ Flowable.wrap (Flowable.FeatureGrid self) args
              = ((width, inject_Z (Py.ceil (len features / 2)) * 36 + 4)%Q,
                 Flowable.FeatureGrid self))
  /\ (forall w h color radius args,
         exists self,
           Omnifolio.ColoredRect.__init__ w h color radius = Ok self
           /\ Flowable.wrap (Flowable.ColoredRect self) args
              = ((w, h), Flowable.ColoredRect self))
  /\ (forall text bg fg width height args,
         exists self,
           Storage.ColorBadge.__init__ text bg fg width height = Ok self
           /\ Flowable.wrap (Flowable.ColorBadge self) args
              = ((match width with Some w => w | None => 110%Q end,
                  match height with Some h => h | None => 16%Q end),
                 Flowable.ColorBadge self)).
Proof.
  split.
  { intros f args1 args2. split; [apply wrap_ignores_arguments |].
    split; [apply wrap_unchanged |].
    rewrite wrap_unchanged. apply wrap_ignores_arguments. }
  repeat split; intros; eexists; (split; [reflexivity | reflexivity]).
Qed.

(** *** make_table *)

Lemma startswith_spec (p s : string) :
  Py.startswith p s = true <-> exists b, s = (p ++ b)%string.
Proof.
  revert s. induction p as [| a p IH]; intros s; cbn.
  - split; [intros _; now exists s | reflexivity].
  - destruct s as [| c s].
    + split; [discriminate | intros [b Hb]; discriminate Hb].
    + rewrite andb_true_iff, Ascii.eqb_eq, IH. split.
      * intros [-> [b ->]]. now exists b.
      * intros [b Hb]. injection Hb as -> ->. split; [reflexivity | now exists b].
Qed.

Lemma contains_spec (p s : string) :
  Py.contains p s = true <-> exists a b, s = (a ++ p ++ b)%string.
Proof.
  induction s as [| c s IH].
  - cbn. rewrite orb_false_r, startswith_spec. split.
    + intros [b Hb]. now exists EmptyString, b.
    + intros [[| a0 a] [b Hb]]; [now exists b | discriminate Hb].
  - cbn [Py.contains]. rewrite orb_true_iff, startswith_spec, IH. split.
    + intros [[b Hb] | [a [b Hb]]].
      * now exists EmptyString, b.
      * exists (String c a), b. cbn. now rewrite Hb.
    + intros [[| a0 a] [b Hb]].
      * left. now exists b.
      * right. cbn in Hb. injection Hb as -> ->. now exists a, b.
Qed.

Lemma styled_cell_spec (cell : string) :
  exists p,
    Storage.styled_cell cell = Platypus.CellPara p
    /\ Platypus.text p = cell
    /\ (Platypus.style p = Storage.warn_style
        <-> exists a b, cell = (a ++ Storage.WARNING_SIGN ++ b)%string)
    /\ (Platypus.style p = Storage.warn_style \/ Platypus.style p = Storage.body_style).
Proof.
  unfold Storage.styled_cell.
  destruct (Py.contains Storage.WARNING_SIGN cell) eqn:E; eexists;
    (split; [reflexivity |]); (split; [reflexivity |]); cbn [Platypus.style].
  - split; [| now left]. split; [intros _; now apply contains_spec | reflexivity].
  - split; [| now right]. split.
    + intros H. discriminate H.
    + intros H. apply contains_spec in H. rewrite H in E. discriminate E.
Qed.

(** C10: [make_table] renders the body cell in row i, column j with the
    red warning style exactly when its string contains the warning sign
    (U+26A0 U+FE0F), whatever the column, and with the body style
    otherwise; [warn_col] has no effect on the table. *)
Theorem C10_warning_style_by_content
        (headers : list string) (rows : list (list string)) (col_widths : list Q)
        (warn_col : option nat) :
  (forall warn_col' : option nat,
      Storage.make_table headers rows col_widths warn_col
      = Storage.make_table headers rows col_widths warn_col')
  /\ (forall (i j : nat) (row : list string) (cell : string),
         nth_error rows i = Some row ->
         nth_error row j = Some cell ->
         exists p,
           Platypus.cell_at (Storage.make_table headers rows col_widths warn_col) (S i) j
           = Some (Platypus.CellPara p)
           /\ Platypus.text p = cell
           /\ (Platypus.style p = Storage.warn_style
               <-> exists a b, cell = (a ++ Storage.WARNING_SIGN ++ b)%string)
           /\ (Platypus.style p = Storage.warn_style
               \/ Platypus.style p = Storage.body_style)).
Proof.
  split; [reflexivity |].
  intros i j row cell Hrow Hcell.
  destruct (styled_cell_spec cell) as [p [Hp Hrest]].
  exists p. split; [| exact Hrest].
  unfold Platypus.cell_at, Storage.make_table, Platypus.setStyle, Platypus.Table.
  cbn [Platypus.data nth_error].
  rewrite nth_error_map, Hrow. cbn [option_map].
  rewrite nth_error_map, Hcell. cbn [option_map]. now rewrite Hp.
Qed.

Lemma C10_witness :
  let rows := [["sec_filing_sections"; "100-300 MB " ++ Storage.WARNING_SIGN];
               ["sec_watchlist"; "< 5 MB"]]%string in
  exists p,
    Platypus.cell_at (Storage.make_table ["Table"; "12-Month Projection"]%string rows
                        [4.5; 3.6]%Q (Some 0%nat)) 1 1
    = Some (Platypus.CellPara p)
    /\ Platypus.style p = Storage.warn_style.
Proof.
  intros rows.
  destruct (proj2 (C10_warning_style_by_content
                     ["Table"; "12-Month Projection"]%string rows [4.5; 3.6]%Q (Some 0%nat))
                  0%nat 1%nat
                  ["sec_filing_sections"; "100-300 MB " ++ Storage.WARNING_SIGN]%string
                  ("100-300 MB " ++ Storage.WARNING_SIGN)%string
                  eq_refl eq_refl)
    as [p [Hat [_ [Hiff _]]]].
  exists p. split; [exact Hat |].
  apply Hiff. exists "100-300 MB "%string, EmptyString. reflexivity.
Defined.

Example warning_needs_variation_selector :
  Storage.styled_cell (String (ascii_of_nat 226) (String (ascii_of_nat 154)
                         (String (ascii_of_nat 160) " 750 MB")))
  = Platypus.CellPara
      (Platypus.mkParagraph
         (String (ascii_of_nat 226) (String (ascii_of_nat 154)
            (String (ascii_of_nat 160) " 750 MB")))
         Storage.body_style).
Proof. reflexivity. Qed.

(** *** Layout: blocks as trees *)

Lemma ContentBlock_nested_ind (P : Layout.ContentBlock -> Prop) :
  (forall p, P (Layout.Paragraph p)) ->
  (forall w h, P (Layout.Spacer w h)) ->
  (forall th, P (Layout.Rule th)) ->
  (forall t, P (Layout.Table t)) ->
  (forall f, P (Layout.DiagramPanel f)) ->
  (forall cs, Forall P cs -> P (Layout.KeepTogetherGroup cs)) ->
  P Layout.ExplicitPageBreak ->
  forall b, P b.
Proof.
  intros Hp Hs Hr Ht Hd Hg He.
  fix IH 1.
  intros [p | w h | th | t | f | cs |];
    [apply Hp | apply Hs | apply Hr | apply Ht | apply Hd | | apply He].
  apply Hg. revert cs. fix IHcs 1. intros [| c cs].
  - constructor.
  - constructor; [apply IH | apply IHcs].
Qed.

Lemma place_group_cons (m : Layout.Metrics) (g : Layout.PageGeometry) (pg : nat)
      (y : Q) (c : Layout.ContentBlock) (cs : list Layout.ContentBlock) :
  Layout.place m g pg y (Layout.KeepTogetherGroup (c :: cs))
  = Layout.place m g pg y c
    ++ Layout.place m g pg
         (y + snd (Layout.measure m (Layout.usable_width g) c) + Layout.group_gap m)%Q
         (Layout.KeepTogetherGroup cs).
Proof. reflexivity. Qed.

Lemma place_same_page (m : Layout.Metrics) (g : Layout.PageGeometry) (pg : nat)
      (b : Layout.ContentBlock) :
  forall y, Forall (fun p => Layout.pageIndex p = pg) (Layout.place m g pg y b).
Proof.
  induction b as [p | w h | th | t | f | cs IH |] using ContentBlock_nested_ind;
    intros y; try (repeat constructor).
  revert y. induction IH as [| c cs Hc _ IHcs]; intros y.
  - constructor.
  - rewrite place_group_cons. apply Forall_app. split; [apply Hc | apply IHcs].
Qed.

Lemma place_blocks (m : Layout.Metrics) (g : Layout.PageGeometry) (pg : nat)
      (b : Layout.ContentBlock) :
  forall y, map Layout.block (Layout.place m g pg y b) = Layout.leaves b.
Proof.
  induction b as [p | w h | th | t | f | cs IH |] using ContentBlock_nested_ind;
    intros y; try reflexivity.
  revert y. induction IH as [| c cs Hc _ IHcs]; intros y.
  - reflexivity.
  - rewrite place_group_cons, map_app, Hc, IHcs. reflexivity.
Qed.

Lemma place_hero_free (m : Layout.Metrics) (g : Layout.PageGeometry) (pg : nat)
      (b : Layout.ContentBlock) :
  Layout.hero_free b = true ->
  forall y, Forall (fun p => Layout.hero_free (Layout.block p) = true)
                   (Layout.place m g pg y b).
Proof.
  induction b as [p | w h | th | t | f | cs IH |] using ContentBlock_nested_ind;
    intros Hfree y; try (repeat constructor; exact Hfree).
  revert y Hfree. induction IH as [| c cs Hc _ IHcs]; intros y Hfree.
  - constructor.
  - cbn in Hfree. apply andb_true_iff in Hfree as [Hc' Hcs'].
    rewrite place_group_cons. apply Forall_app. split; [now apply Hc | now apply IHcs].
Qed.

Lemma layout_from_app (m : Layout.Metrics) (g : Layout.PageGeometry)
      (xs ys : list Layout.ContentBlock) :
  forall cur,
    Layout.layout_from m g cur (xs ++ ys)
    = Layout.layout_from m g cur xs
      ++ Layout.layout_from m g (Layout.cursor_after m g cur xs) ys.
Proof.
  induction xs as [| x xs IH]; intros cur.
  - reflexivity.
  - cbn [app Layout.layout_from Layout.cursor_after].
    destruct (Layout.step m g cur x) as [ps cur'] eqn:E. cbn [snd].
    rewrite IH, app_assoc. reflexivity.
Qed.

(** The placements of one top-level block inside a whole layout. *)
Lemma layout_decompose (m : Layout.Metrics) (g : Layout.PageGeometry)
      (pre post : list Layout.ContentBlock) (b : Layout.ContentBlock) :
  let cur := Layout.cursor_after m g (Layout.mkCursor 0 0) pre in
  Layout.layout m g (pre ++ b :: post)
  = Layout.layout m g pre
    ++ fst (Layout.step m g cur b)
    ++ Layout.layout_from m g (snd (Layout.step m g cur b)) post.
Proof.
  intros cur. unfold Layout.layout. rewrite layout_from_app. fold cur.
  cbn [Layout.layout_from]. destruct (Layout.step m g cur b); reflexivity.
Qed.

(** *** Layout: tables across pages *)

Lemma chunk_rows_concat (rh : list Platypus.Cell -> Q) (fresh : Q)
      (body : list (list Platypus.Cell)) :
  forall room,
    fst (Layout.chunk_rows rh fresh room body)
    ++ List.concat (snd (Layout.chunk_rows rh fresh room body)) = body.
Proof.
  induction body as [| r rest IH]; intros room.
  - reflexivity.
  - cbn [Layout.chunk_rows]. destruct (Qle_bool (rh r) room).
    + specialize (IH (room - rh r)%Q).
      destruct (Layout.chunk_rows rh fresh (room - rh r) rest) as [c cs].
      cbn in *. now rewrite IH.
    + specialize (IH (fresh - rh r)%Q).
      destruct (Layout.chunk_rows rh fresh (fresh - rh r) rest) as [c cs].
      cbn in *. now rewrite IH.
Qed.

Lemma header_length (t : Platypus.Table_) :
  Layout.body_rows t <> [] ->
  List.length (Layout.header_rows t) = Platypus.repeatRows t.
Proof.
  unfold Layout.body_rows, Layout.header_rows. intros Hbody.
  rewrite length_firstn. apply Nat.min_l.
  destruct (Nat.le_gt_cases (Platypus.repeatRows t) (List.length (Platypus.data t)))
    as [Hle | Hgt]; [exact Hle |].
  exfalso. apply Hbody. apply skipn_all2. lia.
Qed.

Section TableFacts.
Variable m : Layout.Metrics.
Variable g : Layout.PageGeometry.
Variable t : Platypus.Table_.

(** What every placement of [t] must show: a table that starts with the
    header rows of [t] and has the style and columns of [t]. *)
Let keeps_header (p : Layout.Placement) : Prop :=
  exists t',
    Layout.block p = Layout.Table t'
    /\ firstn (Platypus.repeatRows t) (Platypus.data t') = Layout.header_rows t
    /\ Platypus.tstyle t' = Platypus.tstyle t
    /\ Platypus.colWidths t' = Platypus.colWidths t
    /\ Platypus.repeatRows t' = Platypus.repeatRows t.

Let body_shown (p : Layout.Placement) : list (list Platypus.Cell) :=
  skipn (Platypus.repeatRows t) (Layout.rows_of p).

Lemma piece_keeps_header (pg : nat) (o : Q * Q) (rows : list (list Platypus.Cell)) :
  Layout.body_rows t <> [] ->
  keeps_header (Layout.mkPlacement pg (Layout.piece t rows) o)
  /\ body_shown (Layout.mkPlacement pg (Layout.piece t rows) o) = rows.
Proof.
  intros Hbody. pose proof (header_length t Hbody) as Hlen. split.
  - eexists. split; [reflexivity |]. cbn [Platypus.data Platypus.tstyle
      Platypus.colWidths Platypus.repeatRows].
    repeat split.
    rewrite firstn_app, Hlen, Nat.sub_diag, firstn_O, app_nil_r.
    rewrite <- Hlen at 1. apply firstn_all.
  - unfold body_shown, Layout.rows_of, Layout.piece.
    cbn [Layout.block Platypus.data].
    rewrite skipn_app, Hlen, Nat.sub_diag, skipn_O.
    rewrite <- Hlen at 1. now rewrite skipn_all.
Qed.

Lemma whole_keeps_header (pg : nat) (o : Q * Q) :
  keeps_header (Layout.mkPlacement pg (Layout.Table t) o)
  /\ body_shown (Layout.mkPlacement pg (Layout.Table t) o) = Layout.body_rows t.
Proof.
  split; [| reflexivity].
  exists t. repeat split.
Qed.

Lemma place_pieces_spec (pg : nat) (cs : list (list (list Platypus.Cell))) :
  Layout.body_rows t <> [] ->
  Forall keeps_header (Layout.place_pieces g t pg cs)
  /\ List.concat (map body_shown (Layout.place_pieces g t pg cs)) = List.concat cs
  /\ map Layout.pageIndex (Layout.place_pieces g t pg cs) = seq pg (List.length cs).
Proof.
  intros Hbody. revert pg. induction cs as [| c cs IH]; intros pg.
  - repeat split. constructor.
  - destruct (IH (S pg)) as [IH1 [IH2 IH3]].
    destruct (piece_keeps_header pg (Layout.origin_at g 0) c Hbody) as [Hk Hb].
    cbn [Layout.place_pieces]. repeat split.
    + constructor; assumption.
    + cbn [map List.concat]. now rewrite Hb, IH2.
    + cbn [map List.length seq Layout.pageIndex]. now rewrite IH3.
Qed.

Lemma split_table_spec (cur : Layout.Cursor) :
  Layout.body_rows t <> [] ->
  let ps := fst (Layout.split_table m g cur t) in
  Forall keeps_header ps
  /\ List.concat (map body_shown ps) = Layout.body_rows t
  /\ exists pg, map Layout.pageIndex ps = seq pg (List.length ps).
Proof.
  intros Hbody. unfold Layout.split_table.
  pose proof (chunk_rows_concat
                (Layout.row_height m (Platypus.colWidths t))
                (Layout.usable_height g
                 - Layout.rows_height m (Platypus.colWidths t) (Layout.header_rows t))
                (Layout.body_rows t)
                (Layout.usable_height g - Layout.offset cur
                 - Layout.rows_height m (Platypus.colWidths t) (Layout.header_rows t)))
    as Hcat.
  destruct (Layout.chunk_rows _ _ _ (Layout.body_rows t)) as [c0 cs].
  cbn [fst snd] in *.
  destruct (place_pieces_spec (S (Layout.page cur)) cs Hbody) as [H1 [H2 H3]].
  destruct c0 as [| r c0].
  - cbn [app]. cbn [app] in Hcat. repeat split.
    + exact H1.
    + now rewrite H2.
    + exists (S (Layout.page cur)). rewrite H3. f_equal.
      rewrite <- (length_map Layout.pageIndex), H3. now rewrite length_seq.
  - destruct (piece_keeps_header (Layout.page cur)
                (Layout.origin_at g (Layout.offset cur)) (r :: c0) Hbody) as [Hk Hb].
    cbn [app]. repeat split.
    + constructor; assumption.
    + cbn [map List.concat]. now rewrite Hb, H2.
    + exists (Layout.page cur). cbn [map List.length seq Layout.pageIndex].
      rewrite H3. do 2 f_equal.
      rewrite <- (length_map Layout.pageIndex), H3. now rewrite length_seq.
Qed.

Lemma step_table_spec (cur : Layout.Cursor) :
  let ps := fst (Layout.step m g cur (Layout.Table t)) in
  Forall keeps_header ps
  /\ List.concat (map body_shown ps) = Layout.body_rows t
  /\ exists pg, map Layout.pageIndex ps = seq pg (List.length ps).
Proof.
  assert (Hwhole : forall pg o,
             let ps := [Layout.mkPlacement pg (Layout.Table t) o] in
             Forall keeps_header ps
             /\ List.concat (map body_shown ps) = Layout.body_rows t
             /\ exists pg', map Layout.pageIndex ps = seq pg' (List.length ps)).
  { intros pg o. destruct (whole_keeps_header pg o) as [Hk Hb]. repeat split.
    - constructor; [exact Hk | constructor].
    - cbn [map List.concat]. rewrite Hb. apply app_nil_r.
    - exists pg. reflexivity. }
  unfold Layout.step.
  destruct (Layout.gtb _ (Layout.usable_height g - Layout.offset cur)).
  - destruct (Layout.gtb _ (Layout.usable_height g)).
    + destruct (Layout.body_rows t) as [| r rest] eqn:E.
      * apply Hwhole.
      * rewrite <- E. apply split_table_spec. rewrite E. discriminate.
    + apply Hwhole.
  - apply Hwhole.
Qed.

End TableFacts.

(** The summary table of generate-omnifolio-pdf.py is built without
    [repeatRows], so it has no header rows to repeat: on a page that
    holds four rows it spans pages 0 and 1, every row appears once, and
    page 1 starts with the "Earnings Surprises" row. *)
Example stats_table_across_two_pages :
  let ps := Layout.layout sample_metrics sample_page [Layout.Table Omnifolio.stats_table] in
  map Layout.pageIndex ps = [0; 1]%nat
  /\ List.concat (map Layout.rows_of ps) = Omnifolio.stats_data
  /\ map (fun p => firstn 1 (Layout.rows_of p)) ps
     = [firstn 1 Omnifolio.stats_data; firstn 1 (skipn 4 Omnifolio.stats_data)].
Proof.
  intros ps. repeat split; vm_compute; reflexivity.
Qed.

(** C4: a table whose first k rows are its header rows ([repeatRows = k])
    shows those k rows, with the table's own style and columns, at the top
    of every page it is placed on; the pages are consecutive, and the body
    rows, those after the first k, appear exactly once each, in order,
    across those pages.  [make_table] passes [repeatRows = 1]: its header
    is the row of column titles.  The tables of generate-omnifolio-pdf.py
    are built without [repeatRows]: they have no header rows and all
    their rows are body rows. *)
Theorem C4_repeated_rows_on_every_page :
  (forall (m : Layout.Metrics) (g : Layout.PageGeometry) (t : Platypus.Table_)
          (pre post : list Layout.ContentBlock),
      let k := Platypus.repeatRows t in
      let cur := Layout.cursor_after m g (Layout.mkCursor 0 0) pre in
      let ps := fst (Layout.step m g cur (Layout.Table t)) in
      Layout.layout m g (pre ++ Layout.Table t :: post)
      = Layout.layout m g pre ++ ps
        ++ Layout.layout_from m g (snd (Layout.step m g cur (Layout.Table t))) post
      /\ Forall (fun p => exists t',
                     Layout.block p = Layout.Table t'
                     /\ firstn k (Platypus.data t') = firstn k (Platypus.data t)
                     /\ Platypus.tstyle t' = Platypus.tstyle t
                     /\ Platypus.colWidths t' = Platypus.colWidths t
                     /\ Platypus.repeatRows t' = k) ps
      /\ List.concat (map (fun p => skipn k (Layout.rows_of p)) ps)
         = skipn k (Platypus.data t)
      /\ exists pg, map Layout.pageIndex ps = seq pg (List.length ps))
  /\ (forall (headers : list string) (rows : list (list string)) (col_widths : list Q)
             (warn_col : option nat),
         let t := Storage.make_table headers rows col_widths warn_col in
         Platypus.repeatRows t = 1%nat
         /\ Layout.header_rows t
            = [map (fun h => Platypus.CellPara
                               (Platypus.mkParagraph ("<b>" ++ h ++ "</b>")%string
                                                     Storage.caption_style))
                   headers])
  /\ (Platypus.repeatRows Omnifolio.stats_table = 0%nat
      /\ Layout.header_rows Omnifolio.stats_table = []
      /\ Layout.body_rows Omnifolio.stats_table = Omnifolio.stats_data).
Proof.
  split; [| split].
  - intros m g t pre post k cur ps.
    split; [apply layout_decompose |].
    exact (step_table_spec m g t cur).
  - intros headers rows col_widths warn_col t. repeat split.
  - repeat split.
Qed.

(** *** Layout: groups kept together *)

Lemma gtb_false_le (a b : Q) : Layout.gtb a b = false -> (a <= b)%Q.
Proof.
  unfold Layout.gtb. intros H. apply negb_false_iff in H. now apply Qle_bool_iff.
Qed.

Lemma le_gtb_false (a b : Q) : (a <= b)%Q -> Layout.gtb a b = false.
Proof.
  unfold Layout.gtb. intros H. apply negb_false_iff. now apply Qle_bool_iff.
Qed.

Lemma step_group (m : Layout.Metrics) (g : Layout.PageGeometry) (cur : Layout.Cursor)
      (cs : list Layout.ContentBlock) :
  let G := Layout.KeepTogetherGroup cs in
  (Layout.height_of m g G <= Layout.usable_height g)%Q ->
  exists pg y,
    fst (Layout.step m g cur G) = Layout.place m g pg y G
    /\ (y + Layout.height_of m g G <= Layout.usable_height g)%Q
    /\ (pg = Layout.page cur \/ pg = S (Layout.page cur)).
Proof.
  intros G Hfit. unfold Layout.step. fold G.
  destruct (Layout.gtb (Layout.height_of m g G)
                       (Layout.usable_height g - Layout.offset cur)) eqn:E.
  - rewrite (le_gtb_false Hfit). exists (S (Layout.page cur)), 0%Q.
    split; [reflexivity |]. split; [lra | now right].
  - apply gtb_false_le in E. exists (Layout.page cur), (Layout.offset cur).
    split; [reflexivity |]. split; [lra | now left].
Qed.

(** C8: a KeepTogetherGroup whose measured height is at most the usable
    page height is placed whole: wherever it stands in the story, all its
    children (every block under it, in reading order) are placed on one
    and the same page, either the current page or the next one, and the
    group ends within the usable height of that page. *)
Theorem C8_group_on_one_page
        (m : Layout.Metrics) (g : Layout.PageGeometry)
        (pre post : list Layout.ContentBlock) (cs : list Layout.ContentBlock) :
  let G := Layout.KeepTogetherGroup cs in
  let cur := Layout.cursor_after m g (Layout.mkCursor 0 0) pre in
  (Layout.height_of m g G <= Layout.usable_height g)%Q ->
  exists pg y,
    Layout.layout m g (pre ++ G :: post)
    = Layout.layout m g pre
      ++ Layout.place m g pg y G
      ++ Layout.layout_from m g (snd (Layout.step m g cur G)) post
    /\ Forall (fun p => Layout.pageIndex p = pg) (Layout.place m g pg y G)
    /\ map Layout.block (Layout.place m g pg y G) = Layout.leaves G
    /\ (y + Layout.height_of m g G <= Layout.usable_height g)%Q
    /\ (pg = Layout.page cur \/ pg = S (Layout.page cur)).
Proof.
  intros G cur Hfit. subst G.
  destruct (@step_group m g cur cs Hfit) as [pg [y [Hstep [Hend Hpg]]]].
  exists pg, y. split.
  - rewrite <- Hstep. apply layout_decompose.
  - split; [apply place_same_page |]. split; [apply place_blocks |].
    split; assumption.
Qed.

Lemma C8_witness :
  let G := Story.storage_section_1 in
  exists pg y,
    Layout.layout sample_metrics sample_page ([Layout.Spacer 1 60] ++ G :: [])
    = Layout.layout sample_metrics sample_page [Layout.Spacer 1 60]
      ++ Layout.place sample_metrics sample_page pg y G ++ []
    /\ Forall (fun p => Layout.pageIndex p = pg)
              (Layout.place sample_metrics sample_page pg y G).
Proof.
  intros G.
  assert (Hfit : (Layout.height_of sample_metrics sample_page G
                  <= Layout.usable_height sample_page)%Q)
    by (vm_compute; discriminate).
  destruct (@C8_group_on_one_page sample_metrics sample_page
              [Layout.Spacer 1 60] [] _ Hfit)
    as [pg [y [Hlay [Hpage _]]]].
  exists pg, y. split; [exact Hlay | exact Hpage].
Defined.

Example group_moves_to_next_page :
  let G := Layout.KeepTogetherGroup [Layout.Spacer 1 10; Layout.Rule 2; Layout.Spacer 1 30] in
  map Layout.pageIndex
      (Layout.layout sample_metrics sample_page [Layout.Spacer 1 50; G])
  = [0; 1; 1; 1]%nat.
Proof. vm_compute. reflexivity. Qed.

(** *** Determinism and the clock *)

Lemma draw_without_clock (lib : Library) (d1 d2 : date) (f : Flowable.t) :
  Flowable.is_HeroHeader f = false ->
  Flowable.draw lib d1 f = Flowable.draw lib d2 f.
Proof. destruct f; [discriminate | reflexivity ..]. Qed.

Lemma HeroHeader_draw_same_day (lib : Library) (d1 d2 : date)
      (self : Omnifolio.HeroHeader.t) :
  strftime_B_d_Y d1 = strftime_B_d_Y d2 ->
  Omnifolio.HeroHeader.draw lib d1 self = Omnifolio.HeroHeader.draw lib d2 self.
Proof.
  intros H. unfold Omnifolio.HeroHeader.draw. now rewrite H.
Qed.

Lemma draw_panels_hero_free (lib : Library) (d1 d2 : date) (ps : list Layout.Placement) :
  Forall (fun p => Layout.hero_free (Layout.block p) = true) ps ->
  Layout.draw_panels lib d1 ps = Layout.draw_panels lib d2 ps.
Proof.
  induction 1 as [| p ps Hp _ IH]; [reflexivity |].
  unfold Layout.draw_panels in *. cbn [flat_map]. rewrite IH. f_equal.
  destruct (Layout.block p) as [| | | | f | |]; try reflexivity.
  cbn in Hp. apply negb_true_iff in Hp.
  now rewrite (@draw_without_clock lib d1 d2 f Hp).
Qed.

Lemma draw_panels_same_day (lib : Library) (d1 d2 : date) (ps : list Layout.Placement) :
  strftime_B_d_Y d1 = strftime_B_d_Y d2 ->
  Layout.draw_panels lib d1 ps = Layout.draw_panels lib d2 ps.
Proof.
  intros Hd. unfold Layout.draw_panels. apply flat_map_ext. intros p.
  destruct (Layout.block p) as [| | | | f | |]; try reflexivity.
  destruct f; try reflexivity. cbn [Flowable.draw].
  now rewrite (@HeroHeader_draw_same_day lib d1 d2 self Hd).
Qed.

Lemma place_pieces_hero_free (g : Layout.PageGeometry) (t : Platypus.Table_) (pg : nat)
      (cs : list (list (list Platypus.Cell))) :
  Forall (fun p => Layout.hero_free (Layout.block p) = true)
         (Layout.place_pieces g t pg cs).
Proof.
  revert pg. induction cs as [| c cs IH]; intros pg; constructor;
    [reflexivity | apply IH].
Qed.

Lemma split_table_hero_free (m : Layout.Metrics) (g : Layout.PageGeometry)
      (cur : Layout.Cursor) (t : Platypus.Table_) :
  Forall (fun p => Layout.hero_free (Layout.block p) = true)
         (fst (Layout.split_table m g cur t)).
Proof.
  unfold Layout.split_table.
  destruct (Layout.chunk_rows _ _ _ (Layout.body_rows t)) as [c0 cs].
  cbn [fst]. apply Forall_app. split.
  - destruct c0; repeat constructor.
  - apply place_pieces_hero_free.
Qed.

Lemma step_hero_free (m : Layout.Metrics) (g : Layout.PageGeometry)
      (cur : Layout.Cursor) (b : Layout.ContentBlock) :
  Layout.hero_free b = true ->
  Forall (fun p => Layout.hero_free (Layout.block p) = true)
         (fst (Layout.step m g cur b)).
Proof.
  intros Hb.
  assert (Hplace : forall pg y,
             Forall (fun p => Layout.hero_free (Layout.block p) = true)
                    (Layout.place m g pg y b))
    by (intros pg y; now apply place_hero_free).
  unfold Layout.step, Layout.fresh_page.
  destruct b as [p | w h | th | t | f | cs |];
    try (destruct (Layout.gtb _ (Layout.usable_height g - Layout.offset cur));
         [destruct (Layout.gtb _ (Layout.usable_height g)) |];
         cbn [fst]; apply Hplace).
  - destruct (Layout.gtb _ (Layout.usable_height g - Layout.offset cur));
      [destruct (Layout.gtb _ (Layout.usable_height g)) |]; cbn [fst];
      try apply Hplace.
    destruct (Layout.body_rows t); [apply Hplace | apply split_table_hero_free].
  - constructor.
Qed.

Lemma layout_from_hero_free (m : Layout.Metrics) (g : Layout.PageGeometry)
      (blocks : list Layout.ContentBlock) :
  forallb Layout.hero_free blocks = true ->
  forall cur,
    Forall (fun p => Layout.hero_free (Layout.block p) = true)
           (Layout.layout_from m g cur blocks).
Proof.
  induction blocks as [| b bs IH]; intros Hall cur.
  - constructor.
  - cbn in Hall. apply andb_true_iff in Hall as [Hb Hbs].
    cbn [Layout.layout_from].
    pose proof (@step_hero_free m g cur b Hb) as Hstep.
    destruct (Layout.step m g cur b) as [ps cur']. cbn [fst] in Hstep.
    apply Forall_app. split; [exact Hstep | now apply IH].
Qed.

(** C7, as stated, fails: the same HeroHeader, built from the same width,
    draws differently on 3 and on 4 November 2026. *)
Lemma C7_counterexample :
  exists self,
    Omnifolio.HeroHeader.__init__ Omnifolio.W = Ok self
    /\ Flowable.draw sample_library (mkdate 2026 11 3) (Flowable.HeroHeader self)
       <> Flowable.draw sample_library (mkdate 2026 11 4) (Flowable.HeroHeader self).
Proof.
  eexists. split; [reflexivity |].
  intros H. apply (f_equal (fun d => Log.right_strings (log d))) in H.
  vm_compute in H. discriminate H.
Qed.

(** C7 (amended): the draw output of every custom flowable other than
    HeroHeader is the same whatever the date of the run; HeroHeader.draw
    additionally prints the current date, so its output is fixed by the
    constructor input and the date of the run.  The layout does not read
    the clock at all, so two runs over the same blocks and page geometry
    place them identically, and what they draw for the custom flowables
    is identical when the story holds no HeroHeader or when both runs
    happen on the same day. *)
Theorem C7_deterministic_up_to_the_date :
  (forall (lib : Library) (d1 d2 : date) (f : Flowable.t),
      Flowable.is_HeroHeader f = false ->
      Flowable.draw lib d1 f = Flowable.draw lib d2 f)
  /\ (forall (lib : Library) (d1 d2 : date) (f : Flowable.t),
         strftime_B_d_Y d1 = strftime_B_d_Y d2 ->
         Flowable.draw lib d1 f = Flowable.draw lib d2 f)
  /\ (forall (lib : Library) (d : date) (self : Omnifolio.HeroHeader.t),
         Log.right_strings (log (Omnifolio.HeroHeader.draw lib d self))
         = [strftime_B_d_Y d])
  /\ (forall (m : Layout.Metrics) (g : Layout.PageGeometry)
             (blocks : list Layout.ContentBlock) (lib : Library) (d1 d2 : date),
         forallb Layout.hero_free blocks = true ->
         Layout.draw_panels lib d1 (Layout.layout m g blocks)
         = Layout.draw_panels lib d2 (Layout.layout m g blocks))
  /\ (forall (m : Layout.Metrics) (g : Layout.PageGeometry)
             (blocks : list Layout.ContentBlock) (lib : Library) (d1 d2 : date),
         strftime_B_d_Y d1 = strftime_B_d_Y d2 ->
         Layout.draw_panels lib d1 (Layout.layout m g blocks)
         = Layout.draw_panels lib d2 (Layout.layout m g blocks)).
Proof.
  split; [exact draw_without_clock |].
  split.
  { intros lib d1 d2 f Hd. destruct f; try reflexivity.
    now apply HeroHeader_draw_same_day. }
  split; [reflexivity |].
  split.
  - intros m g blocks lib d1 d2 Hfree. apply draw_panels_hero_free.
    now apply layout_from_hero_free.
  - intros m g blocks lib d1 d2 Hd. now apply draw_panels_same_day.
Qed.

Lemma C7_witness :
  let story := [Layout.Spacer 1 18;
                Layout.DiagramPanel
                  (Flowable.ScoreGauge
                     (Omnifolio.ScoreGauge.mk 50 "OIC" Omnifolio.ACCENT_PUR 90));
                Layout.Table Omnifolio.stats_table] in
  Layout.draw_panels sample_library (mkdate 2026 11 3)
                     (Layout.layout sample_metrics sample_page story)
  = Layout.draw_panels sample_library (mkdate 2027 1 15)
                       (Layout.layout sample_metrics sample_page story).
Proof.
  intros story.
  exact (proj1 (proj2 (proj2 (proj2 C7_deterministic_up_to_the_date)))
               sample_metrics sample_page story sample_library
               (mkdate 2026 11 3) (mkdate 2027 1 15) eq_refl).
Defined.

Example storage_cover_follows_the_date :
  Story.storage_cover (mkdate 2026 11 3) <> Story.storage_cover (mkdate 2026 11 4).
Proof. intros H. vm_compute in H. discriminate H. Qed.

Example omnifolio_opening_draws_the_date :
  map (fun r => Log.right_strings (log (snd r)))
      (Layout.draw_panels sample_library (mkdate 2026 11 3)
         (Layout.layout sample_metrics Layout.omnifolio_geometry Story.omnifolio_opening))
  = [["November 03, 2026"%string]].
Proof. vm_compute. reflexivity. Qed.

(** *** The runtime functions on sample inputs *)

Example remove_all_0x : Py.remove_all "0x" "0xa855f7" = "a855f7"%string.
Proof. reflexivity. Qed.

Example zfill_pads_left : Py.zfill 6 "f7" = "0000f7"%string.
Proof. reflexivity. Qed.

Example zfill_keeps_sign_first : Py.zfill 6 "-f7" = "-000f7"%string.
Proof. reflexivity. Qed.

Example slice_middle : Py.slice 2 4 "a855f7" = "55"%string.
Proof. reflexivity. Qed.

Example slice_past_the_end : Py.slice 4 6 "a855f" = "f"%string.
Proof. reflexivity. Qed.

Example str_int_negative : Py.str_int (-25) = "-25"%string.
Proof. reflexivity. Qed.

Example strftime_pads_the_day :
  Py.strftime_B_d_Y (mkdate 2026 11 3) = "November 03, 2026"%string.
Proof. reflexivity. Qed.

Example int_truncates_toward_zero :
  Py.int (-(27 # 10)) = (-2)%Z /\ Py.int (27 # 10) = 2%Z.
Proof. split; reflexivity. Qed.

Example range2_like_python :
  Platypus.range2 2 7 = [2; 4; 6]%nat /\ Platypus.range2 2 2 = [].
Proof. split; reflexivity. Qed.

Example contains_warning_sign :
  Py.contains Storage.WARNING_SIGN ("10-100 GB " ++ Storage.WARNING_SIGN)%string = true
  /\ Py.contains Storage.WARNING_SIGN "< 5 MB" = false.
Proof. split; reflexivity. Qed.

(** *** A table of [make_table] across three pages *)

Example make_table_header_on_each_page :
  let t := Storage.make_table ["Table"; "Avg Row Size"]%string
             [["sec_companies"; "~300 B"]; ["sec_filings"; "~500 B"];
              ["sec_financials"; "~2 KB"]; ["sec_insider_transactions"; "~400 B"];
              ["sec_institutional_holdings"; "~350 B"]; ["sec_watchlist"; "~200 B"];
              ["sec_filing_alerts"; "~300 B"]]%string
             [4.5; 2.2]%Q None in
  let ps := Layout.layout sample_metrics sample_page [Layout.Table t] in
  map Layout.pageIndex ps = [0; 1; 2]%nat
  /\ map (fun p => List.length (Layout.rows_of p)) ps = [4; 4; 2]%nat
  /\ Forall (fun p => firstn 1 (Layout.rows_of p) = Layout.header_rows t) ps.
Proof.
  intros t ps. split; [vm_compute; reflexivity |]. split; [vm_compute; reflexivity |].
  subst ps t. vm_compute. repeat constructor.
Qed.

(** ** Further properties of the scripts *)

(** *** ScoreGauge: the sweep over all scores *)

(** X1: a higher score never gives a smaller sweep, whatever the scores
    (in range or not). *)
Theorem ScoreGauge_sweep_monotone (g1 g2 : Omnifolio.ScoreGauge.t) :
  (Omnifolio.ScoreGauge.score g1 <= Omnifolio.ScoreGauge.score g2)%Q ->
  (Omnifolio.ScoreGauge.angle g1 <= Omnifolio.ScoreGauge.angle g2)%Z.
Proof.
  intros H. unfold Omnifolio.ScoreGauge.angle. apply int_monotone.
  apply ScoreGauge_product_monotone. exact H.
Qed.

Lemma ScoreGauge_sweep_monotone_witness :
  (Omnifolio.ScoreGauge.angle (Omnifolio.ScoreGauge.mk 33 "OIC" Omnifolio.ACCENT_PUR 90)
   <= Omnifolio.ScoreGauge.angle (Omnifolio.ScoreGauge.mk 34 "OIC" Omnifolio.ACCENT_PUR 90))%Z.
Proof.
  apply ScoreGauge_sweep_monotone. vm_compute. discriminate.
Defined.

Lemma ScoreGauge_sweep_up_to (self : Omnifolio.ScoreGauge.t) (hi : Q) :
  (0 <= Omnifolio.ScoreGauge.score self)%Q ->
  (Omnifolio.ScoreGauge.score self <= hi)%Q ->
  (Float64.round hi < Float64.pow2 1024)%Q ->
  (Omnifolio.ScoreGauge.product (Omnifolio.ScoreGauge.mk hi "" white 0)
   < Float64.pow2 1024)%Q ->
  Omnifolio.ScoreGauge.sweep self = Ok (Omnifolio.ScoreGauge.angle self).
Proof.
  intros Hlo Hhi Hb1 Hb2.
  assert (Hc : (1 <= Omnifolio.ScoreGauge.one_point_eight)%Q)
    by (destruct one_point_eight_bounds as [Hc _]; lra).
  assert (Hr0 : (0 <= Float64.round (Omnifolio.ScoreGauge.score self))%Q)
    by (apply round_nonneg; exact Hlo).
  assert (Hr1 : (Float64.round (Omnifolio.ScoreGauge.score self) <= Float64.round hi)%Q)
    by (apply round_mono; exact Hhi).
  assert (Hp0 : (0 <= Omnifolio.ScoreGauge.product self)%Q).
  { unfold Omnifolio.ScoreGauge.product. apply round_nonneg.
    apply Qmult_le_0_compat; [exact Hr0 | lra]. }
  assert (Hp1 : (Omnifolio.ScoreGauge.product self
                 <= Omnifolio.ScoreGauge.product (Omnifolio.ScoreGauge.mk hi "" white 0))%Q)
    by (apply ScoreGauge_product_monotone; exact Hhi).
  unfold Omnifolio.ScoreGauge.sweep.
  rewrite (@in_range_of_bound (Float64.round (Omnifolio.ScoreGauge.score self))
             (Float64.round hi)),
          (@in_range_of_bound (Omnifolio.ScoreGauge.product self)
             (Omnifolio.ScoreGauge.product (Omnifolio.ScoreGauge.mk hi "" white 0)));
    try assumption.
  - reflexivity.
  - apply Qabs_Qle_condition. split; lra.
  - apply Qabs_Qle_condition. split; lra.
Qed.

(** X2: the track is always drawn.  For every score up to
    0.5555555555555555, the double next below 5/9 (the negative scores
    and those under the double range included), the gauge draws the
    track alone; for every score from 0.5555555555555556, the double
    next above 5/9, up to a million (so also beyond 100) it draws the
    track and one filled arc of at least one degree.  No double lies
    between the two. *)
Theorem ScoreGauge_fill_arc_threshold (lib : Library) (self : Omnifolio.ScoreGauge.t) :
  let below := (5003999585967217 # 9007199254740992)%Q in
  let above := (2501999792983609 # 4503599627370496)%Q in
  ((Omnifolio.ScoreGauge.score self <= below)%Q ->
   Log.arc_extents (log (Omnifolio.ScoreGauge.draw lib self)) = [180%Q])
  /\ ((above <= Omnifolio.ScoreGauge.score self)%Q ->
      (Omnifolio.ScoreGauge.score self <= 1000000)%Q ->
      Omnifolio.ScoreGauge.sweep self = Ok (Omnifolio.ScoreGauge.angle self)
      /\ (1 <= Omnifolio.ScoreGauge.angle self)%Z
      /\ Log.arc_extents (log (Omnifolio.ScoreGauge.draw lib self))
         = [180%Q; inject_Z (Omnifolio.ScoreGauge.angle self)])
  /\ (Float64.round below = below /\ Float64.round above = above
      /\ (above - below == Float64.ulp below)%Q
      /\ (below < 5 # 9)%Q /\ (5 # 9 < above)%Q).
Proof.
  intros below above. split; [| split].
  - intros H. rewrite ScoreGauge_arcs.
    destruct (ScoreGauge_sweep_cases self) as [Hs | Hs]; rewrite Hs; [| reflexivity].
    pose proof (@ScoreGauge_angle_monotone self
                  (Omnifolio.ScoreGauge.mk below "" white 0) H) as Hm.
    assert (H0 : Omnifolio.ScoreGauge.angle (Omnifolio.ScoreGauge.mk below "" white 0) = 0%Z)
      by (vm_compute; reflexivity).
    rewrite H0 in Hm.
    destruct (Z.ltb_spec 0 (Omnifolio.ScoreGauge.angle self)); [lia | reflexivity].
  - intros Hlo Hhi.
    assert (Hs : Omnifolio.ScoreGauge.sweep self = Ok (Omnifolio.ScoreGauge.angle self)).
    { apply ScoreGauge_sweep_up_to with (hi := 1000000).
      - apply Qle_trans with above; [vm_compute; discriminate | exact Hlo].
      - exact Hhi.
      - vm_compute. reflexivity.
      - vm_compute. reflexivity. }
    pose proof (@ScoreGauge_angle_monotone (Omnifolio.ScoreGauge.mk above "" white 0)
                  self Hlo) as Hm.
    assert (H1 : Omnifolio.ScoreGauge.angle (Omnifolio.ScoreGauge.mk above "" white 0) = 1%Z)
      by (vm_compute; reflexivity).
    rewrite H1 in Hm.
    split; [exact Hs |]. split; [exact Hm |].
    rewrite ScoreGauge_arcs, Hs.
    destruct (Z.ltb_spec 0 (Omnifolio.ScoreGauge.angle self)); [reflexivity | lia].
  - repeat split; vm_compute; reflexivity.
Qed.

Lemma ScoreGauge_fill_arc_threshold_witness :
  Log.arc_extents
    (log (Omnifolio.ScoreGauge.draw sample_library
            (Omnifolio.ScoreGauge.mk (-20) "OLI" Omnifolio.ACCENT_AMB 90)))
  = [180%Q].
Proof.
  apply (proj1 (ScoreGauge_fill_arc_threshold sample_library
                  (Omnifolio.ScoreGauge.mk (-20) "OLI" Omnifolio.ACCENT_AMB 90))).
  vm_compute. discriminate.
Defined.

Lemma Qhalf (x : Q) : (x / 2 == x * (1 # 2))%Q.
Proof. field. Qed.

Lemma ScoreGauge_arc_boxes (lib : Library) (self : Omnifolio.ScoreGauge.t) :
  let s := Omnifolio.ScoreGauge.size self in
  let box := (s / 2 - s * 0.38, s * 0.22 - s * 0.38, s / 2 + s * 0.38, s * 0.22 + s * 0.38)%Q in
  Shapes.arc_boxes (log (Omnifolio.ScoreGauge.draw lib self))
  = match Omnifolio.ScoreGauge.sweep self with
    | Ok a => if (0 <? a)%Z then [box; box] else [box]
    | Raise _ => [box]
    end.
Proof.
  unfold Omnifolio.ScoreGauge.draw.
  destruct (Omnifolio.ScoreGauge.sweep self) as [a | e]; [| reflexivity].
  destruct (0 <? a)%Z eqn:E; cbn; rewrite E; reflexivity.
Qed.

Lemma ScoreGauge_arc_angles (lib : Library) (self : Omnifolio.ScoreGauge.t) :
  Shapes.arc_angles (log (Omnifolio.ScoreGauge.draw lib self))
  = match Omnifolio.ScoreGauge.sweep self with
    | Ok a => if (0 <? a)%Z then [(0, 180); (0, inject_Z a)]%Q else [(0, 180)%Q]
    | Raise _ => [(0, 180)%Q]
    end.
Proof.
  unfold Omnifolio.ScoreGauge.draw.
  destruct (Omnifolio.ScoreGauge.sweep self) as [a | e]; [| reflexivity].
  destruct (0 <? a)%Z eqn:E; cbn; rewrite E; reflexivity.
Qed.

(** X3: a gauge of size 40 or more with a score in [0,100] keeps both
    arcs, stroke included (8 wide, so 4 on either side), inside the box
    that [wrap] reports.  Each arc starts at 0 degrees and sweeps at most
    180, so it stays on the upper half of its circle; that half spans
    from 4 inside the left edge to 4 inside the right one at the least,
    its base is at least 4 above the bottom and its top at least 4 below
    the reported height. *)
Theorem ScoreGauge_arcs_inside_wrap_box (lib : Library) (self : Omnifolio.ScoreGauge.t) :
  (40 <= Omnifolio.ScoreGauge.size self)%Q ->
  (0 <= Omnifolio.ScoreGauge.score self)%Q ->
  (Omnifolio.ScoreGauge.score self <= 100)%Q ->
  let w := fst (fst (Omnifolio.ScoreGauge.wrap self [])) in
  let h := snd (fst (Omnifolio.ScoreGauge.wrap self [])) in
  Forall (fun b : Q * Q * Q * Q =>
            let '(x1, y1, x2, y2) := b in
            (0 <= x1 - 4 /\ x2 + 4 <= w
             /\ 0 <= (y1 + y2) / 2 - 4 /\ y2 + 4 <= h)%Q)
         (Shapes.arc_boxes (log (Omnifolio.ScoreGauge.draw lib self)))
  /\ Forall (fun a : Q * Q => (fst a == 0 /\ 0 <= snd a /\ snd a <= 180)%Q)
            (Shapes.arc_angles (log (Omnifolio.ScoreGauge.draw lib self))).
Proof.
  intros Hs Hlo Hhi w h.
  destruct (ScoreGauge_in_range self Hlo Hhi) as [_ [_ Hsw]].
  pose proof (ScoreGauge_angle_range self Hlo Hhi) as [Ha0 Ha1].
  rewrite ScoreGauge_arc_boxes, ScoreGauge_arc_angles, Hsw.
  assert (Hbox : let s := Omnifolio.ScoreGauge.size self in
                 (0 <= s / 2 - s * 0.38 - 4
                  /\ s / 2 + s * 0.38 + 4 <= w
                  /\ 0 <= (s * 0.22 - s * 0.38 + (s * 0.22 + s * 0.38)) / 2 - 4
                  /\ s * 0.22 + s * 0.38 + 4 <= h)%Q).
  { subst w h. unfold Omnifolio.ScoreGauge.wrap. cbn [fst snd]. cbv zeta.
    rewrite !Qhalf. repeat split; lra. }
  assert (Hang : (0 <= inject_Z (Omnifolio.ScoreGauge.angle self)
                  /\ inject_Z (Omnifolio.ScoreGauge.angle self) <= 180)%Q).
  { split.
    - change 0%Q with (inject_Z 0). rewrite <- Zle_Qle. exact Ha0.
    - change 180%Q with (inject_Z 180). rewrite <- Zle_Qle. exact Ha1. }
  split.
  - destruct (0 <? Omnifolio.ScoreGauge.angle self)%Z; repeat constructor; apply Hbox.
  - destruct (0 <? Omnifolio.ScoreGauge.angle self)%Z; repeat constructor;
      cbn [fst snd]; try apply Hang; try reflexivity; try discriminate.
Qed.

Lemma ScoreGauge_arcs_inside_wrap_box_witness :
  Forall (fun a : Q * Q => (fst a == 0 /\ 0 <= snd a /\ snd a <= 180)%Q)
         (Shapes.arc_angles
            (log (Omnifolio.ScoreGauge.draw sample_library
                    (Omnifolio.ScoreGauge.mk 72 "OGI" Omnifolio.ACCENT_GRN 90)))).
Proof.
  apply (@ScoreGauge_arcs_inside_wrap_box sample_library
           (Omnifolio.ScoreGauge.mk 72 "OGI" Omnifolio.ACCENT_GRN 90));
    vm_compute; discriminate.
Defined.

(** *** ScoreBreakdownBar: when the division by the total fails *)

(** X5: drawing a bar raises ZeroDivisionError only when it has at least
    one component and the total of the weights, as [sum] computes it on
    the doubles, is zero; when the first weight is a float or an int
    within the double range that is also sufficient, and the drawing
    stops before any canvas call.  Weights 0.5 and -0.5 cancel and the
    drawing raises; 0.1, 0.2 and -0.3 do not cancel on the doubles, the
    total is not zero and no ZeroDivisionError is raised. *)
Theorem ScoreBreakdownBar_draw_raises_iff :
  (forall self : Omnifolio.ScoreBreakdownBar.t,
      outcome (Omnifolio.ScoreBreakdownBar.draw self) = Raise ZeroDivisionError ->
      exists t, Omnifolio.ScoreBreakdownBar.total self = Ok t
                /\ Num.is_zero t = true
                /\ Omnifolio.ScoreBreakdownBar.components self <> [])
  /\ (forall (self : Omnifolio.ScoreBreakdownBar.t) (t : Num.t)
             (c : Omnifolio.ScoreBreakdownBar.component)
             (rest : list Omnifolio.ScoreBreakdownBar.component) (x : Float64.t),
         Omnifolio.ScoreBreakdownBar.total self = Ok t ->
         Num.is_zero t = true ->
         Omnifolio.ScoreBreakdownBar.components self = c :: rest ->
         Num.to_float (snd (fst c)) = Ok x ->
         Omnifolio.ScoreBreakdownBar.draw self = ([], Raise ZeroDivisionError))
  /\ Omnifolio.ScoreBreakdownBar.draw
       (Omnifolio.ScoreBreakdownBar.mk 300 32
          [("SM"%string, Num.literal 0.5, Omnifolio.ACCENT_AMB);
           ("IB"%string, Num.literal (-0.5), Omnifolio.ACCENT_GRN)])
     = ([], Raise ZeroDivisionError)
  /\ (let self := Omnifolio.ScoreBreakdownBar.mk 300 32
                    [("SM"%string, Num.literal 0.1, Omnifolio.ACCENT_AMB);
                     ("IB"%string, Num.literal 0.2, Omnifolio.ACCENT_GRN);
                     ("CB"%string, Num.literal (-0.3), Omnifolio.ACCENT_BLUE)] in
      (exists t, Omnifolio.ScoreBreakdownBar.total self = Ok t /\ Num.positive t = true)
      /\ outcome (Omnifolio.ScoreBreakdownBar.draw self) <> Raise ZeroDivisionError).
Proof.
  split; [| split; [| split]].
  - intros self H. now apply ScoreBreakdownBar_zero_division.
  - intros self t c rest x Ht Hz Hc Hx.
    destruct (@ScoreBreakdownBar_zero_total self t c rest Ht Hz Hc)
      as [Hd | [_ [m [f [Hm [_ Ho]]]]]]; [exact Hd |].
    rewrite Hm in Hx. cbn in Hx. rewrite Ho in Hx. discriminate Hx.
  - vm_compute. reflexivity.
  - intros self. split.
    + eexists. split; vm_compute; reflexivity.
    + intros H. apply ScoreBreakdownBar_zero_division in H.
      destruct H as [t [Ht [Hz _]]].
      assert (Ht' : exists t', Omnifolio.ScoreBreakdownBar.total self = Ok t'
                               /\ Num.is_zero t' = false)
        by (eexists; split; vm_compute; reflexivity).
      destruct Ht' as [t' [Ht' Hz']]. rewrite Ht in Ht'. injection Ht' as <-.
      rewrite Hz in Hz'. discriminate Hz'.
Qed.

(** *** Which flowable can divide by zero *)

Lemma HeroHeader_draw_ok (lib : Library) (today : date) (self : Omnifolio.HeroHeader.t) :
  outcome (Omnifolio.HeroHeader.draw lib today self) = Ok tt.
Proof. reflexivity. Qed.

Lemma DataFlowDiagram_draw_ok (self : Omnifolio.DataFlowDiagram.t) :
  outcome (Omnifolio.DataFlowDiagram.draw self) = Ok tt.
Proof. rewrite DataFlowDiagram_draw_loop. apply step_loop_outcome. Qed.

Lemma FeatureGrid_draw_ok (self : Omnifolio.FeatureGrid.t) :
  outcome (Omnifolio.FeatureGrid.draw self) = Ok tt.
Proof.
  unfold Omnifolio.FeatureGrid.draw. apply for_each_log.
  intros ft _. apply draw_card_outcome.
Qed.

(** *** SectionBanner: the accent colour read back from its hex string *)

Section SectionBannerFacts.
Import Omnifolio.
Local Open Scope Q_scope.

Variable lib : Library.
Variable self : SectionBanner.t.

Let hex_str : string := zfill 6 (remove_all "0x" (hexval lib (SectionBanner.accent self))).
Let started : list op :=
  [setFillColor SURFACE;
   roundRect 0 0 (SectionBanner.width self) (SectionBanner.height self) 6 true false;
   setFillColor (SectionBanner.accent self);
   roundRect 0 0 5 (SectionBanner.height self) 3 true false].

Lemma SectionBanner_draw_cases :
  match int16 lib (slice 0 2 hex_str), int16 lib (slice 2 4 hex_str),
        int16 lib (slice 4 6 hex_str) with
  | Ok r, Ok g, Ok b =>
      outcome (SectionBanner.draw lib self) = Ok tt
      /\ Shapes.rgb_fills (log (SectionBanner.draw lib self))
         = [(inject_Z r / 255, inject_Z g / 255, inject_Z b / 255, 0.15)]
      /\ List.length (log (SectionBanner.draw lib self)) = 15%nat
  | Raise e, _, _ | Ok _, Raise e, _ | Ok _, Ok _, Raise e =>
      SectionBanner.draw lib self = (started, Raise e)
  end.
Proof.
  unfold SectionBanner.draw. fold hex_str.
  destruct (int16 lib (slice 0 2 hex_str)) as [r | e]; [| reflexivity].
  destruct (int16 lib (slice 2 4 hex_str)) as [g | e]; [| reflexivity].
  destruct (int16 lib (slice 4 6 hex_str)) as [b | e]; [| reflexivity].
  repeat split.
Qed.

Lemma SectionBanner_raise_from_int16 (e : exn) :
  outcome (SectionBanner.draw lib self) = Raise e ->
  exists s, int16 lib s = Raise e.
Proof.
  pose proof SectionBanner_draw_cases as H.
  destruct (int16 lib (slice 0 2 hex_str)) as [r | e1] eqn:E1.
  - destruct (int16 lib (slice 2 4 hex_str)) as [g | e2] eqn:E2.
    + destruct (int16 lib (slice 4 6 hex_str)) as [b | e3] eqn:E3.
      * destruct H as [Hok _]. rewrite Hok. discriminate.
      * rewrite H. cbn. intros Hx. injection Hx as <-. eexists. exact E3.
    + rewrite H. cbn. intros Hx. injection Hx as <-. eexists. exact E2.
  - rewrite H. cbn. intros Hx. injection Hx as <-. eexists. exact E1.
Qed.

End SectionBannerFacts.

(** X6: of the eight custom flowables only a ScoreBreakdownBar can raise
    ZeroDivisionError while drawing, and only when it has components and
    their total is zero: every other division in a draw method is by a
    constant or by a count that is at least one.  (The one library call
    that can fail, int(_, 16), raises ValueError.) *)
Theorem zero_division_only_in_a_bar
        (lib : Library) (today : date) (f : Flowable.t) :
  (forall s, int16 lib s <> Raise ZeroDivisionError) ->
  outcome (Flowable.draw lib today f) = Raise ZeroDivisionError ->
  exists bar t,
    f = Flowable.ScoreBreakdownBar bar
    /\ Omnifolio.ScoreBreakdownBar.total bar = Ok t
    /\ Num.is_zero t = true
    /\ Omnifolio.ScoreBreakdownBar.components bar <> [].
Proof.
  intros Hlib.
  destruct f as [x | x | x | x | x | x | x | x]; cbn [Flowable.draw]; intros H.
  - rewrite HeroHeader_draw_ok in H. discriminate H.
  - destruct (@SectionBanner_raise_from_int16 lib x _ H) as [s Hs].
    exfalso. exact (Hlib s Hs).
  - rewrite ScoreGauge_outcome in H.
    destruct (ScoreGauge_sweep_cases x) as [Hs | Hs]; rewrite Hs in H; discriminate H.
  - rewrite DataFlowDiagram_draw_ok in H. discriminate H.
  - destruct (@ScoreBreakdownBar_zero_division x H) as [t Ht].
    exists x, t. split; [reflexivity | exact Ht].
  - rewrite FeatureGrid_draw_ok in H. discriminate H.
  - discriminate H.
  - discriminate H.
Qed.

Lemma zero_division_only_in_a_bar_witness :
  exists bar t,
    Flowable.ScoreBreakdownBar
      (Omnifolio.ScoreBreakdownBar.mk 300 32
         [("NPR"%string, Num.Int 0, Omnifolio.ACCENT_INDIGO)])
    = Flowable.ScoreBreakdownBar bar
    /\ Omnifolio.ScoreBreakdownBar.total bar = Ok t
    /\ Num.is_zero t = true
    /\ Omnifolio.ScoreBreakdownBar.components bar <> [].
Proof.
  apply (@zero_division_only_in_a_bar hex_library (mkdate 2026 11 3)).
  - intros s. cbn. unfold Hex.int16. destruct s; [discriminate |].
    destruct (Hex.value_from 0 _); discriminate.
  - vm_compute. reflexivity.
Defined.

(** *** The strings handed to int(_, 16) *)

Lemma length_append (a b : string) :
  String.length (a ++ b) = (String.length a + String.length b)%nat.
Proof. induction a as [| c a IH]; cbn; [reflexivity | now rewrite IH]. Qed.

Lemma length_zeros (n : nat) : String.length (zeros n) = n.
Proof. induction n as [| n IH]; cbn; [reflexivity | now rewrite IH]. Qed.

Lemma length_zfill (width : nat) (s : string) :
  String.length (zfill width s) = Nat.max width (String.length s).
Proof.
  unfold zfill. destruct s as [| c s].
  - rewrite length_zeros. cbn. lia.
  - destruct (Ascii.eqb c "+" || Ascii.eqb c "-"); cbn [String.length];
      rewrite length_append, length_zeros; cbn [String.length]; lia.
Qed.

Lemma length_substring (n m : nat) (s : string) :
  (n + m <= String.length s)%nat -> String.length (String.substring n m s) = m.
Proof.
  revert n m. induction s as [| c s IH]; intros n m H.
  - cbn in H. assert (n = 0 /\ m = 0)%nat as [-> ->] by lia. reflexivity.
  - destruct n as [| n].
    + destruct m as [| m]; [reflexivity |]. cbn in *. f_equal. apply (IH 0%nat). lia.
    + cbn in *. apply IH. lia.
Qed.

(** Six characters other than x after the prefix 0x: removing the prefix
    and padding to six gives the six characters back. *)
Lemma hex_str_of_six_characters (c1 c2 c3 c4 c5 c6 : ascii) :
  Forall (fun c => c <> "x"%char) [c1; c2; c3; c4; c5; c6] ->
  let digits := String c1 (String c2 (String c3 (String c4 (String c5 (String c6 ""))))) in
  zfill 6 (remove_all "0x" (String "0" (String "x" digits))) = digits.
Proof.
  intros Hx digits.
  assert (Hno : forall c, In c [c1; c2; c3; c4; c5; c6] -> Ascii.eqb "x" c = false).
  { intros c Hc. apply Ascii.eqb_neq. intros Heq.
    apply (proj1 (Forall_forall _ _) Hx c Hc). now symmetry. }
  assert (H1 := Hno c1 ltac:(cbn; tauto)). assert (H2 := Hno c2 ltac:(cbn; tauto)).
  assert (H3 := Hno c3 ltac:(cbn; tauto)). assert (H4 := Hno c4 ltac:(cbn; tauto)).
  assert (H5 := Hno c5 ltac:(cbn; tauto)). assert (H6 := Hno c6 ltac:(cbn; tauto)).
  assert (Hrem : remove_all "0x" (String "0" (String "x" digits)) = digits).
  { subst digits. unfold remove_all.
    cbn [remove_all_fuel startswith String.length drop].
    change (Ascii.eqb "0" "0") with true. change (Ascii.eqb "x" "x") with true.
    cbn [andb remove_all_fuel startswith String.length drop].
    rewrite H2, H3, H4, H5, H6. cbn [andb]. rewrite !andb_false_r. reflexivity. }
  rewrite Hrem. subst digits. unfold zfill.
  cbn [String.length Nat.sub zeros append].
  destruct (Ascii.eqb c1 "+" || Ascii.eqb c1 "-"); reflexivity.
Qed.

(** A hexadecimal digit keeps its value in lower case, and is not x. *)
Lemma digit_lower (c : ascii) (d : Z) :
  Hex.digit c = Some d ->
  Hex.digit (Hex.lower c) = Some d /\ Hex.lower c <> "x"%char /\ (0 <= d <= 15)%Z.
Proof.
  destruct c as [b0 b1 b2 b3 b4 b5 b6 b7].
  destruct b0, b1, b2, b3, b4, b5, b6, b7; vm_compute; intros H;
    try discriminate H; injection H as <-;
    (split; [reflexivity | split; [discriminate | split; discriminate]]).
Qed.

Lemma int16_of_a_pair (a b : ascii) (x y : Z) :
  Hex.digit a = Some x -> Hex.digit b = Some y ->
  Hex.int16 (String a (String b "")) = Ok (16 * x + y)%Z.
Proof.
  intros Ha Hb. unfold Hex.int16. cbn [Hex.value_from]. rewrite Ha, Hb.
  f_equal; try lia.
Qed.

(** X7: a SectionBanner draws completely exactly when all three colour
    components parse, and then the badge is filled with the three parsed
    values over 255 at 15% opacity; when one does not parse, draw raises
    that error after the background and the accent bar are already on
    the canvas, and nothing else of the banner (badge, number, title,
    subtitle) is drawn.  With colours read as ReportLab reads them, an
    accent written # and six hexadecimal digits always parses, and the
    badge is filled with the accent itself: red, green and blue are the
    values of its three digit pairs over 255. *)
Theorem SectionBanner_draw_stops_half_way
        (lib : Library) (self : Omnifolio.SectionBanner.t) :
  let hex_str := zfill 6 (remove_all "0x" (hexval lib (Omnifolio.SectionBanner.accent self))) in
  (outcome (Omnifolio.SectionBanner.draw lib self) = Ok tt
   <-> exists r g b,
         int16 lib (slice 0 2 hex_str) = Ok r
         /\ int16 lib (slice 2 4 hex_str) = Ok g
         /\ int16 lib (slice 4 6 hex_str) = Ok b)
  /\ (forall r g b,
         int16 lib (slice 0 2 hex_str) = Ok r ->
         int16 lib (slice 2 4 hex_str) = Ok g ->
         int16 lib (slice 4 6 hex_str) = Ok b ->
         Shapes.rgb_fills (log (Omnifolio.SectionBanner.draw lib self))
         = [(inject_Z r / 255, inject_Z g / 255, inject_Z b / 255, 0.15)%Q])
  /\ (forall e,
         outcome (Omnifolio.SectionBanner.draw lib self) = Raise e ->
         log (Omnifolio.SectionBanner.draw lib self)
         = [setFillColor Omnifolio.SURFACE;
            roundRect 0 0 (Omnifolio.SectionBanner.width self)
                      (Omnifolio.SectionBanner.height self) 6 true false;
            setFillColor (Omnifolio.SectionBanner.accent self);
            roundRect 0 0 5 (Omnifolio.SectionBanner.height self) 3 true false])
  /\ (forall (c1 c2 c3 c4 c5 c6 : ascii) (d1 d2 d3 d4 d5 d6 : Z),
         Omnifolio.SectionBanner.accent self
         = HexColor (String "#" (String c1 (String c2 (String c3
                       (String c4 (String c5 (String c6 ""))))))) ->
         Forall2 (fun c d => Hex.digit c = Some d)
                 [c1; c2; c3; c4; c5; c6] [d1; d2; d3; d4; d5; d6] ->
         outcome (Omnifolio.SectionBanner.draw hex_library self) = Ok tt
         /\ Shapes.rgb_fills (log (Omnifolio.SectionBanner.draw hex_library self))
            = [(inject_Z (16 * d1 + d2) / 255, inject_Z (16 * d3 + d4) / 255,
                inject_Z (16 * d5 + d6) / 255, 0.15)%Q]).
Proof.
  intros hex_str. split; [| split; [| split]].
  1-3: pose proof (SectionBanner_draw_cases lib self) as H; fold hex_str in H;
    destruct (int16 lib (slice 0 2 hex_str)) as [r | e1];
    [destruct (int16 lib (slice 2 4 hex_str)) as [g | e2];
     [destruct (int16 lib (slice 4 6 hex_str)) as [b | e3] |] |].
  - destruct H as [Hok _]. rewrite Hok.
    split; [intros _; now exists r, g, b | reflexivity].
  - rewrite H. cbn [outcome log fst snd].
    split; [discriminate | intros [r' [g' [b' [_ [_ Hb]]]]]; discriminate Hb].
  - rewrite H. cbn [outcome log fst snd].
    split; [discriminate | intros [r' [g' [b' [_ [Hg _]]]]]; discriminate Hg].
  - rewrite H. cbn [outcome log fst snd].
    split; [discriminate | intros [r' [g' [b' [Hr _]]]]; discriminate Hr].
  - destruct H as [_ [Hrgb _]].
    intros r' g' b' Hr Hg Hb. injection Hr as <-. injection Hg as <-.
    injection Hb as <-. exact Hrgb.
  - intros r' g' b' _ _ Hb. discriminate Hb.
  - intros r' g' b' _ Hg. discriminate Hg.
  - intros r' g' b' Hr. discriminate Hr.
  - destruct H as [Hok _]. intros e He. rewrite Hok in He. discriminate He.
  - intros e _. rewrite H. reflexivity.
  - intros e _. rewrite H. reflexivity.
  - intros e _. rewrite H. reflexivity.
  - clear hex_str. intros c1 c2 c3 c4 c5 c6 d1 d2 d3 d4 d5 d6 Hacc Hd.
    inversion Hd as [| ? ? ? ? D1 Hd1]; subst.
    inversion Hd1 as [| ? ? ? ? D2 Hd2]; subst.
    inversion Hd2 as [| ? ? ? ? D3 Hd3]; subst.
    inversion Hd3 as [| ? ? ? ? D4 Hd4]; subst.
    inversion Hd4 as [| ? ? ? ? D5 Hd5]; subst.
    inversion Hd5 as [| ? ? ? ? D6 Hd6]; subst.
    destruct (@digit_lower _ _ D1) as [L1 [N1 _]]. destruct (@digit_lower _ _ D2) as [L2 [N2 _]].
    destruct (@digit_lower _ _ D3) as [L3 [N3 _]]. destruct (@digit_lower _ _ D4) as [L4 [N4 _]].
    destruct (@digit_lower _ _ D5) as [L5 [N5 _]]. destruct (@digit_lower _ _ D6) as [L6 [N6 _]].
    pose proof (SectionBanner_draw_cases hex_library self) as H.
    rewrite Hacc in H.
    change (hexval hex_library (HexColor (String "#" (String c1 (String c2 (String c3
                       (String c4 (String c5 (String c6 "")))))))))
      with (String "0" (String "x" (String (Hex.lower c1) (String (Hex.lower c2)
              (String (Hex.lower c3) (String (Hex.lower c4) (String (Hex.lower c5)
              (String (Hex.lower c6) "")))))))) in H.
    rewrite (@hex_str_of_six_characters (Hex.lower c1) (Hex.lower c2) (Hex.lower c3)
               (Hex.lower c4) (Hex.lower c5) (Hex.lower c6)) in H
      by (repeat constructor; assumption).
    change (int16 hex_library) with Hex.int16 in H.
    change (slice 0 2 (String (Hex.lower c1) (String (Hex.lower c2)
              (String (Hex.lower c3) (String (Hex.lower c4) (String (Hex.lower c5)
              (String (Hex.lower c6) "")))))))
      with (String (Hex.lower c1) (String (Hex.lower c2) "")) in H.
    change (slice 2 4 (String (Hex.lower c1) (String (Hex.lower c2)
              (String (Hex.lower c3) (String (Hex.lower c4) (String (Hex.lower c5)
              (String (Hex.lower c6) "")))))))
      with (String (Hex.lower c3) (String (Hex.lower c4) "")) in H.
    change (slice 4 6 (String (Hex.lower c1) (String (Hex.lower c2)
              (String (Hex.lower c3) (String (Hex.lower c4) (String (Hex.lower c5)
              (String (Hex.lower c6) "")))))))
      with (String (Hex.lower c5) (String (Hex.lower c6) "")) in H.
    rewrite (@int16_of_a_pair _ _ _ _ L1 L2), (@int16_of_a_pair _ _ _ _ L3 L4), (@int16_of_a_pair _ _ _ _ L5 L6) in H.
    destruct H as [Hok [Hrgb _]]. split; assumption.
Qed.

(** The amber banner of the script: the badge is filled with
    (245, 158, 11) over 255, the accent #F59E0B, at 15% opacity. *)
Lemma SectionBanner_draw_stops_half_way_witness :
  Shapes.rgb_fills
    (log (Omnifolio.SectionBanner.draw hex_library
            (Omnifolio.SectionBanner.mk Omnifolio.W 54 "01" "Economic Calendar"
               "Proprietary macro event engine" Omnifolio.ACCENT_AMB)))
  = [(inject_Z 245 / 255, inject_Z 158 / 255, inject_Z 11 / 255, 0.15)%Q].
Proof.
  refine (proj2 (proj2 (proj2 (proj2 (SectionBanner_draw_stops_half_way hex_library
                         (Omnifolio.SectionBanner.mk Omnifolio.W 54 "01" "Economic Calendar"
                            "Proprietary macro event engine" Omnifolio.ACCENT_AMB))))
                   "F"%char "5"%char "9"%char "E"%char "0"%char "B"%char
                   15%Z 5%Z 9%Z 14%Z 0%Z 11%Z eq_refl _)).
  repeat constructor.
Defined.

(** X8: whatever string [hexval] returns for the accent colour (short,
    long, empty, without the 0x prefix), each of the three strings that
    SectionBanner.draw hands to int(_, 16) has exactly two characters. *)
Theorem SectionBanner_slices_have_two_characters
        (lib : Library) (self : Omnifolio.SectionBanner.t) :
  let hex_str := zfill 6 (remove_all "0x" (hexval lib (Omnifolio.SectionBanner.accent self))) in
  (6 <= String.length hex_str)%nat
  /\ String.length (slice 0 2 hex_str) = 2%nat
  /\ String.length (slice 2 4 hex_str) = 2%nat
  /\ String.length (slice 4 6 hex_str) = 2%nat.
Proof.
  intros hex_str.
  assert (Hlen : (6 <= String.length hex_str)%nat).
  { subst hex_str. rewrite length_zfill. lia. }
  split; [exact Hlen |].
  unfold slice. repeat split; rewrite Nat.min_l by lia; apply length_substring; lia.
Qed.

(** X9: when [hexval] returns 0x followed by six characters other than
    x (the form of every colour's hex value), the three strings parsed
    are those six characters taken two by two, in order. *)
Theorem SectionBanner_slices_are_the_digit_pairs (c1 c2 c3 c4 c5 c6 : ascii) :
  Forall (fun c => c <> "x"%char) [c1; c2; c3; c4; c5; c6] ->
  let digits := String c1 (String c2 (String c3 (String c4 (String c5 (String c6 ""))))) in
  let hex_str := zfill 6 (remove_all "0x" (String "0" (String "x" digits))) in
  hex_str = digits
  /\ slice 0 2 hex_str = String c1 (String c2 "")
  /\ slice 2 4 hex_str = String c3 (String c4 "")
  /\ slice 4 6 hex_str = String c5 (String c6 "").
Proof.
  intros Hx digits hex_str.
  assert (Hz : hex_str = digits).
  { subst hex_str digits. now apply hex_str_of_six_characters. }
  rewrite Hz. subst digits. repeat split.
Qed.

Lemma SectionBanner_slices_are_the_digit_pairs_witness :
  slice 2 4 (zfill 6 (remove_all "0x" "0xf59e0b")) = "9e"%string.
Proof.
  apply (@SectionBanner_slices_are_the_digit_pairs "f" "5" "9" "e" "0" "b").
  repeat constructor; discriminate.
Defined.

(** *** DataFlowDiagram: where the boxes and the arrows fall *)

Lemma nth_error_map_seq {B : Type} (f : nat -> B) (n i : nat) :
  nth_error (map f (seq 0 n)) i = if Nat.ltb i n then Some (f i) else None.
Proof.
  rewrite nth_error_map. destruct (Nat.ltb_spec i n) as [Hlt | Hge].
  - rewrite nth_error_seq. apply Nat.ltb_lt in Hlt. now rewrite Hlt.
  - rewrite nth_error_seq. apply Nat.ltb_ge in Hge. now rewrite Hge.
Qed.

Lemma inject_nat_le (i n : nat) :
  (i <= n)%nat -> (inject_Z (Z.of_nat i) <= inject_Z (Z.of_nat n))%Q.
Proof. intros H. rewrite <- Zle_Qle. lia. Qed.

Section DiagramBounds.
Import Omnifolio.
Local Open Scope Q_scope.

Variable self : DataFlowDiagram.t.
Let n : nat := List.length (DataFlowDiagram.steps self).
Let N : Q := len (DataFlowDiagram.steps self).
Let W : Q := DataFlowDiagram.width self.
Let gap : Q := (W - N * DataFlowDiagram.box_w) / (N + 1).
Let cy : Q := DataFlowDiagram.height self / 2.
Let bx (i : nat) : Q := gap + inject_Z (Z.of_nat i) * (DataFlowDiagram.box_w + gap).

Lemma gap_equation : gap * (N + 1) == W - N * 90.
Proof.
  unfold gap, DataFlowDiagram.box_w. field. apply len_plus_one_nonzero.
Qed.

Lemma gap_nonneg : N * 90 <= W -> 0 <= gap.
Proof.
  intros Hfit. unfold gap, DataFlowDiagram.box_w.
  apply Qle_shift_div_l.
  - pose proof (len_nonneg (DataFlowDiagram.steps self)). unfold N. lra.
  - lra.
Qed.

Lemma diagram_box_at (i : nat) :
  nth_error (Log.filled_round_rects (log (DataFlowDiagram.draw self))) i
  = if Nat.ltb i n
    then Some (bx i, cy - DataFlowDiagram.box_h / 2,
               DataFlowDiagram.box_w, DataFlowDiagram.box_h)
    else None.
Proof.
  rewrite DataFlowDiagram_draw_loop, step_loop_boxes.
  apply (nth_error_map_seq
           (fun i => (bx i, cy - DataFlowDiagram.box_h / 2,
                      DataFlowDiagram.box_w, DataFlowDiagram.box_h))).
Qed.

Lemma diagram_box_inside (i : nat) :
  N * 90 <= W -> (i < n)%nat -> 0 <= bx i /\ bx i + 90 <= W.
Proof.
  intros Hfit Hi. pose proof (gap_nonneg Hfit) as Hg. pose proof gap_equation as He.
  assert (Hk : 0 <= inject_Z (Z.of_nat i)).
  { change 0 with (inject_Z (Z.of_nat 0)). apply inject_nat_le. lia. }
  assert (HkN : inject_Z (Z.of_nat i) + 1 <= N).
  { unfold N, len. fold n. change 1 with (inject_Z 1). rewrite <- inject_Z_plus.
    rewrite <- Zle_Qle. lia. }
  assert (Hp1 : 0 <= inject_Z (Z.of_nat i) * (90 + gap))
    by (apply Qmult_le_0_compat; lra).
  assert (Hp2 : 0 <= (N - inject_Z (Z.of_nat i) - 1) * (90 + gap))
    by (apply Qmult_le_0_compat; lra).
  unfold bx, DataFlowDiagram.box_w. split; lra.
Qed.

Lemma diagram_lines :
  Log.lines (log (DataFlowDiagram.draw self))
  = map (fun i => (bx i + DataFlowDiagram.box_w + 4, cy,
                   bx i + DataFlowDiagram.box_w + gap / 2 - 4, cy))
        (seq 0 (pred n)).
Proof. rewrite DataFlowDiagram_draw_loop. apply step_loop_lines. Qed.

End DiagramBounds.

(** X10: when the n boxes fit side by side (n x 90 at most the width),
    every box drawn lies between the left and the right edge of the
    panel and ends at or before the start of the next one, so boxes never
    overlap or leave the panel. *)
Theorem DataFlowDiagram_boxes_inside_and_apart (self : Omnifolio.DataFlowDiagram.t) :
  (len (Omnifolio.DataFlowDiagram.steps self) * 90 <= Omnifolio.DataFlowDiagram.width self)%Q ->
  let boxes := Log.filled_round_rects (log (Omnifolio.DataFlowDiagram.draw self)) in
  List.length boxes = List.length (Omnifolio.DataFlowDiagram.steps self)
  /\ forall i x y w h,
      nth_error boxes i = Some (x, y, w, h) ->
      (0 <= x /\ x + w <= Omnifolio.DataFlowDiagram.width self)%Q
      /\ forall x' y' w' h',
          nth_error boxes (S i) = Some (x', y', w', h') -> (x + w <= x')%Q.
Proof.
  intros Hfit boxes. split.
  { subst boxes. rewrite DataFlowDiagram_draw_loop, step_loop_boxes.
    now rewrite length_map, length_seq. }
  intros i x y w h Hi. subst boxes. rewrite diagram_box_at in Hi.
  destruct (Nat.ltb_spec i (List.length (Omnifolio.DataFlowDiagram.steps self)))
    as [Hlt | Hge]; [| discriminate Hi].
  injection Hi as <- <- <- <-.
  destruct (@diagram_box_inside self i Hfit Hlt) as [H0 H1].
  split; [split; [exact H0 | exact H1] |].
  intros x' y' w' h' Hn. rewrite diagram_box_at in Hn.
  destruct (Nat.ltb_spec (S i) (List.length (Omnifolio.DataFlowDiagram.steps self)))
    as [Hlt' | Hge']; [| discriminate Hn].
  injection Hn as <- <- <- <-.
  pose proof (@gap_nonneg self Hfit) as Hg.
  change (Z.pos (Pos.of_succ_nat i)) with (Z.of_nat (S i)).
  rewrite Nat2Z.inj_succ, <- Z.add_1_r, inject_Z_plus.
  change (inject_Z 1) with 1%Q. unfold Omnifolio.DataFlowDiagram.box_w in *. lra.
Qed.

Lemma DataFlowDiagram_boxes_inside_and_apart_witness :
  List.length
    (Log.filled_round_rects
       (log (Omnifolio.DataFlowDiagram.draw
               (Omnifolio.DataFlowDiagram.mk Omnifolio.W 64
                  [("GOV", "Public Gov. API"); ("PARSE", "OmniFolio Parser");
                   ("SCORE", "Scoring Engine"); ("DB", "Supabase Cache");
                   ("UI", "React Component")]%string Omnifolio.ACCENT_PUR))))
  = 5%nat.
Proof.
  apply (proj1 (@DataFlowDiagram_boxes_inside_and_apart
                  (Omnifolio.DataFlowDiagram.mk Omnifolio.W 64
                     [("GOV", "Public Gov. API"); ("PARSE", "OmniFolio Parser");
                      ("SCORE", "Scoring Engine"); ("DB", "Supabase Cache");
                      ("UI", "React Component")]%string Omnifolio.ACCENT_PUR)
                  ltac:(vm_compute; discriminate))).
Defined.

(** X11: the shaft of every arrow is gap / 2 - 8 long, so it runs from
    left to right only when the gap is at least 16, that is when the
    width is at least 106 x n + 16; on a narrower panel the shaft is
    drawn backwards, from 4 past the box to a point before it.  This is
    the case of the five-step diagrams of the script, drawn on the usable
    width of an A4 page. *)
Theorem DataFlowDiagram_arrow_shafts (self : Omnifolio.DataFlowDiagram.t) :
  let N := len (Omnifolio.DataFlowDiagram.steps self) in
  let W := Omnifolio.DataFlowDiagram.width self in
  let gap := ((W - N * Omnifolio.DataFlowDiagram.box_w) / (N + 1))%Q in
  Forall (fun l : Q * Q * Q * Q =>
            let '(x1, y1, x2, y2) := l in
            (x2 - x1 == gap / 2 - 8)%Q
            /\ y1 = y2
            /\ ((x1 <= x2)%Q <-> (106 * N + 16 <= W)%Q))
         (Log.lines (log (Omnifolio.DataFlowDiagram.draw self)))
  /\ (List.length (Omnifolio.DataFlowDiagram.steps self) = 5%nat ->
      W = Omnifolio.W ->
      List.length (Log.lines (log (Omnifolio.DataFlowDiagram.draw self))) = 4%nat
      /\ Forall (fun l : Q * Q * Q * Q => let '(x1, _, x2, _) := l in (x2 < x1)%Q)
                (Log.lines (log (Omnifolio.DataFlowDiagram.draw self)))).
Proof.
  intros N W gap. rewrite diagram_lines. fold N W gap.
  assert (He : (gap * (N + 1) == W - N * 90)%Q) by apply gap_equation.
  assert (HN : (0 <= N)%Q) by apply len_nonneg.
  assert (Hiff : (16 <= gap <-> 106 * N + 16 <= W)%Q).
  { split; intros H.
    - assert (Hm : (16 * (N + 1) <= gap * (N + 1))%Q)
        by (apply Qmult_le_compat_r; lra).
      lra.
    - apply Qnot_lt_le. intros Hlt.
      assert (Hm : (gap * (N + 1) < 16 * (N + 1))%Q)
        by (apply Qmult_lt_compat_r; lra).
      lra. }
  split.
  - apply Forall_forall. intros l Hl. apply in_map_iff in Hl as [i [<- _]].
    rewrite <- Hiff. rewrite (Qhalf gap). repeat split; intros; lra.
  - intros H5 HW. rewrite length_map, length_seq, H5. split; [reflexivity |].
    assert (Hgap : (gap < 16)%Q).
    { apply Qnot_le_lt. intros H16. apply Hiff in H16.
      assert (HN5 : N = 5%Q) by (subst N; unfold len; now rewrite H5).
      rewrite HN5 in H16. fold W in HW. rewrite HW in H16.
      vm_compute in H16. now apply H16. }
    apply Forall_forall. intros l Hl. apply in_map_iff in Hl as [i [<- _]].
    rewrite (Qhalf gap). lra.
Qed.

Lemma DataFlowDiagram_arrow_shafts_witness :
  let self := Omnifolio.DataFlowDiagram.mk Omnifolio.W 64
                [("EDGAR", "SEC EDGAR EFTS Search"); ("FILTER", "SPAC/ETF Filter");
                 ("ENRICH", "Company Enrichment"); ("SEED", "Supabase DB Seed");
                 ("UI", "IPO Calendar Component")]%string Omnifolio.ACCENT_PUR in
  Forall (fun l : Q * Q * Q * Q => let '(x1, _, x2, _) := l in (x2 < x1)%Q)
         (Log.lines (log (Omnifolio.DataFlowDiagram.draw self))).
Proof.
  intros self.
  exact (proj2 (proj2 (DataFlowDiagram_arrow_shafts self) eq_refl eq_refl)).
Defined.

(** *** FeatureGrid: the cards and the declared box *)

(** Reads the four numbers out of [H : Some (a, b, c, d) = Some (x, y, w, h)]
    without reducing them. *)
Ltac read_box H x y w h :=
  match type of H with
  | Some (?a, ?b, ?c, ?d) = Some _ =>
      assert (x = a) by congruence; assert (y = b) by congruence;
      assert (w = c) by congruence; assert (h = d) by congruence;
      clear H; subst x y w h
  end.

Lemma half_facts (i n : nat) :
  (i < n)%nat ->
  (i / 2 + 1 <= (n + 1) / 2)%nat /\ (i mod 2 = 0 \/ i mod 2 = 1)%nat.
Proof.
  intros H.
  pose proof (Nat.div_mod_eq i 2). pose proof (Nat.mod_upper_bound i 2 ltac:(lia)).
  pose proof (Nat.div_mod_eq (n + 1) 2).
  pose proof (Nat.mod_upper_bound (n + 1) 2 ltac:(lia)).
  lia.
Qed.

Lemma grid_card_at (self : Omnifolio.FeatureGrid.t) (i : nat) :
  nth_error (Log.filled_round_rects (log (Omnifolio.FeatureGrid.draw self))) i
  = if Nat.ltb i (List.length (Omnifolio.FeatureGrid.features self))
    then Some (inject_Z (Z.of_nat (i mod 2))
               * ((Omnifolio.FeatureGrid.width self - 8) / 2 + 8),
               Omnifolio.FeatureGrid.height self
               - (inject_Z (Z.of_nat (i / 2)) + 1) * Omnifolio.FeatureGrid.row_h + 2,
               (Omnifolio.FeatureGrid.width self - 8) / 2,
               Omnifolio.FeatureGrid.row_h - 2)%Q
    else None.
Proof.
  unfold Omnifolio.FeatureGrid.draw. rewrite card_loop_boxes.
  apply (nth_error_map_seq
           (fun i => (inject_Z (Z.of_nat (i mod 2))
                      * ((Omnifolio.FeatureGrid.width self - 8) / 2 + 8),
                      Omnifolio.FeatureGrid.height self
                      - (inject_Z (Z.of_nat (i / 2)) + 1) * Omnifolio.FeatureGrid.row_h + 2,
                      (Omnifolio.FeatureGrid.width self - 8) / 2,
                      Omnifolio.FeatureGrid.row_h - 2)%Q)).
Qed.

(** X12: a FeatureGrid built by its constructor with a width of at
    least 8 draws every card inside the box it reports from wrap: between
    the left and right edges, at least 6 above the bottom and ending at or
    below the top; the right column ends exactly at the right edge and
    the first row exactly at the top. *)
Theorem FeatureGrid_cards_inside_wrap_box
        (width : Q) (features : list (string * string)) (accent : Color)
        (self : Omnifolio.FeatureGrid.t) :
  (8 <= width)%Q ->
  Omnifolio.FeatureGrid.__init__ width features accent = Ok self ->
  let w_box := fst (fst (Omnifolio.FeatureGrid.wrap self [])) in
  let h_box := snd (fst (Omnifolio.FeatureGrid.wrap self [])) in
  let cards := Log.filled_round_rects (log (Omnifolio.FeatureGrid.draw self)) in
  List.length cards = List.length features
  /\ forall i x y w h,
      nth_error cards i = Some (x, y, w, h) ->
      (0 <= x /\ x + w <= w_box /\ 6 <= y /\ y + h <= h_box)%Q
      /\ ((i mod 2 = 1)%nat -> (x + w == w_box)%Q)
      /\ ((i / 2 = 0)%nat -> (y + h == h_box)%Q).
Proof.
  intros Hw Hinit w_box h_box cards.
  unfold Omnifolio.FeatureGrid.__init__ in Hinit. injection Hinit as <-.
  subst w_box h_box cards.
  unfold Omnifolio.FeatureGrid.wrap. cbn [fst snd Omnifolio.FeatureGrid.width
    Omnifolio.FeatureGrid.height].
  split.
  { unfold Omnifolio.FeatureGrid.draw. rewrite card_loop_boxes.
    now rewrite length_map, length_seq. }
  intros i x y w h Hi. rewrite grid_card_at in Hi.
  cbn [Omnifolio.FeatureGrid.features Omnifolio.FeatureGrid.width
       Omnifolio.FeatureGrid.height] in Hi.
  destruct (Nat.ltb_spec i (List.length features)) as [Hlt | Hge]; [| discriminate Hi].
  read_box Hi x y w h.
  destruct (half_facts Hlt) as [Hrow Hcol].
  unfold len. rewrite ceil_half.
  assert (Hr : (inject_Z (Z.of_nat (i / 2)) + 1
                <= inject_Z (Z.of_nat ((List.length features + 1) / 2)))%Q).
  { change 1%Q with (inject_Z 1). rewrite <- inject_Z_plus, <- Zle_Qle. lia. }
  assert (Hr0 : (0 <= inject_Z (Z.of_nat (i / 2)))%Q).
  { change 0%Q with (inject_Z 0). rewrite <- Zle_Qle. lia. }
  unfold Omnifolio.FeatureGrid.row_h. rewrite !Qhalf.
  destruct Hcol as [Hc | Hc]; rewrite Hc.
  - change (inject_Z (Z.of_nat 0)) with 0%Q.
    split; [repeat split; lra |]. split; [discriminate |].
    intros H0. rewrite H0 in *. change (inject_Z (Z.of_nat 0)) with 0%Q. lra.
  - change (inject_Z (Z.of_nat 1)) with 1%Q.
    split; [repeat split; lra |]. split; [intros _; lra |].
    intros H0. rewrite H0 in *. change (inject_Z (Z.of_nat 0)) with 0%Q. lra.
Qed.

Lemma FeatureGrid_cards_inside_wrap_box_witness :
  List.length
    (Log.filled_round_rects
       (log (Omnifolio.FeatureGrid.draw
               (Omnifolio.FeatureGrid.mk 400
                  [("Persistent Cache", "Seeded into DB once");
                   ("Infinite Scale", "N concurrent users");
                   ("Zero Rate Limits", "All data is in Supabase")]%string
                  Omnifolio.ACCENT_AMB (inject_Z 2 * 36 + 4)%Q))))
  = 3%nat.
Proof.
  apply (proj1 (@FeatureGrid_cards_inside_wrap_box 400
                  [("Persistent Cache", "Seeded into DB once");
                   ("Infinite Scale", "N concurrent users");
                   ("Zero Rate Limits", "All data is in Supabase")]%string
                  Omnifolio.ACCENT_AMB _ ltac:(vm_compute; discriminate) eq_refl)).
Defined.

(** X13: two different cards of a FeatureGrid at least 8 wide never
    touch: every card is 34 high and (width - 8) / 2 wide, which is not
    negative, and of any two cards the later one is either in the same
    row, starting 8 to the right of where the earlier one ends, or in a
    lower row, ending 2 or more below where the earlier one starts. *)
Theorem FeatureGrid_cards_apart (self : Omnifolio.FeatureGrid.t) :
  (8 <= Omnifolio.FeatureGrid.width self)%Q ->
  let cards := Log.filled_round_rects (log (Omnifolio.FeatureGrid.draw self)) in
  forall i j x y w h x' y' w' h',
    (i < j)%nat ->
    nth_error cards i = Some (x, y, w, h) ->
    nth_error cards j = Some (x', y', w', h') ->
    (0 <= w /\ 0 <= w' /\ h == 34 /\ h' == 34)%Q
    /\ (((i / 2 = j / 2)%nat /\ (x + w + 8 == x')%Q /\ (x + w < x')%Q /\ y = y')
        \/ ((i / 2 < j / 2)%nat /\ (y' + h' + 2 <= y)%Q /\ (y' + h' < y)%Q)).
Proof.
  intros Hwidth cards i j x y w h x' y' w' h' Hij Hi Hj. subst cards.
  rewrite grid_card_at in Hi, Hj.
  destruct (Nat.ltb i (List.length (Omnifolio.FeatureGrid.features self)));
    [| discriminate Hi].
  destruct (Nat.ltb j (List.length (Omnifolio.FeatureGrid.features self)));
    [| discriminate Hj].
  read_box Hi x y w h. read_box Hj x' y' w' h'.
  pose proof (Nat.div_mod_eq i 2) as Hdi.
  pose proof (Nat.mod_upper_bound i 2 ltac:(lia)) as Hmi.
  pose proof (Nat.div_mod_eq j 2) as Hdj.
  pose proof (Nat.mod_upper_bound j 2 ltac:(lia)) as Hmj.
  assert (Hw0 : (0 <= (Omnifolio.FeatureGrid.width self - 8) / 2)%Q)
    by (rewrite Qhalf; lra).
  split.
  { unfold Omnifolio.FeatureGrid.row_h. repeat split; try exact Hw0; reflexivity. }
  destruct (Nat.eq_dec (i / 2) (j / 2)) as [Heq | Hneq].
  - left. assert (Hci : (i mod 2 = 0)%nat) by lia.
    assert (Hcj : (j mod 2 = 1)%nat) by lia.
    rewrite Hci, Hcj, Heq. split; [reflexivity |].
    change (inject_Z (Z.of_nat 0)) with 0%Q. change (inject_Z (Z.of_nat 1)) with 1%Q.
    split; [ring |]. split; [| reflexivity].
    set (cw := ((Omnifolio.FeatureGrid.width self - 8) / 2)%Q) in *. lra.
  - right. assert (Hlt : (i / 2 < j / 2)%nat) by lia. split; [exact Hlt |].
    assert (Hr : (inject_Z (Z.of_nat (i / 2)) + 1 <= inject_Z (Z.of_nat (j / 2)))%Q).
    { change 1%Q with (inject_Z 1). rewrite <- inject_Z_plus, <- Zle_Qle. lia. }
    unfold Omnifolio.FeatureGrid.row_h. split; lra.
Qed.

Lemma FeatureGrid_cards_apart_witness :
  let self := Omnifolio.FeatureGrid.mk 400
                [("Persistent Cache", "Seeded into DB once");
                 ("Infinite Scale", "N concurrent users");
                 ("Zero Rate Limits", "All data is in Supabase")]%string
                Omnifolio.ACCENT_AMB (inject_Z 2 * 36 + 4)%Q in
  let cards := Log.filled_round_rects (log (Omnifolio.FeatureGrid.draw self)) in
  exists x y w h x' y' w' h',
    nth_error cards 0 = Some (x, y, w, h)
    /\ nth_error cards 2 = Some (x', y', w', h')
    /\ (y' + h' < y)%Q.
Proof.
  intros self cards.
  assert (Hw : (8 <= Omnifolio.FeatureGrid.width self)%Q) by (vm_compute; discriminate).
  destruct (nth_error cards 0) as [[[[x y] w] h] |] eqn:H0; [| discriminate H0].
  destruct (nth_error cards 2) as [[[[x' y'] w'] h'] |] eqn:H2; [| discriminate H2].
  exists x, y, w, h, x', y', w', h'. split; [reflexivity |]. split; [reflexivity |].
  destruct (@FeatureGrid_cards_apart self Hw 0%nat 2%nat x y w h x' y' w' h'
              ltac:(lia) H0 H2)
    as [_ [[Hrow _] | [_ [_ Hy]]]].
  - discriminate Hrow.
  - exact Hy.
Defined.

(** *** HeroHeader: the accent line and the badges *)

(** X14: for every width, the accent line at the top of a HeroHeader is
    made of four segments of a quarter of the width each, laid end to end
    from the left edge to the right edge, all 2 below the top; the only
    other line drawn is the rule, 28 in from either side. *)
Theorem HeroHeader_accent_line_spans_the_width
        (lib : Library) (today : date) (self : Omnifolio.HeroHeader.t) :
  let w := Omnifolio.HeroHeader.width self in
  let h := Omnifolio.HeroHeader.height self in
  exists s0 e0 s1 e1 s2 e2 s3 e3 : Q,
    Log.lines (log (Omnifolio.HeroHeader.draw lib today self))
    = [(s0, h - 2, e0, h - 2); (s1, h - 2, e1, h - 2);
       (s2, h - 2, e2, h - 2); (s3, h - 2, e3, h - 2);
       (28, 24, w - 28, 24)]%Q
    /\ (s0 == 0 /\ e0 == s1 /\ e1 == s2 /\ e2 == s3 /\ e3 == w)%Q
    /\ (e0 - s0 == w / 4 /\ e1 - s1 == w / 4 /\ e2 - s2 == w / 4 /\ e3 - s3 == w / 4)%Q.
Proof.
  intros w h. do 8 eexists. split; [reflexivity |].
  change (len [Omnifolio.ACCENT_PUR; Omnifolio.ACCENT_BLUE; Omnifolio.ACCENT_GRN;
               Omnifolio.ACCENT_AMB]) with (inject_Z 4).
  change (inject_Z (Z.of_nat 0)) with 0%Q. change (inject_Z (Z.of_nat 1)) with 1%Q.
  change (inject_Z (Z.of_nat 2)) with 2%Q. change (inject_Z (Z.of_nat 3)) with 3%Q.
  change (inject_Z 4) with 4%Q. fold w.
  split; repeat split; field.
Qed.

(** X15: the three service badges of a HeroHeader are 80 wide and 20
    high, 34 above the bottom, and start at 28, 118 and 208, whatever the
    width of the header: they need a header at least 288 wide to stay
    inside it. *)
Theorem HeroHeader_badges_do_not_depend_on_width
        (lib : Library) (today : date) (self : Omnifolio.HeroHeader.t) :
  Log.filled_round_rects (log (Omnifolio.HeroHeader.draw lib today self))
  = [(28, 34, 80, 20); (28 + 90, 34, 80, 20); (28 + 90 + 90, 34, 80, 20)]%Q
  /\ (Forall (fun b : Q * Q * Q * Q =>
                let '(x, _, w, _) := b in (x + w <= Omnifolio.HeroHeader.width self)%Q)
             (Log.filled_round_rects (log (Omnifolio.HeroHeader.draw lib today self)))
      <-> (288 <= Omnifolio.HeroHeader.width self)%Q).
Proof.
  assert (H : Log.filled_round_rects (log (Omnifolio.HeroHeader.draw lib today self))
              = [(28, 34, 80, 20); (28 + 90, 34, 80, 20); (28 + 90 + 90, 34, 80, 20)]%Q)
    by reflexivity.
  split; [exact H |]. rewrite H. split.
  - intros HF. apply Forall_inv_tail, Forall_inv_tail, Forall_inv in HF. lra.
  - intros Hw. repeat constructor; lra.
Qed.

(** *** No drawing relies on what the canvas was set to before *)

Lemma ready_covers (s1 s2 : GState.t) (o : op) :
  GState.covers s1 s2 = true -> GState.ready s2 o = true -> GState.ready s1 o = true.
Proof.
  destruct s1 as [a1 b1 c1 d1], s2 as [a2 b2 c2 d2].
  destruct o as [c | r g b al | c | w | nm sz | x y w h fl st | x y w h rd fl st
                 | cx cy r fl st | x1 y1 x2 y2 | x1 y1 x2 y2 sa ex | x y tx | x y tx
                 | x y tx | p fl st];
    unfold GState.covers, GState.ready, GState.paint_ready; cbn;
    try reflexivity;
    try (destruct fl, st);
    destruct a1, b1, c1, d1, a2, b2, c2, d2; cbn; intros; congruence.
Qed.

Lemma after_covers (s1 s2 : GState.t) (o : op) :
  GState.covers s1 s2 = true -> GState.covers (GState.after s1 o) (GState.after s2 o) = true.
Proof.
  destruct s1 as [a1 b1 c1 d1], s2 as [a2 b2 c2 d2].
  destruct o; unfold GState.covers, GState.after; cbn;
    destruct a1, b1, c1, d1, a2, b2, c2, d2; cbn; intros; congruence.
Qed.

Lemma self_contained_covers (l : list op) :
  forall s1 s2,
    GState.covers s1 s2 = true ->
    GState.self_contained_from s2 l = true ->
    GState.self_contained_from s1 l = true.
Proof.
  induction l as [| o l IH]; intros s1 s2 Hc H; [reflexivity |].
  cbn in *. apply andb_true_iff in H as [Hr Hl]. apply andb_true_iff. split.
  - exact (ready_covers s1 s2 o Hc Hr).
  - exact (IH _ _ (after_covers s1 s2 o Hc) Hl).
Qed.

Lemma covers_fresh (s : GState.t) : GState.covers s GState.fresh = true.
Proof. destruct s as [[] [] [] []]; reflexivity. Qed.

Lemma self_contained_app (l1 l2 : list op) :
  forall s,
    GState.self_contained_from s l1 = true ->
    GState.self_contained l2 = true ->
    GState.self_contained_from s (l1 ++ l2) = true.
Proof.
  induction l1 as [| o l1 IH]; intros s H1 H2.
  - cbn. exact (self_contained_covers l2 s GState.fresh (covers_fresh s) H2).
  - cbn in *. apply andb_true_iff in H1 as [Hr Hl]. apply andb_true_iff. split.
    + exact Hr.
    + now apply IH.
Qed.

Lemma log_bind_cases {A B : Type} (m : Draw A) (k : A -> Draw B) :
  log (bind m k) = log m \/ exists a, log (bind m k) = log m ++ log (k a).
Proof.
  destruct m as [l [a | e]].
  - right. exists a. rewrite bind_Ok. reflexivity.
  - left. reflexivity.
Qed.

Lemma self_contained_bind {A B : Type} (m : Draw A) (k : A -> Draw B) :
  GState.self_contained (log m) = true ->
  (forall a, GState.self_contained (log (k a)) = true) ->
  GState.self_contained (log (bind m k)) = true.
Proof.
  intros Hm Hk. destruct (log_bind_cases m k) as [-> | [a ->]]; [exact Hm |].
  apply self_contained_app; [exact Hm | apply Hk].
Qed.

Lemma self_contained_for_each {A : Type} (xs : list A) (body : A -> Draw unit) :
  (forall x, GState.self_contained (log (body x)) = true) ->
  GState.self_contained (log (for_each xs body)) = true.
Proof.
  intros Hbody. induction xs as [| x xs IH]; [reflexivity |].
  cbn [for_each]. apply self_contained_bind; [apply Hbody | intros _; exact IH].
Qed.

Lemma self_contained_for_each_acc {A S : Type} (xs : list A) (body : S -> A -> Draw S) :
  (forall s x, GState.self_contained (log (body s x)) = true) ->
  forall s, GState.self_contained (log (for_each_acc xs s body)) = true.
Proof.
  intros Hbody. induction xs as [| x xs IH]; intros s; [reflexivity |].
  cbn [for_each_acc]. apply self_contained_bind; [apply Hbody | intros s'; apply IH].
Qed.

(** X16: every canvas call of every custom flowable's draw paints with
    colours, line width and font that the same draw has set before it:
    fills follow a fill colour, strokes follow a stroke colour and a line
    width, text follows a fill colour and a font.  This holds for every
    input, also when draw stops with an error. *)
Theorem draw_sets_what_it_paints_with (lib : Library) (today : date) (f : Flowable.t) :
  GState.self_contained (log (Flowable.draw lib today f)) = true.
Proof.
  destruct f as [x | x | x | x | x | x | x | x]; cbn [Flowable.draw].
  - reflexivity.
  - unfold Omnifolio.SectionBanner.draw.
    destruct (int16 lib (slice 0 2 _)) as [r | e]; [| reflexivity].
    destruct (int16 lib (slice 2 4 _)) as [g | e]; [| reflexivity].
    destruct (int16 lib (slice 4 6 _)) as [b | e]; reflexivity.
  - unfold Omnifolio.ScoreGauge.draw.
    destruct (Omnifolio.ScoreGauge.sweep x) as [a | e]; [| reflexivity].
    destruct (0 <? a)%Z eqn:E; cbn; rewrite E; reflexivity.
  - rewrite DataFlowDiagram_draw_loop. apply self_contained_for_each.
    intros [i [icon label]]. unfold Omnifolio.DataFlowDiagram.draw_step.
    destruct (Z.of_nat i <? _)%Z; reflexivity.
  - unfold Omnifolio.ScoreBreakdownBar.draw.
    apply self_contained_bind; [reflexivity |]. intros t.
    apply self_contained_bind.
    + apply self_contained_for_each_acc. intros s [[label weight] color].
      unfold Omnifolio.ScoreBreakdownBar.draw_segment.
      destruct (Num.truediv weight t); reflexivity.
    + intros _. apply self_contained_bind; [| reflexivity].
      apply self_contained_for_each_acc. intros s [[label weight] color].
      unfold Omnifolio.ScoreBreakdownBar.draw_legend.
      destruct (Omnifolio.ScoreBreakdownBar.percent weight); [| reflexivity].
      destruct (truediv _ _); reflexivity.
  - unfold Omnifolio.FeatureGrid.draw. apply self_contained_for_each.
    intros [i [title desc]]. reflexivity.
  - reflexivity.
  - reflexivity.
Qed.

Example stroke_without_colour_is_caught :
  GState.self_contained [setLineWidth 8; arc 0 0 10 10 0 180] = false
  /\ GState.self_contained [setStrokeColor Omnifolio.SURFACE2; setLineWidth 8;
                            arc 0 0 10 10 0 180] = true
  /\ GState.self_contained [setFillColor Omnifolio.TEXT_PRI; drawString 0 0 "OMNI"] = false.
Proof. repeat split. Qed.

(** *** make_table: the shaded rows *)

Lemma range2_fuel_spec (fuel : nat) :
  forall a b r,
    (b <= a + fuel)%nat ->
    (In r (Platypus.range2_fuel fuel a b)
     <-> (a <= r < b)%nat /\ exists k, r = (a + 2 * k)%nat).
Proof.
  induction fuel as [| fuel IH]; intros a b r Hfuel.
  - cbn. split; [contradiction | intros [H _]; lia].
  - cbn [Platypus.range2_fuel]. destruct (Nat.ltb_spec a b) as [Hlt | Hge].
    + cbn [In]. rewrite (IH (a + 2)%nat b r) by lia. split.
      * intros [<- | [Hr [k ->]]].
        -- split; [lia | exists 0%nat; lia].
        -- split; [lia | exists (S k); lia].
      * intros [Hr [k ->]]. destruct k as [| k].
        -- left. lia.
        -- right. split; [lia | exists k; lia].
    + cbn. split; [contradiction | intros [H _]; lia].
Qed.

(** X18: the explicit alternating-row commands of [make_table] shade
    exactly the even table rows from row 2 to the last row (the second,
    fourth, ... body row); a table with fewer than two body rows gets
    none. *)
Theorem make_table_shades_even_rows
        (headers : list string) (rows : list (list string)) (col_widths : list Q)
        (warn_col : option nat) (r : nat) :
  In (Platypus.Cmd "BACKGROUND" (0, Z.of_nat r)%Z (-1, Z.of_nat r)%Z
                   [Platypus.AColor Storage.ROW_ALT])
     (Platypus.tstyle (Storage.make_table headers rows col_widths warn_col))
  <-> (2 <= r <= List.length rows)%nat /\ Nat.even r = true.
Proof.
  unfold Storage.make_table, Platypus.setStyle, Platypus.Table.
  cbn [Platypus.tstyle Platypus.data app List.length]. rewrite length_map.
  assert (Hspec := @range2_fuel_spec (S (List.length rows)) 2 (S (List.length rows)) r
                     ltac:(lia)).
  fold (Platypus.range2 2 (S (List.length rows))) in Hspec.
  assert (Heven : (exists k, r = (2 + 2 * k)%nat) <-> (2 <= r)%nat /\ Nat.even r = true).
  { split.
    - intros [k ->]. split; [lia |].
      replace (2 + 2 * k)%nat with (2 * (S k))%nat by lia. rewrite Nat.even_mul. reflexivity.
    - intros [H2 He]. apply Nat.even_spec in He as [k ->]. exists (k - 1)%nat. lia. }
  split.
  - intros Hin. repeat (destruct Hin as [Hin | Hin]; [discriminate Hin |]).
    apply in_app_iff in Hin as [Hin | Hin].
    + apply in_map_iff in Hin as [r' [Heq Hr']].
      assert (r' = r) by (injection Heq as H _; lia). subst r'.
      apply Hspec in Hr' as [Hb Hk]. apply Heven in Hk. split; [lia | apply Hk].
    + repeat (destruct Hin as [Hin | Hin]; [discriminate Hin |]). contradiction.
  - intros [Hb He]. do 6 right. apply in_app_iff. left.
    apply in_map_iff. exists r. split; [reflexivity |].
    apply Hspec. split; [lia |]. apply Heven. split; [lia | exact He].
Qed.

Lemma make_table_shades_even_rows_witness :
  In (Platypus.Cmd "BACKGROUND" (0, 4)%Z (-1, 4)%Z [Platypus.AColor Storage.ROW_ALT])
     (Platypus.tstyle
        (Storage.make_table ["Table"; "12-Month Est."]%string
           [["insider_sentiment_cache"; "2-5 MB"]; ["earnings_surprises_cache"; "3-5 MB"];
            ["earnings_estimates_history"; "1-2 MB"]; ["price_snapshots"; "5-10 MB"];
            ["user_usage"; "110 MB"]]%string
           [5.5; 3.3]%Q None)).
Proof.
  apply (proj2 (make_table_shades_even_rows ["Table"; "12-Month Est."]%string
                  [["insider_sentiment_cache"; "2-5 MB"]; ["earnings_surprises_cache"; "3-5 MB"];
                   ["earnings_estimates_history"; "1-2 MB"]; ["price_snapshots"; "5-10 MB"];
                   ["user_usage"; "110 MB"]]%string
                  [5.5; 3.3]%Q None 4%nat)).
  split; [cbn; lia | reflexivity].
Defined.

(** *** The asterisks stripped from the summary cells *)

Lemma lstrip_star_spec (s : string) :
  exists n, s = (Summary.stars n ++ Summary.lstrip_star s)%string
            /\ forall r, Summary.lstrip_star s <> String "*" r.
Proof.
  induction s as [| c s IH].
  - exists 0%nat. split; [reflexivity | discriminate].
  - cbn [Summary.lstrip_star]. destruct (Ascii.eqb_spec c "*") as [-> | Hc].
    + destruct IH as [n [Hn Hr]]. exists (S n). split; [cbn; now rewrite <- Hn | exact Hr].
    + exists 0%nat. split; [reflexivity |]. intros r Heq. injection Heq as H _. contradiction.
Qed.

Lemma rstrip_star_spec (s : string) :
  exists m, s = (Summary.rstrip_star s ++ Summary.stars m)%string
            /\ (forall r, Summary.rstrip_star s <> (r ++ "*")%string)
            /\ (forall c r, s = String c r -> c <> "*"%char ->
                            exists r', Summary.rstrip_star s = String c r').
Proof.
  induction s as [| c s IH].
  - exists 0%nat. split; [reflexivity |]. split.
    + intros [| c r]; discriminate.
    + intros c r H. discriminate H.
  - destruct IH as [m [Hm [Hend _]]]. cbn [Summary.rstrip_star].
    destruct (Summary.rstrip_star s) as [| c' r'] eqn:E.
    + destruct (Ascii.eqb_spec c "*") as [-> | Hc].
      * exists (S m). split; [cbn in *; now rewrite <- Hm |]. split.
        -- intros [| c0 r]; discriminate.
        -- intros c0 r H Hc0. injection H as <- _. contradiction.
      * exists m. split; [cbn in *; now rewrite <- Hm |]. split.
        -- intros [| c0 [| c1 r]] H; cbn in H; try discriminate H.
           injection H as ->. contradiction.
        -- intros c0 r H _. injection H as <- _. now exists EmptyString.
    + exists m. split; [cbn in *; now rewrite <- Hm |]. split.
      * intros [| c0 r] H; cbn in H; [discriminate H |].
        injection H as _ H. exact (Hend r H).
      * intros c0 r H _. injection H as <- _. now exists (String c' r').
Qed.

(** X20: the text of every cell of the summary table is the input
    string without its leading and trailing asterisks and with nothing
    else changed: the input is some asterisks, then the text, then some
    asterisks, and the text neither starts nor ends with an asterisk (a
    cell made of asterisks only becomes empty). *)
Theorem strip_star_removes_only_outer_asterisks (s : string) :
  (exists n m,
      s = (Summary.stars n ++ Summary.strip_star s ++ Summary.stars m)%string)
  /\ (forall r, Summary.strip_star s <> String "*" r)
  /\ (forall r, Summary.strip_star s <> (r ++ "*")%string)
  /\ Summary.strip_star (Summary.strip_star s) = Summary.strip_star s.
Proof.
  unfold Summary.strip_star.
  destruct (lstrip_star_spec s) as [n [Hn Hstart]].
  destruct (rstrip_star_spec (Summary.lstrip_star s)) as [m [Hm [Hend Hkeep]]].
  assert (Hfirst : forall r, Summary.rstrip_star (Summary.lstrip_star s) <> String "*" r).
  { intros r Heq. destruct (Summary.lstrip_star s) as [| c t] eqn:E.
    - discriminate Heq.
    - destruct (Ascii.eqb_spec c "*") as [-> | Hc]; [exact (Hstart t eq_refl) |].
      destruct (Hkeep c t eq_refl Hc) as [r' Hr']. rewrite Hr' in Heq.
      injection Heq as H _. contradiction. }
  split; [| split; [| split]].
  - exists n, m. rewrite <- Hm. exact Hn.
  - exact Hfirst.
  - exact Hend.
  - set (u := Summary.rstrip_star (Summary.lstrip_star s)) in *.
    assert (Hl : Summary.lstrip_star u = u).
    { destruct u as [| c t]; [reflexivity |]. cbn.
      destruct (Ascii.eqb_spec c "*") as [-> | Hc]; [| reflexivity].
      exfalso. exact (Hfirst t eq_refl). }
    rewrite Hl.
    destruct (rstrip_star_spec u) as [k [Hk [_ _]]].
    destruct k as [| k].
    + cbn in Hk. rewrite Hk at 2. clear. generalize (Summary.rstrip_star u).
      intros v. induction v as [| c v IH]; cbn; [reflexivity | now rewrite <- IH].
    + exfalso. apply (Hend (Summary.rstrip_star u ++ Summary.stars k)%string).
      rewrite Hk at 1. clear.
      generalize (Summary.rstrip_star u). intros v.
      induction v as [| c v IH]; cbn.
      * induction k as [| k IHk]; cbn; [reflexivity | now rewrite <- IHk].
      * now rewrite <- IH.
Qed.

Example strip_star_samples :
  Summary.strip_star "**~1.2-1.5 GB" = "~1.2-1.5 GB"%string
  /\ Summary.strip_star "a*b**" = "a*b"%string
  /\ Summary.strip_star "***" = ""%string
  /\ Summary.strip_star "< 1 MB" = "< 1 MB"%string.
Proof. repeat split. Qed.

(** *** HeroHeader: the glow blobs and the reported box *)

(** X22: the decorative blobs of a HeroHeader are not kept inside the
    box that wrap reports: for a header built by the constructor, of any
    width, the first blob reaches 60 above the top of the box and the
    second 60 below its bottom; the first also crosses the left edge when
    the width is below 1000. *)
Theorem HeroHeader_blobs_leave_the_box
        (lib : Library) (today : date) (width : Q) (self : Omnifolio.HeroHeader.t) :
  Omnifolio.HeroHeader.__init__ width = Ok self ->
  let h_box := snd (fst (Omnifolio.HeroHeader.wrap self [])) in
  exists x1 y1 x2 y2 x3 y3 : Q,
    Shapes.circles (log (Omnifolio.HeroHeader.draw lib today self))
    = [(x1, y1, 100); (x2, y2, 120); (x3, y3, 90)]%Q
    /\ (y1 + 100 == h_box + 60)%Q
    /\ (y2 - 120 == -60)%Q
    /\ ((x1 - 100 < 0)%Q <-> (width < 1000)%Q)
    /\ (0 <= y3 - 90 /\ y3 + 90 <= h_box)%Q.
Proof.
  intros Hinit h_box. injection Hinit as <-. subst h_box.
  do 6 eexists. split; [reflexivity |].
  cbn [Omnifolio.HeroHeader.width Omnifolio.HeroHeader.height Omnifolio.HeroHeader.wrap
       fst snd].
  repeat split; intros; lra.
Qed.

Lemma HeroHeader_blobs_leave_the_box_witness :
  exists x1 y1 x2 y2 x3 y3 : Q,
    Shapes.circles
      (log (Omnifolio.HeroHeader.draw sample_library (mkdate 2026 11 3)
              (Omnifolio.HeroHeader.mk Omnifolio.W 200)))
    = [(x1, y1, 100); (x2, y2, 120); (x3, y3, 90)]%Q
    /\ (y1 + 100 == 200 + 60)%Q.
Proof.
  destruct (@HeroHeader_blobs_leave_the_box sample_library (mkdate 2026 11 3)
              Omnifolio.W _ eq_refl)
    as [x1 [y1 [x2 [y2 [x3 [y3 [Hc [Hy _]]]]]]]].
  exists x1, y1, x2, y2, x3, y3. split; [exact Hc | exact Hy].
Defined.
